(** * CardioSentinel risk-scoring engine: training helpers and predictor

    A shallow embedding of [backend/ml/train_model.py],
    [backend/ml/predictor.py], the request and response types of
    [backend/api/schemas.py] and the paths of [backend/utils/config.py].

    Conventions of the embedding.
    - A Python [float] is a real number ([R]): arithmetic is exact.  A Python
      [int] is a [Z], converted with [IZR] where the source writes
      [float(..)].  Module [Binary64] reads [sigmoid] and
      [_predict_probability] once more on IEEE binary64 numbers, for the one
      property that rounding decides.
    - A Python [dict] with string keys is a [gmap string _]; [d[k]] raises
      [KeyError] on a missing key, [d.get(k)] and [d.get(k, dflt)] do not.
      Insertion order is not kept: no function below depends on it.
    - Code that can raise returns [res A]: [Ok a] or [Raise e].
    - A JSON file is kept in the store as the parsed document; [json.dump]
      followed by [json.load] is the identity on documents. *)

From Stdlib Require Import Reals Lra Strings.Ascii Sorting.Sorted.
From Stdlib Require Floats.PrimFloat.
From stdpp Require Import gmap strings list fin_maps.

Local Open Scope R_scope.

(** ** Python primitives *)

Inductive exn : Type :=
  | KeyError (key : string)
  | ZeroDivisionError
  | ValueError
  | IndexError
  | FileNotFoundError (path : string)
  | RuntimeError (msg : string).

Inductive res (A : Type) : Type :=
  | Ok (a : A)
  | Raise (e : exn).
Arguments Ok {A} a.
Arguments Raise {A} e.

#[global] Instance res_ret : MRet res := λ A a, Ok a.
#[global] Instance res_bind : MBind res := λ A B f m,
  match m with
  | Ok a => f a
  | Raise e => Raise e
  end.

#[global] Instance Req_decision : EqDecision R := Req_EM_T.
#[global] Instance Rlt_decision : RelDecision Rlt := Rlt_dec.
#[global] Instance Rgt_decision : RelDecision Rgt := Rgt_dec.
#[global] Instance Rge_decision : RelDecision Rge := Rge_dec.

(** [d[k]] *)
Definition getitem {V} (d : gmap string V) (k : string) : res V :=
  match d !! k with
  | Some v => Ok v
  | None => Raise (KeyError k)
  end.

(** [d.get(k, dflt)] *)
Definition dict_get {V} (d : gmap string V) (k : string) (dflt : V) : V :=
  default dflt (d !! k).

(** Truth value of a dict: empty is falsy. *)
Definition dict_truthy {V} (d : gmap string V) : bool :=
  negb (bool_decide (d = ∅)).

(** A dict built by assigning the items in order (a later key wins). *)
Definition dict_of_items {V} (items : list (string * V)) : gmap string V :=
  fold_left (λ d kv, <[kv.1 := kv.2]> d) items ∅.

(** [if c: l.append(x)] *)
Definition append_if {A} (c : bool) (l : list A) (x : A) : list A :=
  if c then l ++ [x] else l.

(** [sum(xs)]: left to right from [0]. *)
Definition py_sum (xs : list R) : R := fold_left Rplus xs 0.

(** [sum(d.values())]; over the reals the order of the keys is immaterial. *)
Definition dict_values_sum (d : gmap string R) : R :=
  map_fold (λ _ v acc, acc + v) 0 d.

(** [x / y] on floats *)
Definition truediv (x y : R) : res R :=
  if decide (y = 0) then Raise ZeroDivisionError else Ok (x / y).

(** [x or dflt] on floats: zero is the only falsy float. *)
Definition float_or (x dflt : R) : R :=
  if decide (x = 0) then dflt else x.

(** [math.sqrt] *)
Definition math_sqrt (x : R) : res R :=
  if decide (x < 0) then Raise ValueError else Ok (sqrt x).

(** [l[i]] with Python's negative indices. *)
Definition index (l : list R) (i : Z) : res R :=
  let n := Z.of_nat (length l) in
  let j := if (i <? 0)%Z then (n + i)%Z else i in
  if (j <? 0)%Z then Raise IndexError
  else match l !! Z.to_nat j with
       | Some x => Ok x
       | None => Raise IndexError
       end.

(** [sorted(xs)] *)
Fixpoint insert_sorted (x : R) (l : list R) : list R :=
  match l with
  | [] => [x]
  | y :: l' => if decide (y > x) then x :: y :: l' else y :: insert_sorted x l'
  end.

Definition sorted (xs : list R) : list R := foldr insert_sorted [] xs.

(** [int(x)]: truncation toward zero. *)
Definition py_int (x : R) : Z :=
  if decide (x < 0) then (- Int_part (- x))%Z else Int_part x.

(** [max(a, b)] and [min(a, b)]: the first argument, unless the second is
    strictly larger (respectively smaller). *)
Definition py_max (a b : R) : R := if decide (b > a) then b else a.
Definition py_min (a b : R) : R := if decide (b < a) then b else a.

(** [round(x, 2)]: to the nearest multiple of [0.01], a tie to the even
    one. *)
Definition round_half_even (y : R) : Z :=
  let f := Int_part y in
  let d := frac_part y in
  if decide (d < 1 / 2) then f
  else if decide (d > 1 / 2) then (f + 1)%Z
  else if Z.even f then f else (f + 1)%Z.

Definition py_round2 (x : R) : R := IZR (round_half_even (x * 100)) / 100.

(** [s.replace("_", " ")] and [s.title()] on ASCII strings. *)
Definition replace_underscore (s : string) : string :=
  String.string_of_list_ascii
    (map (λ c, if Ascii.eqb c "_"%char then " "%char else c)
         (String.list_ascii_of_string s)).

Definition is_lower (c : Ascii.ascii) : bool :=
  let n := Ascii.nat_of_ascii c in (97 <=? n)%nat && (n <=? 122)%nat.
Definition is_upper (c : Ascii.ascii) : bool :=
  let n := Ascii.nat_of_ascii c in (65 <=? n)%nat && (n <=? 90)%nat.
Definition to_upper (c : Ascii.ascii) : Ascii.ascii :=
  if is_lower c then Ascii.ascii_of_nat (Ascii.nat_of_ascii c - 32) else c.
Definition to_lower (c : Ascii.ascii) : Ascii.ascii :=
  if is_upper c then Ascii.ascii_of_nat (Ascii.nat_of_ascii c + 32) else c.

Fixpoint title_from (prev_cased : bool) (cs : list Ascii.ascii)
  : list Ascii.ascii :=
  match cs with
  | [] => []
  | c :: rest =>
      (if prev_cased then to_lower c else to_upper c)
        :: title_from (is_lower c || is_upper c) rest
  end.

Definition title (s : string) : string :=
  String.string_of_list_ascii
    (title_from false (String.list_ascii_of_string s)).

(** ** [backend/utils/config.py] *)

Module Config.

Record Settings : Type := {
  dataset_path : string;
  model_path : string;
  stats_path : string;
  report_path : string;
}.

(** The settings when no environment variable overrides a path. *)
Definition default_settings : Settings := {|
  dataset_path := "data/heart_uci.csv";
  model_path := "backend/ml/models/heart_attack_model.json";
  stats_path := "backend/ml/models/feature_stats.json";
  report_path := "backend/ml/reports/training_report.json";
|}.

End Config.

(** ** [backend/api/schemas.py] *)

Module Schemas.

Module SexEnum.
Inductive t : Type := male | female.
Definition value (x : t) : string :=
  match x with male => "male" | female => "female" end.
End SexEnum.

Module ChestPainEnum.
Inductive t : Type := typical | atypical | non_anginal | asymptomatic.
Definition value (x : t) : string :=
  match x with
  | typical => "typical_angina"
  | atypical => "atypical_angina"
  | non_anginal => "non_anginal"
  | asymptomatic => "asymptomatic"
  end.
End ChestPainEnum.

Module RestECGEnum.
Inductive t : Type := normal | st_t_abnormality | hypertrophy.
Definition value (x : t) : string :=
  match x with
  | normal => "normal"
  | st_t_abnormality => "st_t_abnormality"
  | hypertrophy => "left_ventricular_hypertrophy"
  end.
End RestECGEnum.

Module SlopeEnum.
Inductive t : Type := up | flat | down.
Definition value (x : t) : string :=
  match x with up => "upsloping" | flat => "flat" | down => "downsloping" end.
End SlopeEnum.

Module ThalEnum.
Inductive t : Type := normal | fixed_defect | reversible_defect.
Definition value (x : t) : string :=
  match x with
  | normal => "normal"
  | fixed_defect => "fixed_defect"
  | reversible_defect => "reversible_defect"
  end.
End ThalEnum.

Record HealthPredictionRequest : Type := {
  name : string;
  age : Z;
  sex : SexEnum.t;
  chest_pain_type : ChestPainEnum.t;
  bp_systolic : R;
  bp_diastolic : R;
  cholesterol : R;
  sugar_level : R;
  calories_burned : R;
  max_heart_rate : R;
  resting_ecg : RestECGEnum.t;
  exercise_angina : bool;
  st_depression : R;
  slope : SlopeEnum.t;
  num_major_vessels : Z;
  thalassemia : ThalEnum.t;
  fasting_hours : R;
  smoker : bool;
  diabetic : bool;
  emergency_contacts : list string;
  notes : option string;
}.

Record HealthyRange : Type := { low : R; high : R }.

Record ChartDatum : Type := {
  label : string;
  user_value : R;
  recommended : HealthyRange;
  population_avg : R;
}.

Record HealthPredictionResponse : Type := {
  resp_name : string;
  risk_category : string;
  risk_score : R;
  probability : R;
  classification : Z;
  advisory_message : string;
  chart : list ChartDatum;
  key_insights : list string;
  feature_importance : gmap string R;
  recommended_actions : list string;
}.

End Schemas.

(** ** The JSON documents on disk *)

Module Store.

(** The model file as [json.load] returns it: each key the loader reads is
    present or absent; values have the types annotated on the predictor's
    fields. *)
Record ModelDocument : Type := {
  doc_feature_order : option (list string);
  doc_weights : option (list R);
  doc_bias : option R;
  doc_scaling : option (gmap string (gmap string R));
}.

(** The stats file: a top-level object of per-feature summaries, with or
    without the wrapping key ["feature_stats"]. *)
Record StatsDocument : Type := {
  doc_feature_stats : option (gmap string (gmap string R));
  doc_top_level : gmap string (gmap string R);
}.

Record ReportDocument : Type := {
  doc_timestamp : string;
  doc_samples : Z;
  doc_train_samples : Z;
  doc_test_samples : Z;
  doc_accuracy : R;
  doc_precision : R;
  doc_recall : R;
  doc_feature_importance : option (gmap string R);
}.

Inductive document : Type :=
  | ModelDoc (d : ModelDocument)
  | StatsDoc (d : StatsDocument)
  | ReportDoc (d : ReportDocument).

(** The file system: path to document. *)
Abbreviation store := (gmap string document).

(** What the loader sees of a document when it asks for the model keys: a
    stats or report document has none of them. *)
Definition as_model (d : document) : ModelDocument :=
  match d with
  | ModelDoc m => m
  | _ => {| doc_feature_order := None; doc_weights := None;
            doc_bias := None; doc_scaling := None |}
  end.

(** [payload.get("feature_stats", payload)]: for a model or report document
    the result is the document itself, in which no feature summary is found. *)
Definition as_feature_stats (d : document) : gmap string (gmap string R) :=
  match d with
  | StatsDoc s => default (doc_top_level s) (doc_feature_stats s)
  | _ => ∅
  end.

(** [payload.get("feature_importance", {})] *)
Definition as_feature_importance (d : document) : gmap string R :=
  match d with
  | ReportDoc r => default ∅ (doc_feature_importance r)
  | StatsDoc s => default ∅ (doc_top_level s !! "feature_importance")
  | ModelDoc _ => ∅
  end.

End Store.

(** ** [backend/ml/train_model.py] *)

Module TrainModel.
Import Config Store.

Definition FEATURE_ORDER : list string :=
  ["age"; "sex"; "cp"; "trestbps"; "chol"; "fbs"; "restecg"; "thalach";
   "exang"; "oldpeak"; "slope"; "ca"; "thal"].

(** The divisor [1 + exp(..)] is above 1, so this division cannot raise. *)
Definition sigmoid (value : R) : R :=
  let capped := py_max (py_min value 60) (-60) in
  1 / (1 + exp (- capped)).

(** [[entry[feature] for entry in rows]] *)
Fixpoint column (rows : list (gmap string R)) (feature : string)
  : res (list R) :=
  match rows with
  | [] => Ok []
  | entry :: rest =>
      v ← getitem entry feature;
      vs ← column rest feature;
      Ok (v :: vs)
  end.

(** One turn of the loop of [compute_scaling]. *)
Definition feature_scaling (rows : list (gmap string R)) (feature : string)
  : res (gmap string R) :=
  values ← column rows feature;
  mean ← truediv (py_sum values) (INR (length values));
  variance ← truediv (py_sum (map (λ value, (value - mean) ^ 2) values))
                     (INR (length values));
  root ← math_sqrt variance;
  let std := float_or root 1 in
  Ok {[ "mean" := mean; "std" := std ]}.

Fixpoint compute_scaling_loop (rows : list (gmap string R))
    (features : list string) (scaling : gmap string (gmap string R))
  : res (gmap string (gmap string R)) :=
  match features with
  | [] => Ok scaling
  | feature :: rest =>
      entry ← feature_scaling rows feature;
      compute_scaling_loop rows rest (<[feature := entry]> scaling)
  end.

Definition compute_scaling (rows : list (gmap string R))
  : res (gmap string (gmap string R)) :=
  compute_scaling_loop rows FEATURE_ORDER ∅.

(** The body of the comprehension of [scale_row]. *)
Definition scale_feature (row : gmap string R)
    (scaling : gmap string (gmap string R)) (feature : string) : res R :=
  value ← getitem row feature;
  params ← getitem scaling feature;
  mean ← getitem params "mean";
  params' ← getitem scaling feature;
  std ← getitem params' "std";
  truediv (value - mean) std.

Fixpoint scale_features (row : gmap string R)
    (scaling : gmap string (gmap string R)) (features : list string)
  : res (list R) :=
  match features with
  | [] => Ok []
  | feature :: rest =>
      v ← scale_feature row scaling feature;
      vs ← scale_features row scaling rest;
      Ok (v :: vs)
  end.

Definition scale_row (row : gmap string R)
    (scaling : gmap string (gmap string R)) : res (list R) :=
  scale_features row scaling FEATURE_ORDER.

Fixpoint scale_rows (rows : list (gmap string R))
    (scaling : gmap string (gmap string R)) : res (list (list R)) :=
  match rows with
  | [] => Ok []
  | row :: rest =>
      x ← scale_row row scaling;
      xs ← scale_rows rest scaling;
      Ok (x :: xs)
  end.

Definition build_design_matrix (rows : list (gmap string R))
    (scaling : gmap string (gmap string R))
  : res (list (list R) * list R) :=
  X ← scale_rows rows scaling;
  y ← column rows "target";
  Ok (X, y).

(** [summarize] inside [compute_feature_stats] *)
Definition summarize (rows : list (gmap string R)) (field : string)
  : res (gmap string R) :=
  unsorted ← column rows field;
  let values := sorted unsorted in
  let n := Z.of_nat (length values) in
  let idx10 := Z.max (py_int (10 / 100 * IZR n) - 1) 0 in
  let idx90 := Z.min (py_int (90 / 100 * IZR n)) (n - 1) in
  mean ← truediv (py_sum values) (IZR n);
  p10 ← index values idx10;
  p90 ← index values idx90;
  least ← index values 0;
  greatest ← index values (-1);
  Ok {[ "mean" := mean; "p10" := p10; "p90" := p90; "min" := least;
        "max" := greatest ]}.

(** The two summaries of [compute_feature_stats] that are constants. *)
Definition sugar_level_stats : gmap string R :=
  {[ "mean" := 99; "p10" := 70; "p90" := 125; "min" := 65; "max" := 180;
     "healthy_low" := 70; "healthy_high" := 99 ]}.

Definition calories_burned_stats : gmap string R :=
  {[ "mean" := 2000; "p10" := 1200; "p90" := 3500; "min" := 800;
     "max" := 4000; "healthy_low" := 1500; "healthy_high" := 3000 ]}.

Definition compute_feature_stats (rows : list (gmap string R))
  : res (gmap string (gmap string R)) :=
  bp ← summarize rows "trestbps";
  chol ← summarize rows "chol";
  hr ← summarize rows "thalach";
  st ← summarize rows "oldpeak";
  let stats : gmap string (gmap string R) :=
    {[ "bp_systolic" := <["healthy_high" := 120]> (<["healthy_low" := 90]> bp);
       "cholesterol" :=
         <["healthy_high" := 200]> (<["healthy_low" := 125]> chol);
       "max_heart_rate" :=
         <["healthy_high" := 170]> (<["healthy_low" := 90]> hr);
       "st_depression" := <["healthy_high" := 2]> (<["healthy_low" := 0]> st)
    ]} in
  let stats := <["sugar_level" := sugar_level_stats]> stats in
  let stats := <["calories_burned" := calories_burned_stats]> stats in
  Ok stats.

(** The divisor [total] is [sum or 1.0], so this division cannot raise. *)
Definition normalize_importance (weights : list R) : gmap string R :=
  let raw := dict_of_items (zip FEATURE_ORDER (map Rabs weights)) in
  let total := float_or (dict_values_sum raw) 1 in
  (λ value, value / total) <$> raw.

(** [persist_artifacts]: the three files are written in this order. *)
Definition persist_artifacts (settings : Settings)
    (model_payload : ModelDocument)
    (feature_stats : gmap string (gmap string R))
    (report : ReportDocument) (st : store) : store :=
  let st := <[model_path settings := ModelDoc model_payload]> st in
  let st := <[stats_path settings :=
                StatsDoc {| doc_feature_stats := Some feature_stats;
                            doc_top_level := ∅ |}]> st in
  <[report_path settings := ReportDoc report]> st.

(** The payload that [main] persists. *)
Definition model_payload (feature_order : list string) (weights : list R)
    (bias : R) (scaling : gmap string (gmap string R)) : ModelDocument :=
  {| doc_feature_order := Some feature_order; doc_weights := Some weights;
     doc_bias := Some bias; doc_scaling := Some scaling |}.

End TrainModel.

(** ** [backend/ml/predictor.py] *)

Module Predictor.
Import Config Store Schemas.

Definition CHEST_PAIN_MAPPING : gmap string Z :=
  {[ "typical_angina" := 1%Z; "atypical_angina" := 2%Z;
     "non_anginal" := 3%Z; "asymptomatic" := 4%Z ]}.
Definition REST_ECG_MAPPING : gmap string Z :=
  {[ "normal" := 0%Z; "st_t_abnormality" := 1%Z;
     "left_ventricular_hypertrophy" := 2%Z ]}.
Definition SLOPE_MAPPING : gmap string Z :=
  {[ "upsloping" := 1%Z; "flat" := 2%Z; "downsloping" := 3%Z ]}.
Definition THAL_MAPPING : gmap string Z :=
  {[ "normal" := 3%Z; "fixed_defect" := 6%Z; "reversible_defect" := 7%Z ]}.

Record HeartAttackPredictor : Type := {
  self_model_path : string;
  self_stats_path : string;
  self_report_path : string;
  feature_order : list string;
  weights : list R;
  bias : R;
  scaling : gmap string (gmap string R);
  _stats : gmap string (gmap string R);
  _feature_importance : gmap string R;
}.

(** [load_artifacts]: the fields are read in the order of the source, so the
    first missing key is the one reported.  When it raises, the object under
    construction is dropped, as it is when [__init__] raises. *)
Definition load_artifacts (self : HeartAttackPredictor) (st : store)
  : res HeartAttackPredictor :=
  match st !! self_model_path self with
  | None =>
      Raise (FileNotFoundError
               ("Model artifact missing at " +:+ self_model_path self))
  | Some model_file =>
  match st !! self_stats_path self with
  | None =>
      Raise (FileNotFoundError
               ("Feature stats missing at " +:+ self_stats_path self))
  | Some stats_file =>
      let payload := as_model model_file in
      fo ← from_option Ok (Raise (KeyError "feature_order"))
             (doc_feature_order payload);
      w ← from_option Ok (Raise (KeyError "weights")) (doc_weights payload);
      b ← from_option Ok (Raise (KeyError "bias")) (doc_bias payload);
      sc ← from_option Ok (Raise (KeyError "scaling")) (doc_scaling payload);
      let stats := as_feature_stats stats_file in
      let importance :=
        match st !! self_report_path self with
        | Some report_file => as_feature_importance report_file
        | None => ∅
        end in
      Ok {| self_model_path := self_model_path self;
            self_stats_path := self_stats_path self;
            self_report_path := self_report_path self;
            feature_order := fo; weights := w; bias := b; scaling := sc;
            _stats := stats; _feature_importance := importance |}
  end
  end.

(** [HeartAttackPredictor()] *)
Definition __init__ (settings : Settings) (st : store)
  : res HeartAttackPredictor :=
  load_artifacts
    {| self_model_path := model_path settings;
       self_stats_path := stats_path settings;
       self_report_path := report_path settings;
       feature_order := []; weights := []; bias := 0; scaling := ∅;
       _stats := ∅; _feature_importance := ∅ |} st.

(** The dict [row] of [_request_vector]. *)
Definition request_row (payload : HealthPredictionRequest)
  : res (gmap string R) :=
  cp ← getitem CHEST_PAIN_MAPPING
         (ChestPainEnum.value (chest_pain_type payload));
  restecg ← getitem REST_ECG_MAPPING (RestECGEnum.value (resting_ecg payload));
  slope_code ← getitem SLOPE_MAPPING (SlopeEnum.value (slope payload));
  thal ← getitem THAL_MAPPING (ThalEnum.value (thalassemia payload));
  Ok {[ "age" := IZR (age payload);
        "sex" := if decide (SexEnum.value (sex payload) = "male")
                 then 1 else 0;
        "cp" := IZR cp;
        "trestbps" := bp_systolic payload;
        "chol" := cholesterol payload;
        "fbs" := if decide (sugar_level payload >= 126) then 1 else 0;
        "restecg" := IZR restecg;
        "thalach" := max_heart_rate payload;
        "exang" := if exercise_angina payload then 1 else 0;
        "oldpeak" := st_depression payload;
        "slope" := IZR slope_code;
        "ca" := IZR (num_major_vessels payload);
        "thal" := IZR thal ]}.

(** One turn of the loop of [_request_vector]: [scaling.get(feature)] is
    [None] or a dict, and an empty dict is falsy too. *)
Definition vector_entry (scaling : gmap string (gmap string R))
    (row : gmap string R) (feature : string) : res R :=
  let stats := scaling !! feature in
  value ← getitem row feature;
  match stats with
  | Some params =>
      if dict_truthy params then
        mean ← getitem params "mean";
        std ← getitem params "std";
        truediv (value - mean) std
      else Ok value
  | None => Ok value
  end.

Fixpoint vector_loop (scaling : gmap string (gmap string R))
    (row : gmap string R) (features : list string) : res (list R) :=
  match features with
  | [] => Ok []
  | feature :: rest =>
      value ← vector_entry scaling row feature;
      vector ← vector_loop scaling row rest;
      Ok (value :: vector)
  end.

Definition _request_vector (self : HeartAttackPredictor)
    (payload : HealthPredictionRequest) : res (list R) :=
  row ← request_row payload;
  vector_loop (scaling self) row (feature_order self).

Definition _predict_probability (self : HeartAttackPredictor)
    (vector : list R) : R :=
  let score :=
    py_sum (zip_with (λ weight value, weight * value) (weights self) vector)
    + bias self in
  let capped := py_max (py_min score 60) (-60) in
  1 / (1 + exp (- capped)).

Definition _categorize_risk (probability : R) : string :=
  if decide (probability < 33 / 100) then "Low"
  else if decide (probability < 66 / 100) then "Moderate"
  else "High".

Definition chart_fields (payload : HealthPredictionRequest)
  : list (string * R) :=
  [("bp_systolic", bp_systolic payload);
   ("cholesterol", cholesterol payload);
   ("max_heart_rate", max_heart_rate payload);
   ("sugar_level", sugar_level payload)].

Fixpoint chart_loop (stats_map : gmap string (gmap string R))
    (fields : list (string * R)) : res (list ChartDatum) :=
  match fields with
  | [] => Ok []
  | (field, value) :: rest =>
      match stats_map !! field with
      | Some stats =>
          if dict_truthy stats then
            lo ← getitem stats "healthy_low";
            hi ← getitem stats "healthy_high";
            avg ← getitem stats "mean";
            chart ← chart_loop stats_map rest;
            Ok ({| label := title (replace_underscore field);
                   user_value := value;
                   recommended := {| low := lo; high := hi |};
                   population_avg := avg |} :: chart)
          else chart_loop stats_map rest
      | None => chart_loop stats_map rest
      end
  end.

Definition _chart_data (self : HeartAttackPredictor)
    (payload : HealthPredictionRequest) : res (list ChartDatum) :=
  chart_loop (_stats self) (chart_fields payload).

Definition insight_blood_pressure : string :=
  "Blood pressure is above the 90th percentile of the dataset, indicating excess arterial strain.".
Definition insight_cholesterol : string :=
  "Cholesterol is significantly elevated compared to peers in the dataset.".
Definition insight_angina : string :=
  "Exercise-induced angina reported; schedule a stress test at the earliest.".
Definition insight_sugar : string :=
  "Fasting sugar indicates possible diabetes; coordinate with an endocrinologist.".
Definition insight_calories : string :=
  "Weekly calorie burn is below the recommended range; integrate moderate activity.".
Definition insight_none : string :=
  "Vitals fall inside the population averages; maintain the current lifestyle and monitoring cadence.".

Definition _insights (self : HeartAttackPredictor)
    (payload : HealthPredictionRequest) : list string :=
  let insights : list string := [] in
  let bp_stats := dict_get (_stats self) "bp_systolic" ∅ in
  let insights :=
    append_if
      (dict_truthy bp_stats
       && bool_decide (bp_systolic payload
                       > dict_get bp_stats "p90" (bp_systolic payload + 1)))
      insights insight_blood_pressure in
  let chol_stats := dict_get (_stats self) "cholesterol" ∅ in
  let insights :=
    append_if
      (dict_truthy chol_stats
       && bool_decide (cholesterol payload
                       > dict_get chol_stats "p90" (cholesterol payload + 1)))
      insights insight_cholesterol in
  let insights := append_if (exercise_angina payload) insights insight_angina in
  let insights :=
    append_if (bool_decide (sugar_level payload >= 126))
      insights insight_sugar in
  let insights :=
    append_if
      (bool_decide
         (calories_burned payload
          < dict_get (dict_get (_stats self) "calories_burned" ∅)
              "healthy_low" 1500))
      insights insight_calories in
  match insights with
  | [] => insights ++ [insight_none]
  | _ => insights
  end.

Definition recommend_log : string :=
  "Log BP, sugar, and symptoms daily to capture subtle drifts.".
Definition recommend_share : string :=
  "Share this summary with your cardiologist for medication alignment.".
Definition recommend_lipid : string :=
  "Book a complete lipid profile and stress ECG within the next 7 days.".
Definition recommend_nitrate : string :=
  "Keep sublingual nitrate handy and avoid strenuous workouts until cleared.".
Definition recommend_walk : string :=
  "Walk 30 minutes/day or follow physician-approved cardio rehab plan.".
Definition recommend_sugar : string :=
  "Bring fasting sugar under 110 mg/dL through diet, metformin, or both.".

Definition _recommendations (risk_category : string)
    (payload : HealthPredictionRequest) : list string :=
  let recommendations := [recommend_log; recommend_share] in
  let recommendations :=
    append_if (bool_decide (risk_category ≠ "Low"))
      (append_if (bool_decide (risk_category ≠ "Low"))
         recommendations recommend_lipid)
      recommend_nitrate in
  let recommendations :=
    append_if (bool_decide (calories_burned payload < 1500))
      recommendations recommend_walk in
  let recommendations :=
    append_if (bool_decide (sugar_level payload >= 126))
      recommendations recommend_sugar in
  recommendations.

Definition advisory_high : string :=
  "High myocardial infarction risk detected.".
Definition advisory_manageable : string :=
  "Risk is manageable with standard precautions.".

Definition predict (self : HeartAttackPredictor)
    (payload : HealthPredictionRequest) : res HealthPredictionResponse :=
  match weights self with
  | [] => Raise (RuntimeError "Model weights missing")
  | _ =>
      vector ← _request_vector self payload;
      let probability := _predict_probability self vector in
      let classification :=
        if decide (probability >= 1 / 2) then 1%Z else 0%Z in
      let risk_category := _categorize_risk probability in
      let risk_score := py_round2 (probability * 100) in
      let advisory :=
        if decide (risk_category = "High") then advisory_high
        else advisory_manageable in
      chart ← _chart_data self payload;
      let insights := _insights self payload in
      let recommendations := _recommendations risk_category payload in
      Ok {| resp_name := name payload;
            Schemas.risk_category := risk_category;
            Schemas.risk_score := risk_score;
            Schemas.probability := probability;
            Schemas.classification := classification;
            advisory_message := advisory;
            Schemas.chart := chart;
            key_insights := insights;
            feature_importance := _feature_importance self;
            recommended_actions := recommendations |}
  end.

End Predictor.

(** ** The logistic score on IEEE binary64 numbers

    [sigmoid] and [_predict_probability] once more, on the numbers Python
    computes with.  [math.exp] is the C library's function and is a
    parameter here. *)

Module Binary64.
Import PrimFloat.
Local Open Scope float_scope.

Definition py_max (a b : float) : float := if a <? b then b else a.
Definition py_min (a b : float) : float := if b <? a then b else a.

Definition sigmoid (exp : float → float) (value : float) : float :=
  let capped := py_max (py_min value 60) (-60) in
  1 / (1 + exp (- capped)).

Definition py_sum (xs : list float) : float := fold_left add xs 0.

Definition _predict_probability (exp : float → float) (weights : list float)
    (bias : float) (vector : list float) : float :=
  let score :=
    py_sum (zip_with (λ weight value, weight * value) weights vector) + bias in
  let capped := py_max (py_min score 60) (-60) in
  1 / (1 + exp (- capped)).

(** The binary64 number nearest to [e^-60], which [math.exp(-60.0)]
    returns: about [8.7565e-27], below half an ulp of [1.0]. *)
Definition exp_minus_60 : float := 0x1.5ae191a99585ap-87.

End Binary64.

(** ** The notions the properties are stated with *)

Module Spec.
Import Schemas TrainModel Predictor.

(** A row with every feature of [FEATURE_ORDER]. *)
Definition complete_row (row : gmap string R) : Prop :=
  ∀ feature, feature ∈ FEATURE_ORDER → is_Some (row !! feature).

(** The mean and the population standard deviation of a column, and the
    entry that [compute_scaling] is to write for it. *)
Definition population_mean (values : list R) : R :=
  py_sum values / INR (length values).

Definition population_variance (values : list R) : R :=
  py_sum (map (λ value, (value - population_mean values) ^ 2) values)
  / INR (length values).

Definition floored_std (values : list R) : R :=
  if decide (sqrt (population_variance values) = 0) then 1
  else sqrt (population_variance values).

(** An entry that [compute_scaling] writes for a feature. *)
Definition scaling_entry (rows : list (gmap string R)) (feature : string)
    (params : gmap string R) : Prop :=
  ∃ values,
    column rows feature = Ok values ∧
    params
    = {[ "mean" := population_mean values; "std" := floored_std values ]}.

(** A loaded state that [predict] can serve: weights are present, the
    feature order names known features, every scaling entry in use has a
    mean and a non-zero std, and every chart summary in use has its three
    keys. *)
Definition well_formed (self : HeartAttackPredictor) : Prop :=
  weights self ≠ [] ∧
  (∀ feature, feature ∈ feature_order self →
     feature ∈ TrainModel.FEATURE_ORDER) ∧
  (∀ feature params,
     feature ∈ feature_order self →
     scaling self !! feature = Some params → params ≠ ∅ →
     ∃ mean std,
       params !! "mean" = Some mean ∧ params !! "std" = Some std ∧ std ≠ 0) ∧
  (∀ field stats,
     field ∈ ["bp_systolic"; "cholesterol"; "max_heart_rate"; "sugar_level"] →
     _stats self !! field = Some stats → stats ≠ ∅ →
     is_Some (stats !! "healthy_low") ∧ is_Some (stats !! "healthy_high")
     ∧ is_Some (stats !! "mean")).

(** The healthy-low bound that [_insights] compares the calorie burn with. *)
Definition calories_healthy_low (self : HeartAttackPredictor) : R :=
  dict_get (dict_get (_stats self) "calories_burned" ∅) "healthy_low" 1500.

End Spec.

(** ** Scenarios *)

Module Scenarios.
Import Config Store Schemas Predictor.

(** The toy artifact of the specification: one feature, [age], with mean 50
    and std 10; no feature stats and no report. *)
Definition toy_predictor : HeartAttackPredictor := {|
  self_model_path := model_path default_settings;
  self_stats_path := stats_path default_settings;
  self_report_path := report_path default_settings;
  feature_order := ["age"];
  weights := [1];
  bias := 0;
  scaling := {[ "age" := {[ "mean" := 50; "std" := 10 ]} ]};
  _stats := ∅;
  _feature_importance := ∅;
|}.

(** A request with the given fasting sugar and calorie burn. *)
Definition request_with (sugar calories : R) : HealthPredictionRequest := {|
  name := "Asha";
  age := 50;
  sex := SexEnum.female;
  chest_pain_type := ChestPainEnum.non_anginal;
  bp_systolic := 118;
  bp_diastolic := 76;
  cholesterol := 180;
  sugar_level := sugar;
  calories_burned := calories;
  max_heart_rate := 150;
  resting_ecg := RestECGEnum.normal;
  exercise_angina := false;
  st_depression := 0;
  slope := SlopeEnum.up;
  num_major_vessels := 0;
  thalassemia := ThalEnum.normal;
  fasting_hours := 8;
  smoker := false;
  diabetic := false;
  emergency_contacts := [];
  notes := None;
|}.

Definition sample_request : HealthPredictionRequest := request_with 92 2200.


(** The same patient with a fasting sugar of 130. *)
Definition diabetic_request : HealthPredictionRequest :=
  request_with 130 2200.

(** The toy artifact served with a stats file whose healthy-low bound for
    calories is 2000. *)
Definition active_norm_predictor : HeartAttackPredictor := {|
  self_model_path := model_path default_settings;
  self_stats_path := stats_path default_settings;
  self_report_path := report_path default_settings;
  feature_order := ["age"];
  weights := [1];
  bias := 0;
  scaling := {[ "age" := {[ "mean" := 50; "std" := 10 ]} ]};
  _stats := {[ "calories_burned" := {[ "healthy_low" := 2000 ]} ]};
  _feature_importance := ∅;
|}.

(** An artifact whose only feature is [fbs], scaled with mean 0 and std 2. *)
Definition fbs_predictor : HeartAttackPredictor := {|
  self_model_path := model_path default_settings;
  self_stats_path := stats_path default_settings;
  self_report_path := report_path default_settings;
  feature_order := ["fbs"];
  weights := [1];
  bias := 0;
  scaling := {[ "fbs" := {[ "mean" := 0; "std" := 2 ]} ]};
  _stats := ∅;
  _feature_importance := ∅;
|}.

(** A clinical record with every feature and its target. *)
Definition clinical_row : gmap string R :=
  <["target" := 0]>
    {[ "age" := 63; "sex" := 1; "cp" := 1; "trestbps" := 145; "chol" := 233;
       "fbs" := 1; "restecg" := 2; "thalach" := 150; "exang" := 0;
       "oldpeak" := 23 / 10; "slope" := 3; "ca" := 0; "thal" := 6 ]}.

(** A file system whose model file lists two features and one weight. *)
Definition mismatched_store : store :=
  {[ model_path default_settings :=
       ModelDoc (TrainModel.model_payload ["age"; "sex"] [1] 0 ∅);
     stats_path default_settings :=
       StatsDoc {| doc_feature_stats := Some ∅; doc_top_level := ∅ |} ]}.

(** A report as [main] builds it. *)
Definition sample_report : ReportDocument := {|
  doc_timestamp := "2024-01-01T00:00:00+00:00";
  doc_samples := 303;
  doc_train_samples := 242;
  doc_test_samples := 61;
  doc_accuracy := 85 / 100;
  doc_precision := 84 / 100;
  doc_recall := 80 / 100;
  doc_feature_importance := Some (TrainModel.normalize_importance [1]);
|}.

(** An artifact whose feature order names a feature the predictor does not
    build. *)
Definition unknown_feature_predictor : HeartAttackPredictor := {|
  self_model_path := model_path default_settings;
  self_stats_path := stats_path default_settings;
  self_report_path := report_path default_settings;
  feature_order := ["age"; "bmi"; "sex"];
  weights := [1; 1; 1];
  bias := 0;
  scaling := ∅;
  _stats := ∅;
  _feature_importance := ∅;
|}.

(** The toy artifact served with a stats file whose cholesterol summary has
    no healthy_high. *)
Definition partial_stats_predictor : HeartAttackPredictor := {|
  self_model_path := model_path default_settings;
  self_stats_path := stats_path default_settings;
  self_report_path := report_path default_settings;
  feature_order := ["age"];
  weights := [1];
  bias := 0;
  scaling := {[ "age" := {[ "mean" := 50; "std" := 10 ]} ]};
  _stats := {[ "cholesterol" := {[ "healthy_low" := 125; "mean" := 240 ]} ]};
  _feature_importance := ∅;
|}.

End Scenarios.

(** ** Further notions, for the properties of the rest of the code *)

Module Notions.
Import Schemas TrainModel Predictor.


(** A feature name that the loop of [_request_vector] can serve: the row has
    it, and its scaling entry, when there is a non-empty one, has a mean and
    a non-zero std. *)
Definition servable (sc : gmap string (gmap string R)) (feature : string)
  : Prop :=
  feature ∈ FEATURE_ORDER ∧
  ∀ params, sc !! feature = Some params → params ≠ ∅ →
    ∃ mean std,
      params !! "mean" = Some mean ∧ params !! "std" = Some std ∧ std ≠ 0.

(** The percentile rule of [_insights] for one summary: the summary is there
    and not empty, it has a p90, and the value is above it. *)
Definition above_p90 (stats_map : gmap string (gmap string R))
    (field : string) (value : R) : Prop :=
  ∃ stats p90,
    stats_map !! field = Some stats ∧ stats !! "p90" = Some p90 ∧ value > p90.

(** The five rule messages of [_insights], in the order of the source. *)
Definition rule_messages : list string :=
  [insight_blood_pressure; insight_cholesterol; insight_angina;
   insight_sugar; insight_calories].

(** The messages of the rules that fire, given which of them do. *)
Definition fired (c1 c2 c3 c4 c5 : bool) : list string :=
  append_if c5
    (append_if c4
       (append_if c3
          (append_if c2 (append_if c1 [] insight_blood_pressure)
             insight_cholesterol)
          insight_angina)
       insight_sugar)
    insight_calories.

(** A display field has a summary that [_chart_data] does not skip. *)
Definition has_summary (stats_map : gmap string (gmap string R))
    (field : string) : bool :=
  dict_truthy (dict_get stats_map field ∅).

(** The comparison point that [_chart_data] builds for a field from its
    summary. *)
Definition chart_point (stats_map : gmap string (gmap string R))
    (field : string) (value : R) (datum : ChartDatum) : Prop :=
  ∃ stats lo hi avg,
    stats_map !! field = Some stats ∧
    stats !! "healthy_low" = Some lo ∧ stats !! "healthy_high" = Some hi ∧
    stats !! "mean" = Some avg ∧
    datum = {| label := title (replace_underscore field);
               user_value := value;
               recommended := {| low := lo; high := hi |};
               population_avg := avg |}.

(** A display field that cannot make [_chart_data] raise: its summary is
    absent, empty, or has the three keys read from it. *)
Definition chart_ready (stats_map : gmap string (gmap string R))
    (field : string) : Prop :=
  ∀ stats, stats_map !! field = Some stats → stats ≠ ∅ →
    is_Some (stats !! "healthy_low") ∧ is_Some (stats !! "healthy_high")
    ∧ is_Some (stats !! "mean").

End Notions.

(** ** [backend/ml/train_model.py]: the dataset, the training loop, the
    evaluation and [main] *)

Module Training.
Import Config Store TrainModel.

(** *** [load_dataset] *)

(** A cell of the CSV file after [strip()]: the text ["?"], a text that
    [float] converts, or any other text.  A row is what [csv.DictReader]
    yields for a line with as many cells as the header: a dict from the
    column names to the cells. *)
Inductive cell : Type :=
  | Unknown
  | Number (x : R)
  | Malformed.

(** [float(value) if value != "?" else None] *)
Definition parse_feature (c : cell) : res (option R) :=
  match c with
  | Unknown => Ok None
  | Number x => Ok (Some x)
  | Malformed => Raise ValueError
  end.

(** [1.0 if float(target_val) >= 1 else 0.0] *)
Definition parse_target (c : cell) : res R :=
  match c with
  | Number x => Ok (if decide (x >= 1) then 1 else 0)
  | Unknown | Malformed => Raise ValueError
  end.

(** The inner loop of the reading loop. *)
Fixpoint read_features (row : gmap string cell) (features : list string)
    (record : gmap string (option R)) : res (gmap string (option R)) :=
  match features with
  | [] => Ok record
  | feature :: rest =>
      c ← getitem row feature;
      value ← parse_feature c;
      read_features row rest (<[feature := value]> record)
  end.

Definition read_record (row : gmap string cell)
  : res (gmap string (option R)) :=
  record ← read_features row FEATURE_ORDER ∅;
  c ← getitem row "target";
  target ← parse_target c;
  Ok (<["target" := Some target]> record).

Fixpoint read_rows (rows : list (gmap string cell))
  : res (list (gmap string (option R))) :=
  match rows with
  | [] => Ok []
  | row :: rest =>
      record ← read_record row;
      records ← read_rows rest;
      Ok (record :: records)
  end.

(** [[entry[feature] for entry in raw_rows if entry[feature] is not None]] *)
Fixpoint known_values (raw_rows : list (gmap string (option R)))
    (feature : string) : res (list R) :=
  match raw_rows with
  | [] => Ok []
  | entry :: rest =>
      value ← getitem entry feature;
      values ← known_values rest feature;
      Ok (match value with
          | Some x => x :: values
          | None => values
          end)
  end.

Fixpoint feature_means_loop (raw_rows : list (gmap string (option R)))
    (features : list string) (feature_means : gmap string R)
  : res (gmap string R) :=
  match features with
  | [] => Ok feature_means
  | feature :: rest =>
      values ← known_values raw_rows feature;
      mean ← truediv (py_sum values) (INR (length values));
      feature_means_loop raw_rows rest (<[feature := mean]> feature_means)
  end.

Fixpoint clean_features (entry : gmap string (option R))
    (feature_means : gmap string R) (features : list string)
    (cleaned : gmap string R) : res (gmap string R) :=
  match features with
  | [] => Ok cleaned
  | feature :: rest =>
      value ← getitem entry feature;
      filled ← match value with
               | Some x => Ok x
               | None => getitem feature_means feature
               end;
      clean_features entry feature_means rest (<[feature := filled]> cleaned)
  end.

(** [float(None)] raises a [TypeError], carried here as a message; the
    reading loop always stores a number under ["target"]. *)
Definition clean_entry (entry : gmap string (option R))
    (feature_means : gmap string R) : res (gmap string R) :=
  cleaned ← clean_features entry feature_means FEATURE_ORDER ∅;
  target ← getitem entry "target";
  match target with
  | Some t => Ok (<["target" := t]> cleaned)
  | None => Raise (RuntimeError "TypeError: float() argument is None")
  end.

Fixpoint clean_rows (raw_rows : list (gmap string (option R)))
    (feature_means : gmap string R) : res (list (gmap string R)) :=
  match raw_rows with
  | [] => Ok []
  | entry :: rest =>
      cleaned ← clean_entry entry feature_means;
      others ← clean_rows rest feature_means;
      Ok (cleaned :: others)
  end.

Definition load_dataset (csv : list (gmap string cell))
  : res (list (gmap string R)) :=
  raw_rows ← read_rows csv;
  feature_means ← feature_means_loop raw_rows FEATURE_ORDER ∅;
  clean_rows raw_rows feature_means.

(** *** [train_logistic_regression] *)

Definition feature_count : nat := length FEATURE_ORDER.

(** [l[idx]] for an index that is not negative. *)
Definition list_getitem (l : list R) (idx : nat) : res R :=
  match l !! idx with
  | Some x => Ok x
  | None => Raise IndexError
  end.

(** [sum(w * f for w, f in zip(weights, features)) + bias] *)
Definition score (weights features : list R) (bias : R) : R :=
  py_sum (zip_with (λ w f, w * f) weights features) + bias.

(** [for idx in range(feature_count): grad_w[idx] += diff * features[idx]] *)
Fixpoint accumulate (diff : R) (features grad_w : list R) (idxs : list nat)
  : res (list R) :=
  match idxs with
  | [] => Ok grad_w
  | idx :: rest =>
      g ← list_getitem grad_w idx;
      f ← list_getitem features idx;
      accumulate diff features (<[idx := g + diff * f]> grad_w) rest
  end.

(** The loop over the samples of one epoch. *)
Fixpoint gradients (weights : list R) (bias : R)
    (samples : list (list R * R)) (grad_w : list R) (grad_b : R)
  : res (list R * R) :=
  match samples with
  | [] => Ok (grad_w, grad_b)
  | (features, label) :: rest =>
      let pred := sigmoid (score weights features bias) in
      let diff := pred - label in
      grad_w' ← accumulate diff features grad_w (seq 0 feature_count);
      gradients weights bias rest grad_w' (grad_b + diff)
  end.

(** [for idx in range(feature_count): weights[idx] -= step * grad_w[idx]] *)
Fixpoint descend (step : R) (grad_w weights : list R) (idxs : list nat)
  : res (list R) :=
  match idxs with
  | [] => Ok weights
  | idx :: rest =>
      w ← list_getitem weights idx;
      g ← list_getitem grad_w idx;
      descend step grad_w (<[idx := w - step * g]> weights) rest
  end.

(** The variables that the loop over the epochs updates. *)
Record training_state : Type := {
  st_weights : list R;
  st_bias : R;
  st_lr : R;
}.

(** [if epoch % 750 == 0 and epoch: lr *= 0.9] *)
Definition decay (epoch : nat) (lr : R) : R :=
  if ((epoch mod 750 =? 0) && negb (epoch =? 0))%nat then lr * (9 / 10)
  else lr.

(** The body of the loop over the epochs. *)
Definition epoch_body (X : list (list R)) (y : list R) (s : training_state)
    (epoch : nat) : res training_state :=
  '(grad_w, grad_b) ← gradients (st_weights s) (st_bias s) (zip X y)
                        (replicate feature_count 0) 0;
  step ← truediv (st_lr s) (INR (length X));
  weights ← descend step grad_w (st_weights s) (seq 0 feature_count);
  Ok {| st_weights := weights;
        st_bias := st_bias s - step * grad_b;
        st_lr := decay epoch (st_lr s) |}.

Fixpoint epochs_loop (X : list (list R)) (y : list R) (s : training_state)
    (epochs : list nat) : res training_state :=
  match epochs with
  | [] => Ok s
  | epoch :: rest =>
      s' ← epoch_body X y s epoch;
      epochs_loop X y s' rest
  end.

Definition initial_state (lr : R) : training_state :=
  {| st_weights := replicate feature_count 0; st_bias := 0; st_lr := lr |}.

(** [range(epochs)] is empty for a negative [epochs]. *)
Definition train_logistic_regression (X : list (list R)) (y : list R)
    (epochs : Z) (lr : R) : res (list R * R) :=
  s ← epochs_loop X y (initial_state lr) (seq 0 (Z.to_nat epochs));
  Ok (st_weights s, st_bias s).

Definition default_epochs : Z := 4500.
Definition default_lr : R := 45 / 1000.

(** *** [evaluate_model] *)

(** [sum] of a list of ints. *)
Definition int_sum (xs : list Z) : Z := fold_left Z.add xs 0%Z.

(** [1 if sigmoid(score) >= 0.5 else 0] *)
Definition predicted_class (weights : list R) (bias : R) (features : list R)
  : Z :=
  if decide (sigmoid (score weights features bias) >= 1 / 2) then 1%Z
  else 0%Z.

(** [int(pred == label)], an int compared with a float. *)
Definition agree (pred : Z) (label : R) : Z :=
  if decide (IZR pred = label) then 1%Z else 0%Z.

(** [1 for pred, label in zip(..) if pred == 1 and label == 1] *)
Definition hits (predictions : list Z) (y : list R) : list Z :=
  omap (λ pl : Z * R,
          if decide (pl.1 = 1%Z) then
            if decide (pl.2 = 1) then Some 1%Z else None
          else None)
       (zip predictions y).

(** [1 for label in y if label == 1] *)
Definition positives (y : list R) : list Z :=
  omap (λ label : R, if decide (label = 1) then Some 1%Z else None) y.

(** [n / d if d else 0.0] on ints *)
Definition ratio_or_zero (n d : Z) : res R :=
  if decide (d = 0%Z) then Ok 0 else truediv (IZR n) (IZR d).

Definition evaluate_model (weights : list R) (bias : R) (X : list (list R))
    (y : list R) : res (R * R * R) :=
  let predictions := map (predicted_class weights bias) X in
  let correct := int_sum (zip_with agree predictions y) in
  accuracy ← truediv (IZR correct) (INR (length y));
  let true_positive := int_sum (hits predictions y) in
  let predicted_positive := int_sum predictions in
  let actual_positive := int_sum (positives y) in
  precision ← ratio_or_zero true_positive predicted_positive;
  recall ← ratio_or_zero true_positive actual_positive;
  Ok (accuracy, precision, recall).

(** *** [main] *)

(** [main], with what it takes from outside as arguments: the settings, the
    permutation that [random.Random(42).shuffle] applies, the time stamp,
    the dataset file when it exists, and the file system it writes to. *)
Definition main (settings : Settings)
    (shuffle : list (gmap string R) → list (gmap string R)) (now : string)
    (dataset : option (list (gmap string cell))) (st : store) : res store :=
  match dataset with
  | None =>
      Raise (FileNotFoundError
               ("Dataset not found at " +:+ dataset_path settings))
  | Some csv =>
      loaded ← load_dataset csv;
      let rows := shuffle loaded in
      scaling ← compute_scaling rows;
      '(X, y) ← build_design_matrix rows scaling;
      let split_idx := Z.to_nat (py_int (8 / 10 * INR (length rows))) in
      let X_train := take split_idx X in
      let X_test := drop split_idx X in
      let y_train := take split_idx y in
      let y_test := drop split_idx y in
      '(weights, bias) ← train_logistic_regression X_train y_train
                           default_epochs default_lr;
      '(accuracy, precision, recall) ← evaluate_model weights bias X_test
                                         y_test;
      feature_stats ← compute_feature_stats rows;
      let importance := normalize_importance weights in
      let payload := model_payload FEATURE_ORDER weights bias scaling in
      let report :=
        {| doc_timestamp := now;
           doc_samples := Z.of_nat (length rows);
           doc_train_samples := Z.of_nat (length X_train);
           doc_test_samples := Z.of_nat (length X_test);
           doc_accuracy := accuracy;
           doc_precision := precision;
           doc_recall := recall;
           doc_feature_importance := Some importance |} in
      Ok (persist_artifacts settings payload feature_stats report st)
  end.

(** *** Notions for the properties of the trainer *)

(** The number in a cell of a row, when the cell holds one. *)
Definition cell_number (row : gmap string cell) (feature : string)
  : option R :=
  match row !! feature with
  | Some (Number x) => Some x
  | _ => None
  end.

(** The numbers of a column of the CSV file, in the order of the rows. *)
Definition known_cells (csv : list (gmap string cell)) (feature : string)
  : list R :=
  omap (λ row, cell_number row feature) csv.

(** A row that the reading loop accepts: every feature cell is ["?"] or a
    number, and the target cell is a number. *)
Definition readable (row : gmap string cell) : Prop :=
  (∀ feature, feature ∈ FEATURE_ORDER →
     row !! feature = Some Unknown ∨ ∃ x, row !! feature = Some (Number x)) ∧
  ∃ t, row !! "target" = Some (Number t).

(** The learning rate in force after [n] turns of the loop over the epochs:
    one decay at each of the epochs 750, 1500, ... that have been run. *)
Definition lr_after (lr : R) (n : nat) : R :=
  lr * (9 / 10) ^ ((n - 1) / 750).

(** What [load_dataset] returns for one row of the file. *)
Definition cleaned_from (csv : list (gmap string cell))
    (raw : gmap string cell) (row : gmap string R) : Prop :=
  (∀ key, is_Some (row !! key) ↔ key ∈ FEATURE_ORDER ∨ key = "target") ∧
  (∃ t, raw !! "target" = Some (Number t) ∧
        row !! "target" = Some (if decide (t >= 1) then 1 else 0)) ∧
  (∀ feature, feature ∈ FEATURE_ORDER →
     (∃ x, raw !! feature = Some (Number x) ∧ row !! feature = Some x) ∨
     (raw !! feature = Some Unknown ∧ known_cells csv feature ≠ [] ∧
      row !! feature = Some (Spec.population_mean (known_cells csv feature)))).

(** A row of a CSV file with the given age cell and target, and a file of
    two rows, the second with an unknown age. *)
Definition csv_row (age_cell : cell) (target : R) : gmap string cell :=
  <["target" := Number target]>
    {[ "age" := age_cell; "sex" := Number 1; "cp" := Number 1;
       "trestbps" := Number 145; "chol" := Number 233; "fbs" := Number 1;
       "restecg" := Number 2; "thalach" := Number 150; "exang" := Number 0;
       "oldpeak" := Number (23 / 10); "slope" := Number 3; "ca" := Number 0;
       "thal" := Number 6 ]}.

Definition sample_csv : list (gmap string cell) :=
  [csv_row (Number 63) 0; csv_row Unknown 2].

(** What [summarize] returns for a column: the least and the greatest value,
    the mean, and two values of the column in between, the "p10" not above
    the "p90". *)
Definition summary_of (values : list R) (summary : gmap string R) : Prop :=
  ∃ lo p10 p90 hi,
    summary !! "min" = Some lo ∧ summary !! "p10" = Some p10 ∧
    summary !! "p90" = Some p90 ∧ summary !! "max" = Some hi ∧
    summary !! "mean" = Some (Spec.population_mean values) ∧
    lo ∈ values ∧ p10 ∈ values ∧ p90 ∈ values ∧ hi ∈ values ∧
    (∀ v, v ∈ values → lo <= v <= hi) ∧
    lo <= p10 <= p90 ∧ p90 <= hi ∧
    lo <= Spec.population_mean values <= hi.


(** A predictor serving other feature stats. *)
Definition with_stats (self : Predictor.HeartAttackPredictor)
    (stats : gmap string (gmap string R)) : Predictor.HeartAttackPredictor :=
  {| Predictor.self_model_path := Predictor.self_model_path self;
     Predictor.self_stats_path := Predictor.self_stats_path self;
     Predictor.self_report_path := Predictor.self_report_path self;
     Predictor.feature_order := Predictor.feature_order self;
     Predictor.weights := Predictor.weights self;
     Predictor.bias := Predictor.bias self;
     Predictor.scaling := Predictor.scaling self;
     Predictor._stats := stats;
     Predictor._feature_importance := Predictor._feature_importance self |}.

(** The gradient of the summed log-loss at the current weights and bias:
    the residual of a sample, and the partial derivatives by the weight of
    position [j] and by the bias. *)
Definition residual (weights : list R) (bias : R) (sample : list R * R) : R :=
  sigmoid (score weights sample.1 bias) - sample.2.

Definition gradient_w (weights : list R) (bias : R)
    (samples : list (list R * R)) (j : nat) : R :=
  py_sum (map (λ sample, residual weights bias sample
                         * default 0 (sample.1 !! j)) samples).

Definition gradient_b (weights : list R) (bias : R)
    (samples : list (list R * R)) : R :=
  py_sum (map (residual weights bias) samples).

(** A design matrix of one row, whose first feature is 0, with its label. *)
Definition one_row_matrix : list (list R) := [0 :: replicate 12 1].
Definition one_row_labels : list R := [1].

End Training.

(** ** Contact lists and the emergency dispatcher: [backend/utils/config.py],
    [backend/api/schemas.py] and [backend/services/emergency.py] *)

Module Contacts.

(** *** [str.strip], [str.split] and [str.join]

    A [string] stands for the Python text with the same code points, all of
    them below 256. *)

(** The code points below 256 that [str.strip] takes for white space: tab to
    carriage return, the four separators 28 to 31, the space, the next-line
    control 133 and the no-break space 160. *)
Definition is_space (c : Ascii.ascii) : bool :=
  let n := Ascii.nat_of_ascii c in
  ((9 <=? n) && (n <=? 13) || (28 <=? n) && (n <=? 32)
   || (n =? 133) || (n =? 160))%nat.

Fixpoint lstrip_chars (cs : list Ascii.ascii) : list Ascii.ascii :=
  match cs with
  | [] => []
  | c :: rest => if is_space c then lstrip_chars rest else cs
  end.

Fixpoint rstrip_chars (cs : list Ascii.ascii) : list Ascii.ascii :=
  match cs with
  | [] => []
  | c :: rest =>
      match rstrip_chars rest with
      | [] => if is_space c then [] else [c]
      | kept => c :: kept
      end
  end.

Definition strip_chars (cs : list Ascii.ascii) : list Ascii.ascii :=
  rstrip_chars (lstrip_chars cs).

(** [s.strip()] *)
Definition strip (s : string) : string :=
  String.string_of_list_ascii (strip_chars (String.list_ascii_of_string s)).

(** The pieces between the occurrences of a separator character; there is
    always at least one piece. *)
Fixpoint split_on (sep : Ascii.ascii) (cs : list Ascii.ascii)
  : list (list Ascii.ascii) :=
  match cs with
  | [] => [[]]
  | c :: rest =>
      if Ascii.eqb c sep then [] :: split_on sep rest
      else match split_on sep rest with
           | piece :: pieces => (c :: piece) :: pieces
           | [] => [[c]]
           end
  end.

Fixpoint join_chars (sep : Ascii.ascii) (pieces : list (list Ascii.ascii))
  : list Ascii.ascii :=
  match pieces with
  | [] => []
  | [piece] => piece
  | piece :: rest => piece ++ sep :: join_chars sep rest
  end.

Definition comma : Ascii.ascii := ","%char.

(** [s.split(",")] and [",".join(items)] *)
Definition split_commas (s : string) : list string :=
  String.string_of_list_ascii
    <$> split_on comma (String.list_ascii_of_string s).

Definition join_commas (items : list string) : string :=
  String.string_of_list_ascii
    (join_chars comma (String.list_ascii_of_string <$> items)).

(** [[item.strip() for item in raw.split(",") if item.strip()]] *)
Definition comma_items (raw : string) : list string :=
  strip <$> filter (λ item, strip item ≠ "") (split_commas raw).

(** *** [_read_list] of the configuration *)

(** [_read_list(name, fallback)], given the value of the environment variable
    when it is set. *)
Definition _read_list (env : option string) (fallback : option string)
  : list string :=
  let raw :=
    match env with
    | Some value => value
    | None =>
        match fallback with
        | Some text => if decide (text = "") then "" else text
        | None => ""
        end
    end in
  if decide (raw = "") then [] else comma_items raw.

(** *** [_list] of the request schemas *)

(** The values that reach [_list]: [None], a list (given by the [str] of its
    items), or any other value (given by its [str]). *)
Inductive contacts_value : Type :=
  | NoValue
  | ListValue (items : list string)
  | TextValue (text : string).

Definition _list (value : contacts_value) : list string :=
  match value with
  | NoValue => []
  | ListValue items => filter (λ item, strip item ≠ "") items
  | TextValue text => comma_items text
  end.

(** *** [EmergencyDispatcher] *)

(** The settings that the dispatcher reads. *)
Record DispatcherSettings : Type := {
  twilio_account_sid : option string;
  twilio_auth_token : option string;
  twilio_from_number : option string;
  emergency_primary_number : option string;
  emergency_contacts : list string;
}.

(** Truth value of an optional string: [None] and [""] are falsy. *)
Definition truthy (o : option string) : bool :=
  match o with
  | Some s => bool_decide (s ≠ "")
  | None => false
  end.

(** A request made to the Twilio client: the text or script, the sender and
    the recipient. *)
Record request : Type := {
  req_content : string;
  req_from : option string;
  req_to : string;
}.

(** What [create] does with a request: it returns, it raises
    [TwilioRestException], or it raises something else. *)
Inductive outcome : Type :=
  | Created
  | Rejected
  | Crashed (e : exn).

(** The Twilio client, by the outcome of [messages.create] and of
    [calls.create] for each request. *)
Record Client : Type := {
  messages_create : request → outcome;
  calls_create : request → outcome;
}.

Record EmergencyDispatcher : Type := {
  settings : DispatcherSettings;
  _client : option Client;
}.

(** [_create_client], given the client that [Client(sid, token)] builds. *)
Definition _create_client (s : DispatcherSettings) (connect : Client)
  : option Client :=
  if truthy (twilio_account_sid s) && truthy (twilio_auth_token s)
     && truthy (twilio_from_number s)
  then Some connect else None.

Definition __init__ (s : DispatcherSettings) (connect : Client)
  : EmergencyDispatcher :=
  {| settings := s; _client := _create_client s connect |}.

Definition is_configured (self : EmergencyDispatcher) : bool :=
  bool_decide (is_Some (_client self)).

(** The list that the loop of [_resolve_recipients] goes through. *)
Definition candidates (s : DispatcherSettings)
    (extra_contacts : option (list string)) : list string :=
  emergency_contacts s
  ++ (if truthy (emergency_primary_number s)
      then option_list (emergency_primary_number s) else [])
  ++ match extra_contacts with
     | Some (number :: rest) => number :: rest
     | _ => []
     end.

Fixpoint resolve_loop (recipients : list string) (seen : gset string)
    (filtered : list string) : list string :=
  match recipients with
  | [] => filtered
  | number :: rest =>
      if decide (number = "") then resolve_loop rest seen filtered
      else
        let normalized := strip number in
        if decide (normalized ≠ "" ∧ normalized ∉ seen)
        then resolve_loop rest ({[normalized]} ∪ seen)
               (filtered ++ [normalized])
        else resolve_loop rest seen filtered
  end.

Definition _resolve_recipients (self : EmergencyDispatcher)
    (extra_contacts : option (list string)) : list string :=
  resolve_loop (candidates (settings self) extra_contacts) ∅ [].

Definition request_to (content : string) (sender : option string)
    (number : string) : request :=
  {| req_content := content; req_from := sender; req_to := number |}.

(** The loop over the recipients of [send_sms_alert] and of
    [place_phone_call]: what the method returns or raises, and the requests
    made. *)
Fixpoint dispatch_loop (create : request → outcome) (content : string)
    (sender : option string) (recipients : list string)
    (served : list string) (requests : list request)
  : res (list string) * list request :=
  match recipients with
  | [] => (Ok served, requests)
  | number :: rest =>
      let r := request_to content sender number in
      match create r with
      | Created =>
          dispatch_loop create content sender rest (served ++ [number])
            (requests ++ [r])
      | Rejected =>
          dispatch_loop create content sender rest served (requests ++ [r])
      | Crashed e => (Raise e, requests ++ [r])
      end
  end.

(** What follows the resolution of the recipients, in both methods. *)
Definition dispatch (self : EmergencyDispatcher)
    (create : Client → request → outcome) (content : string)
    (recipients : list string) : res (list string) * list request :=
  match recipients with
  | [] => (Ok [], [])
  | _ =>
      match _client self with
      | None => (Ok recipients, [])
      | Some client =>
          dispatch_loop (create client) content
            (twilio_from_number (settings self)) recipients [] []
      end
  end.

Section rendering.

(** [str] of a float, as the f-strings apply it. *)
Variable float_str : R → string.

Definition newline : string := String (Ascii.ascii_of_nat 10) "".

Definition _format_location_link (latitude longitude : option R) : string :=
  match latitude, longitude with
  | Some lat, Some long =>
      "https://www.google.com/maps?q=" +:+ float_str lat +:+ ","
      +:+ float_str long
  | _, _ => "Location unavailable"
  end.

(** [", ".join(f"{k}: {v}" for k, v in vitals.items() if v is not None)] *)
Fixpoint vitals_summary (vitals : list (string * option string)) : string :=
  match vitals with
  | [] => ""
  | (k, Some v) :: rest =>
      match vitals_summary rest with
      | EmptyString => k +:+ ": " +:+ v
      | others => k +:+ ": " +:+ v +:+ ", " +:+ others
      end
  | (_, None) :: rest => vitals_summary rest
  end.

Definition _build_sms_body (message : string)
    (vitals : list (string * option string)) (latitude longitude : option R)
  : string :=
  message +:+ newline +:+ "Vitals -> " +:+ vitals_summary vitals +:+ newline
  +:+ "Location -> " +:+ _format_location_link latitude longitude.

Definition send_sms_alert (self : EmergencyDispatcher) (reason : string)
    (vitals : list (string * option string)) (latitude longitude : option R)
    (contacts : option (list string))
  : res (list string) * list request :=
  dispatch self messages_create
    (_build_sms_body reason vitals latitude longitude)
    (_resolve_recipients self contacts).

Definition call_script (voice_message : string)
    (latitude longitude : option R) : string :=
  "<Response>" +:+ "<Say voice='alice'>" +:+ voice_message +:+ "</Say>"
  +:+ "<Pause length='1'/>" +:+ "<Say>Location link "
  +:+ _format_location_link latitude longitude +:+ "</Say>"
  +:+ "</Response>".

Definition place_phone_call (self : EmergencyDispatcher)
    (voice_message : string) (latitude longitude : option R)
    (contacts : option (list string))
  : res (list string) * list request :=
  dispatch self calls_create (call_script voice_message latitude longitude)
    (_resolve_recipients self contacts).

End rendering.

(** *** Notions for the properties of the contact lists *)

(** A contact as the dispatcher keeps it: not empty, and without white
    space at either end. *)
Definition clean (number : string) : Prop :=
  number ≠ "" ∧ strip number = number.

(** A text without a comma. *)
Definition comma_free (item : string) : Prop :=
  comma ∉ String.list_ascii_of_string item.

Definition created (o : outcome) : bool :=
  match o with Created => true | _ => false end.

Definition survives (o : outcome) : Prop := ∀ e, o ≠ Crashed e.

(** The report of a delivery through the client: when no request crashes,
    one request per recipient, in order, and the recipients whose request
    was created; otherwise the exception of the first request that crashes,
    which is the last one made. *)
Definition delivery_report (create : request → outcome) (content : string)
    (sender : option string) (recipients : list string)
    (result : res (list string) * list request) : Prop :=
  let attempt number := create (request_to content sender number) in
  match result.1 with
  | Ok served =>
      served = filter (λ number, created (attempt number) = true) recipients ∧
      result.2 = request_to content sender <$> recipients ∧
      Forall (λ number, survives (attempt number)) recipients
  | Raise e =>
      ∃ before number after,
        recipients = before ++ number :: after ∧
        Forall (λ number, survives (attempt number)) before ∧
        attempt number = Crashed e ∧
        result.2 = request_to content sender <$> (before ++ [number])
  end.

(** Settings with two contacts, for given credentials and primary number;
    a client that accepts only the requests to one number. *)
Definition sample_settings (credentials primary : option string)
  : DispatcherSettings :=
  {| twilio_account_sid := credentials; twilio_auth_token := credentials;
     twilio_from_number := credentials;
     emergency_primary_number := primary;
     emergency_contacts := ["+15550100"; "+15550111"] |}.

Definition picky_client (accepted : string) : Client :=
  {| messages_create :=
       λ r, if decide (req_to r = accepted) then Created else Rejected;
     calls_create :=
       λ r, if decide (req_to r = accepted) then Created else Rejected |}.

End Contacts.

(** * Properties *)

(** ** The result monad and the primitives *)

Lemma bind_Ok {A B} (m : res A) (f : A → res B) (b : B) :
  m ≫= f = Ok b ↔ ∃ a, m = Ok a ∧ f a = Ok b.
Proof.
  destruct m as [a|e]; simpl; split.
  - intros H. exists a. auto.
  - intros (a' & [= <-] & H). exact H.
  - intros [=].
  - intros (a' & [=] & _).
Qed.

Lemma bind_ret {A B} (a : A) (f : A → res B) : Ok a ≫= f = f a.
Proof. reflexivity. Qed.

Lemma getitem_Ok {V} (d : gmap string V) (k : string) (v : V) :
  getitem d k = Ok v ↔ d !! k = Some v.
Proof.
  unfold getitem. destruct (d !! k); split; intros [=]; subst; reflexivity.
Qed.

Lemma truediv_Ok (x y q : R) : truediv x y = Ok q ↔ y ≠ 0 ∧ q = x / y.
Proof.
  unfold truediv. destruct (decide (y = 0)); split.
  - intros [=].
  - intros [? _]. contradiction.
  - intros [= <-]. auto.
  - intros [_ ->]. reflexivity.
Qed.

Lemma truediv_nonzero (x y : R) : y ≠ 0 → truediv x y = Ok (x / y).
Proof. intros H. apply truediv_Ok. auto. Qed.

Lemma float_or_nonzero (x : R) : float_or x 1 ≠ 0.
Proof. unfold float_or. destruct (decide (x = 0)); [lra | assumption]. Qed.

Lemma dict_truthy_true {V} (d : gmap string V) :
  dict_truthy d = true ↔ d ≠ ∅.
Proof.
  unfold dict_truthy. rewrite negb_true_iff, bool_decide_eq_false. tauto.
Qed.

(** The chart labels: [field.replace("_", " ").title()]. *)
Example chart_labels :
  map (λ field, title (replace_underscore field))
    ["bp_systolic"; "cholesterol"; "max_heart_rate"; "sugar_level"]
  = ["Bp Systolic"; "Cholesterol"; "Max Heart Rate"; "Sugar Level"].
Proof. reflexivity. Qed.

(** Evaluate the lookups of literal dicts in the goal. *)
Ltac eval_lookups :=
  repeat match goal with
  | |- context [ @lookup string ?V (gmap string ?V) _ ?k ?m ] =>
      let H := fresh in
      first [ assert (H : m !! k = None) by reflexivity
            | eassert (H : m !! k = Some _) by reflexivity ];
      rewrite H; clear H
  end.

(** Evaluate the truth value of literal dicts in the goal. *)
Ltac eval_truthy :=
  repeat match goal with
  | |- context [ dict_truthy ?m ] =>
      first [ replace (dict_truthy m) with true by reflexivity
            | replace (dict_truthy m) with false by reflexivity ]
  end.

(** Settle the comparisons of literal numbers in the goal. *)
Ltac eval_compare :=
  repeat match goal with
  | |- context [ decide ?P ] =>
      first [ rewrite (decide_True (P := P)) by lra
            | rewrite (decide_False (P := P)) by lra ]
  | |- context [ bool_decide ?P ] =>
      first [ rewrite (bool_decide_eq_true_2 P) by lra
            | rewrite (bool_decide_eq_false_2 P) by lra ]
  end.

Lemma capped_range (score : R) :
  -60 <= py_max (py_min score 60) (-60) <= 60.
Proof.
  unfold py_max, py_min.
  destruct (decide (60 < score)); destruct (decide (-60 > _)); lra.
Qed.

Lemma exp_le (x y : R) : x <= y → exp x <= exp y.
Proof.
  intros [Hlt | ->]; [left; apply exp_increasing; exact Hlt | right; reflexivity].
Qed.

(** The logistic function of a score between [-60] and [60]. *)
Lemma logistic_bounds (c : R) :
  -60 <= c <= 60 →
  1 / (1 + exp 60) <= 1 / (1 + exp (- c)) <= 1 / (1 + exp (- 60)).
Proof.
  intros [Hlo Hhi].
  assert (He1 : exp (- c) <= exp 60) by (apply exp_le; lra).
  assert (He2 : exp (- 60) <= exp (- c)) by (apply exp_le; lra).
  pose proof (exp_pos (- c)) as Hc.
  pose proof (exp_pos 60) as H60.
  pose proof (exp_pos (- 60)) as Hm60.
  unfold Rdiv. rewrite !Rmult_1_l.
  split; apply Rinv_le_contravar; lra.
Qed.

Lemma logistic_open (c : R) : 0 < 1 / (1 + exp (- c)) < 1.
Proof.
  pose proof (exp_pos (- c)) as Hc.
  split.
  - apply Rdiv_lt_0_compat; lra.
  - apply (Rmult_lt_reg_r (1 + exp (- c))); [lra |].
    unfold Rdiv. rewrite Rmult_assoc, Rinv_l by lra. lra.
Qed.

Module PredictorFacts.
Import Config Store Schemas Predictor Spec.

(** What [predict] returns, field by field. *)
Lemma predict_Ok (self : HeartAttackPredictor)
    (payload : HealthPredictionRequest) (r : HealthPredictionResponse) :
  predict self payload = Ok r →
  ∃ vector,
    _request_vector self payload = Ok vector ∧
    probability r = _predict_probability self vector ∧
    classification r
      = (if decide (probability r >= 1 / 2) then 1%Z else 0%Z) ∧
    risk_category r = _categorize_risk (probability r) ∧
    key_insights r = _insights self payload ∧
    recommended_actions r = _recommendations (risk_category r) payload.
Proof.
  unfold predict. destruct (weights self) as [|w ws]; [intros [=] |].
  intros H. apply bind_Ok in H as (vector & Hv & H).
  apply bind_Ok in H as (ch & _ & [= <-]). simpl.
  exists vector. repeat split; assumption || reflexivity.
Qed.

Lemma chest_pain_code (c : ChestPainEnum.t) :
  ∃ z, getitem CHEST_PAIN_MAPPING (ChestPainEnum.value c) = Ok z.
Proof. destruct c; eexists; reflexivity. Qed.

Lemma rest_ecg_code (c : RestECGEnum.t) :
  ∃ z, getitem REST_ECG_MAPPING (RestECGEnum.value c) = Ok z.
Proof. destruct c; eexists; reflexivity. Qed.

Lemma slope_code (c : SlopeEnum.t) :
  ∃ z, getitem SLOPE_MAPPING (SlopeEnum.value c) = Ok z.
Proof. destruct c; eexists; reflexivity. Qed.

Lemma thal_code (c : ThalEnum.t) :
  ∃ z, getitem THAL_MAPPING (ThalEnum.value c) = Ok z.
Proof. destruct c; eexists; reflexivity. Qed.

(** The enumerations are closed under the code tables: building the row never
    raises, and the row has the thirteen features. *)
Lemma request_row_Ok (payload : HealthPredictionRequest) :
  ∃ row,
    request_row payload = Ok row ∧
    (∀ feature, feature ∈ TrainModel.FEATURE_ORDER → is_Some (row !! feature)) ∧
    row !! "fbs"
      = Some (if decide (sugar_level payload >= 126) then 1 else 0) ∧
    row !! "age" = Some (IZR (age payload)).
Proof.
  unfold request_row.
  destruct (chest_pain_code (chest_pain_type payload)) as [cp ->].
  destruct (rest_ecg_code (resting_ecg payload)) as [ecg ->].
  destruct (slope_code (slope payload)) as [sl ->].
  destruct (thal_code (thalassemia payload)) as [th ->].
  simpl. eexists. split; [reflexivity |]. split; [| split; reflexivity].
  intros feature Hin. unfold TrainModel.FEATURE_ORDER in Hin.
  repeat (apply elem_of_cons in Hin as [-> | Hin]; [eexists; reflexivity |]).
  apply elem_of_nil in Hin. contradiction.
Qed.

Lemma vector_entry_Ok (sc : gmap string (gmap string R)) (row : gmap string R)
    (feature : string) :
  is_Some (row !! feature) →
  (∀ params, sc !! feature = Some params → params ≠ ∅ →
     ∃ mean std,
       params !! "mean" = Some mean ∧ params !! "std" = Some std ∧ std ≠ 0) →
  ∃ value, vector_entry sc row feature = Ok value.
Proof.
  intros [v Hv] Hsc. unfold vector_entry, getitem. rewrite Hv. simpl.
  destruct (sc !! feature) as [params|]; [| eauto].
  destruct (dict_truthy params) eqn:Ht; [| eauto].
  apply dict_truthy_true in Ht.
  destruct (Hsc params eq_refl Ht) as (mean & std & -> & -> & Hstd).
  simpl. rewrite (truediv_nonzero _ _ Hstd). eauto.
Qed.

Lemma vector_loop_Ok (sc : gmap string (gmap string R)) (row : gmap string R)
    (features : list string) :
  (∀ feature, feature ∈ features → is_Some (row !! feature)) →
  (∀ feature params, feature ∈ features →
     sc !! feature = Some params → params ≠ ∅ →
     ∃ mean std,
       params !! "mean" = Some mean ∧ params !! "std" = Some std ∧ std ≠ 0) →
  ∃ vector, vector_loop sc row features = Ok vector.
Proof.
  induction features as [|feature rest IH]; intros Hrow Hsc; simpl.
  - eauto.
  - destruct (vector_entry_Ok sc row feature) as [v ->].
    + apply Hrow. left.
    + intros params. apply Hsc. left.
    + destruct IH as [vs ->].
      * intros f Hf. apply Hrow. right. exact Hf.
      * intros f params Hf. apply Hsc. right. exact Hf.
      * simpl. eauto.
Qed.

Lemma chart_loop_Ok (stats_map : gmap string (gmap string R))
    (fields : list (string * R)) :
  (∀ field stats, field ∈ fields.*1 →
     stats_map !! field = Some stats → stats ≠ ∅ →
     is_Some (stats !! "healthy_low") ∧ is_Some (stats !! "healthy_high")
     ∧ is_Some (stats !! "mean")) →
  ∃ chart, chart_loop stats_map fields = Ok chart.
Proof.
  induction fields as [|[field value] rest IH]; intros Hst; simpl.
  - eauto.
  - assert (Hrest : ∃ chart, chart_loop stats_map rest = Ok chart).
    { apply IH. intros f st Hf. apply Hst. simpl. right. exact Hf. }
    destruct (stats_map !! field) as [stats|] eqn:Hf; [| exact Hrest].
    destruct (dict_truthy stats) eqn:Ht; [| exact Hrest].
    apply dict_truthy_true in Ht.
    destruct (Hst field stats) as ([lo Hlo] & [hi Hhi] & [avg Havg]);
      [simpl; left | exact Hf | exact Ht |].
    unfold getitem. rewrite Hlo, Hhi, Havg. simpl.
    destruct Hrest as [chart ->]. simpl. eauto.
Qed.

(** [predict] returns on every request once the state is well formed. *)
Lemma predict_total (self : HeartAttackPredictor)
    (payload : HealthPredictionRequest) :
  well_formed self → ∃ r, predict self payload = Ok r.
Proof.
  intros (Hw & Hfo & Hsc & Hst). unfold predict.
  destruct (weights self) as [|w ws]; [contradiction |].
  unfold _request_vector.
  destruct (request_row_Ok payload) as (row & -> & Hrow & _). simpl.
  destruct (vector_loop_Ok (scaling self) row (feature_order self))
    as [vector ->]; [auto | exact Hsc |].
  simpl. unfold _chart_data.
  destruct (chart_loop_Ok (_stats self) (chart_fields payload)) as [chart ->].
  - intros field stats Hin. apply Hst. exact Hin.
  - simpl. eauto.
Qed.

Lemma toy_predictor_well_formed : well_formed Scenarios.toy_predictor.
Proof.
  split; [| split; [| split]].
  - discriminate.
  - intros feature Hin. simpl in Hin. apply list_elem_of_singleton in Hin as ->.
    unfold TrainModel.FEATURE_ORDER. left.
  - intros feature params Hin. simpl in Hin.
    apply list_elem_of_singleton in Hin as ->.
    intros [= <-] _. exists 50, 10. repeat split; lra.
  - intros field stats _ Hlk. simpl in Hlk. rewrite lookup_empty in Hlk.
    discriminate.
Qed.



(** C2. The risk category is a function of the probability alone: Low on
    [0, 0.33), Moderate on [0.33, 0.66), High on [0.66, 1]; the category of
    a prediction result is that function of the result's probability. *)
Theorem risk_category_by_probability :
  (∀ p : R,
     (0 <= p < 33 / 100 → _categorize_risk p = "Low") ∧
     (33 / 100 <= p < 66 / 100 → _categorize_risk p = "Moderate") ∧
     (66 / 100 <= p <= 1 → _categorize_risk p = "High")) ∧
  (∀ self payload r,
     predict self payload = Ok r →
     risk_category r = _categorize_risk (probability r)).
Proof.
  split.
  - intros p. unfold _categorize_risk.
    repeat split; intros H; repeat case_decide; try reflexivity; lra.
  - intros self payload r Hr.
    destruct (predict_Ok self payload r Hr) as (_ & _ & _ & _ & Hcat & _).
    exact Hcat.
Qed.

Lemma risk_category_by_probability_witness :
  _categorize_risk (1 / 2) = "Moderate" ∧ _categorize_risk (1 / 4) = "Low"
  ∧ _categorize_risk (3 / 4) = "High".
Proof.
  destruct risk_category_by_probability as [Hbuckets _].
  split; [| split].
  - apply (Hbuckets (1 / 2)). lra.
  - apply (Hbuckets (1 / 4)). lra.
  - apply (Hbuckets (3 / 4)). lra.
Defined.

(** The predictor's inline formula is the trainer's [sigmoid] of the
    linear score. *)
Lemma predict_probability_sigmoid (self : HeartAttackPredictor)
    (vector : list R) :
  _predict_probability self vector
  = TrainModel.sigmoid
      (py_sum (zip_with (λ weight value, weight * value)
                 (weights self) vector) + bias self).
Proof. reflexivity. Qed.

(** C10, over the reals. [sigmoid] of any score, and so the probability of
    every prediction result, lies in the closed interval from 1/(1+e^60) to
    1/(1+e^-60), because the score is clamped to [-60, 60]; it is strictly
    between 0 and 1. *)
Theorem probability_interval :
  (∀ value : R,
     1 / (1 + exp 60) <= TrainModel.sigmoid value <= 1 / (1 + exp (- 60)) ∧
     0 < TrainModel.sigmoid value < 1) ∧
  (∀ self payload r,
     predict self payload = Ok r →
     1 / (1 + exp 60) <= probability r <= 1 / (1 + exp (- 60)) ∧
     0 < probability r < 1).
Proof.
  assert (Hsigmoid : ∀ value : R,
            1 / (1 + exp 60) <= TrainModel.sigmoid value
              <= 1 / (1 + exp (- 60)) ∧
            0 < TrainModel.sigmoid value < 1).
  { intros value. unfold TrainModel.sigmoid.
    split; [apply logistic_bounds, capped_range | apply logistic_open]. }
  split; [exact Hsigmoid |].
  intros self payload r Hr.
  destruct (predict_Ok self payload r Hr) as (vector & _ & Hp & _).
  rewrite Hp, predict_probability_sigmoid. apply Hsigmoid.
Qed.

(** The entry of the vector at a position is the entry computed for the
    feature at that position. *)
Lemma vector_loop_lookup (sc : gmap string (gmap string R))
    (row : gmap string R) (features : list string) (vector : list R)
    (i : nat) (feature : string) :
  vector_loop sc row features = Ok vector →
  features !! i = Some feature →
  ∃ value, vector_entry sc row feature = Ok value ∧ vector !! i = Some value.
Proof.
  revert vector i. induction features as [|f rest IH]; intros vector i Hloop Hi.
  - rewrite lookup_nil in Hi. discriminate.
  - simpl in Hloop. apply bind_Ok in Hloop as (v & Hv & Hloop).
    apply bind_Ok in Hloop as (vs & Hvs & [= <-]).
    destruct i as [|i]; simpl in Hi.
    + injection Hi as ->. exists v. split; [exact Hv | reflexivity].
    + destruct (IH vs i Hvs Hi) as (value & Hvalue & Hlk).
      exists value. split; [exact Hvalue | exact Hlk].
Qed.

Lemma request_row_fbs (payload : HealthPredictionRequest)
    (row : gmap string R) :
  request_row payload = Ok row →
  row !! "fbs" = Some (if decide (sugar_level payload >= 126) then 1 else 0).
Proof.
  intros Hrow. destruct (request_row_Ok payload) as (row' & Hrow' & _ & Hfbs & _).
  rewrite Hrow in Hrow'. injection Hrow' as ->. exact Hfbs.
Qed.

(** C6, as the code has it. The fasting-blood-sugar feature that enters the
    vector construction is 1 exactly when [sugar_level >= 126] and 0
    otherwise, whatever the other fields of the request; the entry of the
    vector is that value when the artifact has no scaling parameters for
    [fbs], and its z-score otherwise. *)
Theorem fbs_feature_from_sugar_level (self : HeartAttackPredictor)
    (payload : HealthPredictionRequest) (vector : list R) (i : nat) :
  _request_vector self payload = Ok vector →
  feature_order self !! i = Some "fbs" →
  let fbs := if decide (sugar_level payload >= 126) then 1 else 0 in
  (∃ row, request_row payload = Ok row ∧ row !! "fbs" = Some fbs) ∧
  (fbs = 1 ↔ sugar_level payload >= 126) ∧
  (fbs = 0 ↔ ¬ sugar_level payload >= 126) ∧
  (scaling self !! "fbs" = None ∨ scaling self !! "fbs" = Some ∅ →
   vector !! i = Some fbs) ∧
  (∀ params mean std,
     scaling self !! "fbs" = Some params →
     params !! "mean" = Some mean → params !! "std" = Some std →
     vector !! i = Some ((fbs - mean) / std)).
Proof.
  intros Hvec Hi fbs. unfold _request_vector in Hvec.
  apply bind_Ok in Hvec as (row & Hrow & Hloop).
  destruct (vector_loop_lookup _ _ _ _ _ _ Hloop Hi) as (value & Hentry & Hlk).
  pose proof (request_row_fbs payload row Hrow) as Hfbs. fold fbs in Hfbs.
  unfold vector_entry, getitem in Hentry. rewrite Hfbs in Hentry.
  simpl in Hentry.
  split; [| split; [| split; [| split]]].
  - exists row. split; [exact Hrow | exact Hfbs].
  - subst fbs. case_decide; split; intros; auto; lra.
  - subst fbs. case_decide; split; intros; auto; lra.
  - intros [Hnone | Hempty].
    + rewrite Hnone in Hentry. injection Hentry as <-. exact Hlk.
    + rewrite Hempty in Hentry. simpl in Hentry.
      injection Hentry as <-. exact Hlk.
  - intros params mean std Hsc Hmean Hstd. rewrite Hsc in Hentry.
    assert (Hne : dict_truthy params = true).
    { apply dict_truthy_true. intros ->. rewrite lookup_empty in Hmean.
      discriminate. }
    rewrite Hne, Hmean, Hstd in Hentry. simpl in Hentry.
    apply truediv_Ok in Hentry as [_ ->]. exact Hlk.
Qed.

Lemma fbs_predictor_vector :
  _request_vector Scenarios.fbs_predictor Scenarios.diabetic_request
  = Ok [1 / 2].
Proof.
  unfold _request_vector.
  destruct (request_row_Ok Scenarios.diabetic_request)
    as (row & Hrow & _ & Hfbs & _).
  rewrite Hrow. simpl. unfold vector_entry, getitem. rewrite Hfbs.
  simpl. eval_lookups. simpl. eval_lookups. simpl.
  unfold truediv. eval_compare. eval_truthy. simpl.
  do 2 f_equal. lra.
Qed.

Lemma fbs_feature_from_sugar_level_witness :
  [1 / 2] !! 0%nat = Some ((1 - 0) / 2).
Proof.
  destruct (fbs_feature_from_sugar_level Scenarios.fbs_predictor
              Scenarios.diabetic_request [1 / 2] 0%nat fbs_predictor_vector
              eq_refl) as (_ & _ & _ & _ & Hscaled).
  specialize (Hscaled {[ "mean" := 0; "std" := 2 ]} 0 2 eq_refl eq_refl
                eq_refl).
  simpl in Hscaled. rewrite decide_True in Hscaled by lra. exact Hscaled.
Defined.

(** C6 as stated fails: with sugar_level 130 and scaling mean 0, std 2 for
    [fbs], the entry of the constructed vector is 0.5, not 1.0. *)
Lemma fbs_entry_is_scaled :
  sugar_level Scenarios.diabetic_request >= 126 ∧
  ∃ vector value,
    _request_vector Scenarios.fbs_predictor Scenarios.diabetic_request
    = Ok vector ∧
    feature_order Scenarios.fbs_predictor !! 0%nat = Some "fbs" ∧
    vector !! 0%nat = Some value ∧ value ≠ 1.
Proof.
  split; [simpl; lra |].
  exists [1 / 2], (1 / 2). rewrite fbs_predictor_vector.
  repeat split. lra.
Qed.

Lemma elem_of_append_if {A} (c : bool) (l : list A) (x y : A) :
  y ∈ append_if c l x ↔ y ∈ l ∨ (c = true ∧ y = x).
Proof.
  unfold append_if. destruct c.
  - rewrite elem_of_app, list_elem_of_singleton. intuition.
  - intuition. discriminate.
Qed.

Lemma elem_of_or_fallback {A} (l : list A) (fallback y : A) :
  y ∈ match l with [] => l ++ [fallback] | _ => l end
  ↔ y ∈ l ∨ (l = [] ∧ y = fallback).
Proof.
  destruct l as [|a l]; simpl.
  - rewrite list_elem_of_singleton. split; [auto |].
    intros [H | [_ H]]; [apply elem_of_nil in H; contradiction | exact H].
  - split; [auto |]. intros [H | [H _]]; [exact H | discriminate H].
Qed.





Lemma compute_feature_stats_calories (rows : list (gmap string R))
    (stats : gmap string (gmap string R)) :
  TrainModel.compute_feature_stats rows = Ok stats →
  stats !! "calories_burned" = Some TrainModel.calories_burned_stats.
Proof.
  unfold TrainModel.compute_feature_stats. intros H.
  apply bind_Ok in H as (bp & _ & H). apply bind_Ok in H as (chol & _ & H).
  apply bind_Ok in H as (hr & _ & H). apply bind_Ok in H as (st & _ & H).
  injection H as <-. apply lookup_insert_eq.
Qed.




Lemma probability_interval_witness :
  ∃ r, predict Scenarios.toy_predictor Scenarios.sample_request = Ok r ∧
       0 < probability r < 1.
Proof.
  destruct (predict_total Scenarios.toy_predictor Scenarios.sample_request
              toy_predictor_well_formed) as [r Hr].
  exists r. split; [exact Hr |].
  destruct probability_interval as [_ Hpredict].
  apply (Hpredict Scenarios.toy_predictor Scenarios.sample_request r Hr).
Defined.

(** The scenario of the specification: the toy artifact and a request with
    age 50 give probability sigmoid(0) = 0.5, classification 1 and the
    category Moderate. *)
Lemma toy_scenario :
  ∃ r, predict Scenarios.toy_predictor Scenarios.sample_request = Ok r ∧
       probability r = 1 / 2 ∧ classification r = 1%Z ∧
       risk_category r = "Moderate".
Proof.
  destruct (predict_total Scenarios.toy_predictor Scenarios.sample_request
              toy_predictor_well_formed) as [r Hr].
  exists r. split; [exact Hr |].
  destruct (predict_Ok _ _ r Hr) as (vector & Hvec & Hp & Hc & Hcat & _).
  assert (Hvector : vector = [0]).
  { unfold _request_vector in Hvec.
    destruct (request_row_Ok Scenarios.sample_request)
      as (row & Hrow & _ & _ & Hage).
    rewrite Hrow, bind_ret in Hvec. simpl in Hvec.
    unfold vector_entry, getitem in Hvec. rewrite Hage in Hvec.
    simpl in Hvec. revert Hvec. eval_lookups. simpl. eval_truthy.
    eval_lookups. simpl. eval_lookups. simpl.
    unfold truediv. eval_compare. simpl. intros [= <-]. f_equal. lra. }
  assert (Hhalf : probability r = 1 / 2).
  { rewrite Hp, Hvector. unfold _predict_probability. simpl.
    unfold py_sum. simpl.
    replace (0 + 1 * 0 + 0) with 0 by lra.
    unfold py_min, py_max. eval_compare.
    rewrite Ropp_0, exp_0. lra. }
  split; [exact Hhalf |]. split.
  - rewrite Hc, Hhalf. eval_compare. reflexivity.
  - rewrite Hcat, Hhalf. unfold _categorize_risk. eval_compare. reflexivity.
Qed.

End PredictorFacts.

Module TrainModelFacts.
Import Config Store TrainModel Spec.

(** *** Sums *)

Lemma fold_left_Rplus_acc (xs : list R) (a : R) :
  fold_left Rplus xs a = a + py_sum xs.
Proof.
  unfold py_sum. revert a. induction xs as [|x xs IH]; intros a; simpl.
  - lra.
  - rewrite IH, (IH (0 + x)). lra.
Qed.

Lemma py_sum_cons (x : R) (xs : list R) : py_sum (x :: xs) = x + py_sum xs.
Proof. unfold py_sum at 1. simpl. rewrite fold_left_Rplus_acc. lra. Qed.

Lemma py_sum_nonneg (xs : list R) :
  Forall (λ x, 0 <= x) xs → 0 <= py_sum xs.
Proof.
  induction 1 as [|x xs Hx _ IH]; [unfold py_sum; simpl; lra |].
  rewrite py_sum_cons. lra.
Qed.

Lemma py_sum_zero (xs : list R) :
  Forall (λ x, 0 <= x) xs → py_sum xs = 0 → Forall (λ x, x = 0) xs.
Proof.
  induction 1 as [|x xs Hx Hxs IH]; [constructor |].
  rewrite py_sum_cons. intros Hsum.
  pose proof (py_sum_nonneg xs Hxs) as Hnn.
  constructor; [lra | apply IH; lra].
Qed.

Lemma dict_values_sum_empty : dict_values_sum ∅ = 0.
Proof. unfold dict_values_sum. apply map_fold_empty. Qed.

Lemma dict_values_sum_insert (d : gmap string R) (k : string) (v : R) :
  d !! k = None → dict_values_sum (<[k := v]> d) = dict_values_sum d + v.
Proof.
  intros Hk. unfold dict_values_sum.
  apply (map_fold_insert_L (λ _ v acc, acc + v)); [| exact Hk].
  intros. lra.
Qed.

Lemma dict_values_sum_scale (d : gmap string R) (total : R) :
  dict_values_sum ((λ value, value / total) <$> d)
  = dict_values_sum d / total.
Proof.
  induction d as [|k v d Hk IH] using map_ind.
  - rewrite fmap_empty, dict_values_sum_empty. lra.
  - rewrite fmap_insert, !dict_values_sum_insert, IH.
    + lra.
    + exact Hk.
    + rewrite lookup_fmap, Hk. reflexivity.
Qed.

Lemma dict_values_sum_nonneg (d : gmap string R) :
  (∀ k v, d !! k = Some v → 0 <= v) → 0 <= dict_values_sum d.
Proof.
  induction d as [|k v d Hk IH] using map_ind; intros Hnn.
  - rewrite dict_values_sum_empty. lra.
  - rewrite dict_values_sum_insert by exact Hk.
    assert (0 <= v) by (apply (Hnn k); apply lookup_insert_eq).
    assert (0 <= dict_values_sum d).
    { apply IH. intros k' v' Hk'. apply (Hnn k').
      rewrite lookup_insert_ne; [exact Hk' |]. intros ->. congruence. }
    lra.
Qed.

Lemma dict_values_sum_zero (d : gmap string R) :
  (∀ k v, d !! k = Some v → 0 <= v) → dict_values_sum d = 0 →
  ∀ k v, d !! k = Some v → v = 0.
Proof.
  induction d as [|k v d Hk IH] using map_ind; intros Hnn Hsum k' v' Hk'.
  - rewrite lookup_empty in Hk'. discriminate.
  - rewrite dict_values_sum_insert in Hsum by exact Hk.
    assert (Hv : 0 <= v) by (apply (Hnn k); apply lookup_insert_eq).
    assert (Hd : ∀ j x, d !! j = Some x → 0 <= x).
    { intros j x Hj. apply (Hnn j).
      rewrite lookup_insert_ne; [exact Hj |]. intros ->. congruence. }
    pose proof (dict_values_sum_nonneg d Hd) as Hsd.
    destruct (decide (k = k')) as [-> | Hne].
    + rewrite lookup_insert_eq in Hk'. injection Hk' as <-. lra.
    + rewrite lookup_insert_ne in Hk' by exact Hne.
      apply (IH Hd) with k'; [lra | exact Hk'].
Qed.

Lemma dict_values_sum_all_zero (d : gmap string R) :
  (∀ k v, d !! k = Some v → v = 0) → dict_values_sum d = 0.
Proof.
  induction d as [|k v d Hk IH] using map_ind; intros Hz.
  - apply dict_values_sum_empty.
  - rewrite dict_values_sum_insert by exact Hk.
    rewrite (Hz k v) by apply lookup_insert_eq.
    rewrite IH; [lra |]. intros k' v' Hk'. apply (Hz k').
    rewrite lookup_insert_ne; [exact Hk' |]. intros ->. congruence.
Qed.

(** *** Dicts built from item lists *)

Lemma dict_of_items_snoc {V} (items : list (string * V)) (k : string) (v : V) :
  dict_of_items (items ++ [(k, v)]) = <[k := v]> (dict_of_items items).
Proof. unfold dict_of_items. rewrite fold_left_app. reflexivity. Qed.

(** With distinct keys the dict is the map of the item list. *)
Lemma dict_of_items_list_to_map {V} (items : list (string * V)) :
  NoDup items.*1 → dict_of_items items = list_to_map items.
Proof.
  induction items as [|[k v] items IH] using rev_ind; intros Hnd.
  - reflexivity.
  - rewrite fmap_app in Hnd. apply NoDup_app in Hnd as (Hnd & Hfresh & _).
    rewrite dict_of_items_snoc, IH by exact Hnd.
    symmetry. apply list_to_map_snoc.
    intros Hin. apply (Hfresh k Hin). simpl. left.
Qed.

Lemma zip_fst_take {A B} (keys : list A) (vals : list B) :
  (zip keys vals).*1 = take (length vals) keys.
Proof.
  revert vals. induction keys as [|k keys IH]; intros [|v vals]; simpl;
    try reflexivity.
  - f_equal. apply IH.
Qed.

Lemma zip_snd_take {A B} (keys : list A) (vals : list B) :
  (zip keys vals).*2 = take (length keys) vals.
Proof.
  revert vals. induction keys as [|k keys IH]; intros [|v vals]; simpl;
    try reflexivity.
  - f_equal. apply IH.
Qed.

Lemma NoDup_zip_fst {A B} (keys : list A) (vals : list B) :
  NoDup keys → NoDup (zip keys vals).*1.
Proof.
  intros Hnd. rewrite zip_fst_take.
  eapply sublist_NoDup; [exact Hnd | apply sublist_take].
Qed.

Lemma list_to_map_values_sum (items : list (string * R)) :
  NoDup items.*1 → dict_values_sum (list_to_map items) = py_sum items.*2.
Proof.
  induction items as [|[k v] items IH]; intros Hnd; simpl.
  - apply dict_values_sum_empty.
  - apply NoDup_cons in Hnd as [Hk Hnd].
    rewrite dict_values_sum_insert, py_sum_cons, IH by
      (try apply not_elem_of_list_to_map; assumption).
    apply Rplus_comm.
Qed.

Lemma FEATURE_ORDER_NoDup : NoDup FEATURE_ORDER.
Proof. compute_done. Qed.

(** *** [normalize_importance] *)

Section normalize.
Variable weights : list R.

Let items := zip FEATURE_ORDER (map Rabs weights).
Let raw := dict_of_items items.
Let used := take (length FEATURE_ORDER) weights.

Lemma raw_list_to_map : raw = list_to_map items.
Proof.
  apply dict_of_items_list_to_map, NoDup_zip_fst, FEATURE_ORDER_NoDup.
Qed.

Lemma items_values : items.*2 = map Rabs used.
Proof.
  subst items used. rewrite zip_snd_take. symmetry. apply fmap_take.
Qed.

Lemma raw_nonneg (k : string) (v : R) : raw !! k = Some v → 0 <= v.
Proof.
  rewrite raw_list_to_map. intros Hk.
  apply elem_of_list_to_map in Hk;
    [| apply NoDup_zip_fst, FEATURE_ORDER_NoDup].
  apply elem_of_zip_r in Hk. apply list_elem_of_fmap in Hk as (w & -> & _).
  apply Rabs_pos.
Qed.

Lemma raw_sum : dict_values_sum raw = py_sum (map Rabs used).
Proof.
  rewrite raw_list_to_map, list_to_map_values_sum, items_values;
    [reflexivity | apply NoDup_zip_fst, FEATURE_ORDER_NoDup].
Qed.

Lemma raw_keys (k : string) :
  is_Some (raw !! k) ↔ k ∈ take (length weights) FEATURE_ORDER.
Proof.
  rewrite raw_list_to_map.
  rewrite <- (length_map Rabs weights), <- zip_fst_take. fold items.
  rewrite <- not_eq_None_Some, <- not_elem_of_list_to_map.
  destruct (decide (k ∈ items.*1)); tauto.
Qed.

Lemma raw_sum_zero_iff :
  dict_values_sum raw = 0 ↔ Forall (λ w, w = 0) used.
Proof.
  rewrite raw_sum. split.
  - intros Hsum. apply py_sum_zero in Hsum.
    + rewrite Forall_fmap in Hsum. eapply Forall_impl; [exact Hsum |].
      simpl. intros w Hw. destruct (decide (w = 0)) as [-> | Hne];
        [reflexivity |].
      apply Rabs_no_R0 in Hne. contradiction.
    + rewrite Forall_fmap. apply Forall_forall. intros w _. apply Rabs_pos.
  - intros Hz. induction Hz as [|w ws -> _ IH]; simpl.
    + reflexivity.
    + rewrite py_sum_cons, Rabs_R0. simpl in IH. rewrite IH. lra.
Qed.

(** C3, as the code has it. The importance values are non-negative; they
    sum to 1 when one of the weights in use is not zero; when all of them
    are zero every value is 0, and the map still has one entry per weight:
    it is empty only for an empty weight vector. *)
Theorem normalize_importance_values :
  let importance := normalize_importance weights in
  (∀ feature v, importance !! feature = Some v → 0 <= v) ∧
  (Exists (λ w, w ≠ 0) used → dict_values_sum importance = 1) ∧
  (Forall (λ w, w = 0) used →
   ∀ feature v, importance !! feature = Some v → v = 0) ∧
  (∀ feature,
     is_Some (importance !! feature)
     ↔ feature ∈ take (length weights) FEATURE_ORDER) ∧
  (importance = ∅ ↔ weights = []).
Proof.
  intros importance. subst importance. unfold normalize_importance.
  fold items. fold raw.
  set (total := float_or (dict_values_sum raw) 1).
  assert (Hsum : 0 <= dict_values_sum raw).
  { apply dict_values_sum_nonneg, raw_nonneg. }
  assert (Htotal : 0 < total).
  { subst total. unfold float_or. case_decide; lra. }
  assert (Hkeys : ∀ feature,
            is_Some (((λ value, value / total) <$> raw) !! feature)
            ↔ feature ∈ take (length weights) FEATURE_ORDER).
  { intros feature. rewrite lookup_fmap, fmap_is_Some. apply raw_keys. }
  split; [| split; [| split; [| split]]].
  - intros feature v. rewrite lookup_fmap.
    destruct (raw !! feature) as [x|] eqn:Hx; [| discriminate].
    intros [= <-]. apply raw_nonneg in Hx.
    apply Rmult_le_pos; [exact Hx |]. left. apply Rinv_0_lt_compat, Htotal.
  - intros Hex. rewrite dict_values_sum_scale.
    assert (Hne : dict_values_sum raw ≠ 0).
    { intros Hz. apply raw_sum_zero_iff in Hz.
      apply Exists_exists in Hex as (w & Hin & Hw).
      rewrite Forall_forall in Hz. apply Hw, Hz, Hin. }
    subst total. unfold float_or. rewrite decide_False by exact Hne.
    apply Rdiv_diag. exact Hne.
  - intros Hz feature v. rewrite lookup_fmap.
    destruct (raw !! feature) as [x|] eqn:Hx; [| discriminate].
    intros [= <-]. apply raw_sum_zero_iff in Hz.
    rewrite (dict_values_sum_zero raw raw_nonneg Hz feature x Hx). lra.
  - exact Hkeys.
  - split.
    + intros Hempty. destruct weights as [|w ws] eqn:Hw; [reflexivity |].
      exfalso. specialize (Hkeys "age").
      rewrite Hempty, lookup_empty in Hkeys.
      destruct Hkeys as [_ Hk].
      apply (is_Some_None (A := R)), Hk. simpl. left.
    + intros Hnil. apply map_eq. intros feature.
      rewrite lookup_empty. apply eq_None_not_Some. rewrite Hkeys, Hnil.
      simpl. apply not_elem_of_nil.
Qed.

End normalize.

Lemma normalize_importance_values_witness :
  dict_values_sum (normalize_importance [3; -1]) = 1.
Proof.
  destruct (normalize_importance_values [3; -1]) as (_ & Hsum & _).
  apply Hsum. simpl. apply Exists_cons_hd. lra.
Defined.

(** C3 as stated fails: for thirteen zero weights the map is not empty (it
    gives every feature the importance 0) and its values sum to 0, not 1. *)
Lemma zero_weights_importance :
  let importance := normalize_importance (replicate 13 0) in
  importance ≠ ∅ ∧ importance !! "age" = Some 0
  ∧ dict_values_sum importance ≠ 1.
Proof.
  intros importance.
  assert (Hage : importance !! "age" = Some 0).
  { subst importance. unfold normalize_importance.
    rewrite lookup_fmap.
    replace (dict_of_items (zip FEATURE_ORDER (map Rabs (replicate 13 0)))
               !! "age") with (Some (Rabs 0)) by reflexivity.
    simpl. rewrite Rabs_R0. f_equal. unfold Rdiv. apply Rmult_0_l. }
  split; [| split; [exact Hage |]].
  - intros Hempty. rewrite Hempty, lookup_empty in Hage. discriminate.
  - subst importance. unfold normalize_importance.
    rewrite dict_values_sum_scale.
    assert (Hzero : dict_values_sum
              (dict_of_items (zip FEATURE_ORDER (map Rabs (replicate 13 0))))
            = 0).
    { apply raw_sum_zero_iff. simpl. repeat constructor. }
    rewrite Hzero. unfold Rdiv. rewrite Rmult_0_l. lra.
Qed.

(** *** [compute_scaling] and [scale_row] *)

Lemma column_Ok (rows : list (gmap string R)) (feature : string) :
  Forall (λ row, is_Some (row !! feature)) rows →
  ∃ values, column rows feature = Ok values ∧ length values = length rows.
Proof.
  induction 1 as [|row rows [v Hv] _ (values & IH & Hlen)]; simpl.
  - exists []. auto.
  - unfold getitem. rewrite Hv. simpl. rewrite IH. simpl.
    exists (v :: values). simpl. auto.
Qed.

Lemma squares_sum_nonneg (mean : R) (values : list R) :
  0 <= py_sum (map (λ value, (value - mean) ^ 2) values).
Proof.
  apply py_sum_nonneg. apply Forall_forall. intros x Hx.
  apply list_elem_of_fmap in Hx as (v & -> & _). apply pow2_ge_0.
Qed.

Lemma floored_std_pos (values : list R) : 0 < floored_std values.
Proof.
  unfold floored_std. pose proof (sqrt_pos (population_variance values)).
  case_decide; lra.
Qed.

Lemma population_variance_nonneg (values : list R) :
  values ≠ [] → 0 <= population_variance values.
Proof.
  intros Hne. unfold population_variance.
  apply Rmult_le_pos; [apply squares_sum_nonneg |].
  left. apply Rinv_0_lt_compat, lt_0_INR.
  destruct values; [contradiction | simpl; lia].
Qed.

(** One turn of the loop: the mean and the floored population std of the
    column. *)
Lemma feature_scaling_Ok (rows : list (gmap string R)) (feature : string) :
  rows ≠ [] →
  Forall (λ row, is_Some (row !! feature)) rows →
  ∃ values,
    column rows feature = Ok values ∧
    feature_scaling rows feature
    = Ok {[ "mean" := population_mean values; "std" := floored_std values ]}.
Proof.
  intros Hne Hrows.
  destruct (column_Ok rows feature Hrows) as (values & Hcol & Hlen).
  assert (Hvalues : values ≠ []).
  { intros ->. destruct rows; [contradiction | discriminate]. }
  assert (Hn : 0 < INR (length values)).
  { apply lt_0_INR. destruct values; [contradiction | simpl; lia]. }
  exists values. split; [exact Hcol |].
  unfold feature_scaling. rewrite Hcol, bind_ret.
  rewrite truediv_nonzero, bind_ret by lra.
  fold (population_mean values).
  rewrite truediv_nonzero, bind_ret by lra.
  fold (population_variance values).
  pose proof (population_variance_nonneg values Hvalues) as Hvar.
  unfold math_sqrt. rewrite decide_False, bind_ret by lra.
  reflexivity.
Qed.

Lemma compute_scaling_loop_Ok (rows : list (gmap string R))
    (features : list string) (scaling : gmap string (gmap string R)) :
  rows ≠ [] →
  (∀ feature, feature ∈ features →
     Forall (λ row, is_Some (row !! feature)) rows) →
  (∀ feature params,
     scaling !! feature = Some params → scaling_entry rows feature params) →
  ∃ scaling',
    compute_scaling_loop rows features scaling = Ok scaling' ∧
    (∀ feature params,
       scaling' !! feature = Some params →
       scaling_entry rows feature params) ∧
    (∀ feature, feature ∈ features ∨ is_Some (scaling !! feature) →
       is_Some (scaling' !! feature)).
Proof.
  intros Hne. revert scaling.
  induction features as [|feature rest IH]; intros scaling Hrows Hinv; simpl.
  - exists scaling. split; [reflexivity |]. split; [exact Hinv |].
    intros f [Hin | Hsome];
      [apply elem_of_nil in Hin; contradiction | exact Hsome].
  - destruct (feature_scaling_Ok rows feature Hne) as (values & Hcol & ->).
    { apply Hrows. left. }
    rewrite bind_ret.
    destruct (IH (<[feature := {[ "mean" := population_mean values;
                                  "std" := floored_std values ]}]> scaling))
      as (scaling' & -> & Hinv' & Hkeys).
    + intros f Hf. apply Hrows. right. exact Hf.
    + intros f params. rewrite lookup_insert. case_decide.
      * intros [= <-]. subst f. exists values. auto.
      * apply Hinv.
    + exists scaling'. split; [reflexivity |]. split; [exact Hinv' |].
      intros f Hf. apply Hkeys.
      destruct (decide (feature = f)) as [-> | Hneq].
      * right. rewrite lookup_insert_eq. eauto.
      * destruct Hf as [Hin | Hsome].
        -- apply elem_of_cons in Hin as [-> | Hin];
             [contradiction | left; exact Hin].
        -- right. rewrite lookup_insert_ne by exact Hneq. exact Hsome.
Qed.

Lemma scale_feature_Ok (row : gmap string R)
    (scaling : gmap string (gmap string R)) (feature : string)
    (value mean std : R) :
  row !! feature = Some value →
  scaling !! feature = Some {[ "mean" := mean; "std" := std ]} →
  std ≠ 0 →
  scale_feature row scaling feature = Ok ((value - mean) / std).
Proof.
  intros Hrow Hsc Hstd. unfold scale_feature, getitem.
  rewrite Hrow, Hsc. simpl. eval_lookups. simpl.
  apply truediv_nonzero, Hstd.
Qed.

Lemma scale_features_Ok (row : gmap string R)
    (scaling : gmap string (gmap string R)) (features : list string) :
  (∀ feature, feature ∈ features → is_Some (row !! feature)) →
  (∀ feature, feature ∈ features →
     ∃ mean std,
       scaling !! feature = Some {[ "mean" := mean; "std" := std ]}
       ∧ std ≠ 0) →
  ∃ vector, scale_features row scaling features = Ok vector.
Proof.
  induction features as [|feature rest IH]; intros Hrow Hsc; simpl.
  - eauto.
  - destruct (Hrow feature) as [value Hvalue]; [left |].
    destruct (Hsc feature) as (mean & std & Hparams & Hstd); [left |].
    rewrite (scale_feature_Ok row scaling feature value mean std) by
      assumption.
    simpl. destruct IH as [vector ->].
    + intros f Hf. apply Hrow. right. exact Hf.
    + intros f Hf. apply Hsc. right. exact Hf.
    + simpl. eauto.
Qed.




(** The entry of the scaled row at a position is the one computed for the
    feature at that position. *)
Lemma scale_features_lookup (row : gmap string R)
    (scaling : gmap string (gmap string R)) (features : list string)
    (vector : list R) (i : nat) (feature : string) :
  scale_features row scaling features = Ok vector →
  features !! i = Some feature →
  ∃ value,
    scale_feature row scaling feature = Ok value ∧ vector !! i = Some value.
Proof.
  revert vector i. induction features as [|f rest IH]; intros vector i Hrun Hi.
  - rewrite lookup_nil in Hi. discriminate.
  - simpl in Hrun. apply bind_Ok in Hrun as (v & Hv & Hrun).
    apply bind_Ok in Hrun as (vs & Hvs & [= <-]).
    destruct i as [|i]; simpl in Hi.
    + injection Hi as ->. exists v. split; [exact Hv | reflexivity].
    + destruct (IH vs i Hvs Hi) as (value & Hvalue & Hlk).
      exists value. split; [exact Hvalue | exact Hlk].
Qed.

End TrainModelFacts.

(** ** The two scalers, and the artifact on disk *)

Module PipelineFacts.
Import Config Store Schemas TrainModel Predictor.

(** C7. With scaling parameters whose std is not zero, the z-score of a value
    equal to the feature's mean is 0, in the training-time scaler
    ([scale_row]) and in the inference-time vector construction
    ([_request_vector]) alike: the computation for that feature returns 0,
    and 0 is the entry of the scaled row or vector at the feature's
    position. *)
Theorem zscore_of_mean_is_zero (scaling : gmap string (gmap string R))
    (feature : string) (params : gmap string R) (mean std : R) :
  scaling !! feature = Some params →
  params !! "mean" = Some mean →
  params !! "std" = Some std →
  std ≠ 0 →
  (∀ row, row !! feature = Some mean →
     scale_feature row scaling feature = Ok 0 ∧
     vector_entry scaling row feature = Ok 0) ∧
  (∀ row vector i,
     row !! feature = Some mean →
     FEATURE_ORDER !! i = Some feature →
     scale_row row scaling = Ok vector → vector !! i = Some 0) ∧
  (∀ self payload row vector i,
     Predictor.scaling self = scaling →
     request_row payload = Ok row →
     row !! feature = Some mean →
     feature_order self !! i = Some feature →
     _request_vector self payload = Ok vector → vector !! i = Some 0).
Proof.
  intros Hsc Hmean Hstd Hne.
  assert (Hzero : (mean - mean) / std = 0).
  { unfold Rdiv. rewrite Rminus_diag. apply Rmult_0_l. }
  assert (Htrain : ∀ row, row !! feature = Some mean →
            scale_feature row scaling feature = Ok 0).
  { intros row Hrow. unfold scale_feature, getitem.
    rewrite Hrow, Hsc, !bind_ret, Hmean, !bind_ret, Hstd, bind_ret.
    rewrite truediv_nonzero by exact Hne. rewrite Hzero. reflexivity. }
  assert (Hinfer : ∀ row, row !! feature = Some mean →
            vector_entry scaling row feature = Ok 0).
  { intros row Hrow. unfold vector_entry, getitem.
    rewrite Hrow, bind_ret, Hsc.
    assert (Htruthy : dict_truthy params = true).
    { apply dict_truthy_true. intros ->. rewrite lookup_empty in Hmean.
      discriminate. }
    rewrite Htruthy, Hmean, bind_ret, Hstd, bind_ret.
    rewrite truediv_nonzero by exact Hne. rewrite Hzero. reflexivity. }
  split; [| split].
  - intros row Hrow. split; [apply Htrain | apply Hinfer]; exact Hrow.
  - intros row vector i Hrow Hi Hrun. unfold scale_row in Hrun.
    destruct (TrainModelFacts.scale_features_lookup _ _ _ _ _ _ Hrun Hi)
      as (value & Hvalue & Hlk).
    rewrite (Htrain row Hrow) in Hvalue. injection Hvalue as <-. exact Hlk.
  - intros self payload row vector i <- Hreq Hrow Hi Hrun.
    unfold _request_vector in Hrun. rewrite Hreq, bind_ret in Hrun.
    destruct (PredictorFacts.vector_loop_lookup _ _ _ _ _ _ Hrun Hi)
      as (value & Hvalue & Hlk).
    rewrite (Hinfer row Hrow) in Hvalue. injection Hvalue as <-. exact Hlk.
Qed.

Lemma zscore_of_mean_is_zero_witness :
  ∃ row,
    request_row Scenarios.sample_request = Ok row ∧
    vector_entry (Predictor.scaling Scenarios.toy_predictor) row "age" = Ok 0.
Proof.
  destruct (PredictorFacts.request_row_Ok Scenarios.sample_request)
    as (row & Hrow & _ & _ & Hage).
  exists row. split; [exact Hrow |].
  destruct (zscore_of_mean_is_zero
              (Predictor.scaling Scenarios.toy_predictor) "age"
              {[ "mean" := 50; "std" := 10 ]} 50 10)
    as (Hentry & _); try reflexivity.
  - lra.
  - apply Hentry. exact Hage.
Defined.

(** *** Loading *)

Lemma load_artifacts_missing_model (self : HeartAttackPredictor) (st : store) :
  st !! self_model_path self = None →
  load_artifacts self st
  = Raise (FileNotFoundError
             ("Model artifact missing at " +:+ self_model_path self)).
Proof. intros Hm. unfold load_artifacts. rewrite Hm. reflexivity. Qed.

Lemma load_artifacts_missing_stats (self : HeartAttackPredictor) (st : store)
    (model_file : document) :
  st !! self_model_path self = Some model_file →
  st !! self_stats_path self = None →
  load_artifacts self st
  = Raise (FileNotFoundError
             ("Feature stats missing at " +:+ self_stats_path self)).
Proof. intros Hm Hs. unfold load_artifacts. rewrite Hm, Hs. reflexivity. Qed.

(** C4, as the code has it. With the model file and the stats file present,
    loading fails (with [KeyError], the malformed-artifact condition) exactly
    when one of the keys feature_order, weights, bias, scaling is absent,
    and names the first absent key; otherwise it succeeds with the values
    of the file, whatever the lengths of feature_order and weights. *)
Theorem load_artifacts_outcome (self : HeartAttackPredictor) (st : store)
    (model_file stats_file : document) :
  st !! self_model_path self = Some model_file →
  st !! self_stats_path self = Some stats_file →
  let payload := as_model model_file in
  (∀ fo w b sc,
     doc_feature_order payload = Some fo → doc_weights payload = Some w →
     doc_bias payload = Some b → doc_scaling payload = Some sc →
     ∃ self',
       load_artifacts self st = Ok self' ∧
       feature_order self' = fo ∧ weights self' = w ∧ bias self' = b
       ∧ Predictor.scaling self' = sc) ∧
  (doc_feature_order payload = None →
   load_artifacts self st = Raise (KeyError "feature_order")) ∧
  (is_Some (doc_feature_order payload) → doc_weights payload = None →
   load_artifacts self st = Raise (KeyError "weights")) ∧
  (is_Some (doc_feature_order payload) → is_Some (doc_weights payload) →
   doc_bias payload = None →
   load_artifacts self st = Raise (KeyError "bias")) ∧
  (is_Some (doc_feature_order payload) → is_Some (doc_weights payload) →
   is_Some (doc_bias payload) → doc_scaling payload = None →
   load_artifacts self st = Raise (KeyError "scaling")).
Proof.
  intros Hm Hs payload. unfold load_artifacts. rewrite Hm, Hs. fold payload.
  split; [| split; [| split; [| split]]].
  - intros fo w b sc -> -> -> ->. simpl. eexists. repeat split.
  - intros ->. reflexivity.
  - intros [fo ->] ->. reflexivity.
  - intros [fo ->] [w ->] ->. reflexivity.
  - intros [fo ->] [w ->] [b ->] ->. reflexivity.
Qed.

Lemma load_artifacts_outcome_witness :
  load_artifacts
    {| self_model_path := model_path default_settings;
       self_stats_path := stats_path default_settings;
       self_report_path := report_path default_settings;
       feature_order := []; weights := []; bias := 0;
       Predictor.scaling := ∅; _stats := ∅; _feature_importance := ∅ |}
    (<[model_path default_settings :=
         ModelDoc {| doc_feature_order := Some ["age"];
                     doc_weights := None; doc_bias := Some 0;
                     doc_scaling := Some ∅ |}]> Scenarios.mismatched_store)
  = Raise (KeyError "weights").
Proof.
  eapply load_artifacts_outcome; try reflexivity.
  simpl. eauto.
Defined.

(** C4 as stated fails: a model file with two feature names and one weight
    has every required key and loads. *)
Lemma mismatched_lengths_load :
  ∃ self,
    __init__ default_settings Scenarios.mismatched_store = Ok self ∧
    length (feature_order self) = 2%nat ∧ length (weights self) = 1%nat.
Proof. eexists. split; [reflexivity |]. split; reflexivity. Qed.

(** *** Persisting, then loading *)

(** C8. For every artifact, when the model file does not share its path with
    the stats file or the report file, a predictor constructed after
    [persist_artifacts] holds the persisted feature_order, weights and bias
    (and scaling). *)
Theorem persist_then_load (settings : Settings) (fo : list string)
    (w : list R) (b : R) (sc : gmap string (gmap string R))
    (feature_stats : gmap string (gmap string R)) (report : ReportDocument)
    (st : store) :
  model_path settings ≠ stats_path settings →
  model_path settings ≠ report_path settings →
  ∃ self,
    __init__ settings
      (persist_artifacts settings (model_payload fo w b sc) feature_stats
         report st)
    = Ok self ∧
    feature_order self = fo ∧ weights self = w ∧ bias self = b
    ∧ Predictor.scaling self = sc.
Proof.
  intros Hstats Hreport.
  unfold __init__, persist_artifacts, load_artifacts. cbn [self_model_path
    self_stats_path self_report_path].
  rewrite lookup_insert_ne by (intros Heq; apply Hreport; symmetry; exact Heq).
  rewrite lookup_insert_ne by (intros Heq; apply Hstats; symmetry; exact Heq).
  rewrite lookup_insert_eq.
  assert (Hfile : ∃ stats_file,
            <[report_path settings := ReportDoc report]>
              (<[stats_path settings :=
                   StatsDoc {| doc_feature_stats := Some feature_stats;
                               doc_top_level := ∅ |}]>
                 (<[model_path settings :=
                      ModelDoc (model_payload fo w b sc)]> st))
              !! stats_path settings = Some stats_file).
  { destruct (decide (report_path settings = stats_path settings)) as [-> | Hne].
    - rewrite lookup_insert_eq. eauto.
    - rewrite lookup_insert_ne, lookup_insert_eq by exact Hne. eauto. }
  destruct Hfile as [stats_file ->]. simpl.
  eexists. repeat split.
Qed.

Lemma persist_then_load_witness :
  ∃ self,
    __init__ default_settings
      (persist_artifacts default_settings
         (model_payload FEATURE_ORDER (replicate 13 (1 / 2)) (1 / 4) ∅)
         ∅ Scenarios.sample_report ∅)
    = Ok self ∧
    weights self = replicate 13 (1 / 2) ∧ bias self = 1 / 4.
Proof.
  destruct (persist_then_load default_settings FEATURE_ORDER
              (replicate 13 (1 / 2)) (1 / 4) ∅ ∅ Scenarios.sample_report ∅)
    as (self & Hload & _ & Hw & Hb & _).
  - discriminate.
  - discriminate.
  - exists self. auto.
Defined.

(** The hypothesis on the paths is needed: when the stats file is written to
    the model's path it replaces the model, and loading raises. *)
Lemma persist_shared_path (settings : Settings) (fo : list string)
    (w : list R) (b : R) (sc : gmap string (gmap string R))
    (feature_stats : gmap string (gmap string R)) (report : ReportDocument)
    (st : store) :
  model_path settings = stats_path settings →
  model_path settings ≠ report_path settings →
  __init__ settings
    (persist_artifacts settings (model_payload fo w b sc) feature_stats
       report st)
  = Raise (KeyError "feature_order").
Proof.
  intros Hstats Hreport.
  unfold __init__, persist_artifacts, load_artifacts. cbn [self_model_path
    self_stats_path self_report_path].
  rewrite <- Hstats.
  rewrite lookup_insert_ne by (intros Heq; apply Hreport; symmetry; exact Heq).
  rewrite lookup_insert_eq. reflexivity.
Qed.

End PipelineFacts.

(** ** The logistic score on binary64 numbers *)

Module Binary64Facts.
Import PrimFloat.
Local Open Scope float_scope.

(** Whatever else [exp] does, once it returns the binary64 value of [e^-60]
    at [-60], a score of 60 gives the probability [1.0] exactly. *)
Lemma probability_at_sixty (exp : float → float) :
  exp (-60) = Binary64.exp_minus_60 →
  Binary64._predict_probability exp [1] 0 [60] = 1.
Proof.
  intros Hexp. unfold Binary64._predict_probability.
  replace (Binary64.py_max
             (Binary64.py_min
                (Binary64.py_sum (zip_with (λ weight value, weight * value)
                                    [1] [60]) + 0) 60) (-60))
    with 60 by reflexivity.
  change (opp 60) with (-60). rewrite Hexp. reflexivity.
Qed.

Lemma sigmoid_at_sixty (exp : float → float) :
  exp (-60) = Binary64.exp_minus_60 → Binary64.sigmoid exp 60 = 1.
Proof.
  intros Hexp. unfold Binary64.sigmoid.
  replace (Binary64.py_max (Binary64.py_min 60 60) (-60)) with 60
    by reflexivity.
  change (opp 60) with (-60). rewrite Hexp. reflexivity.
Qed.

(** The other end of the range stays away from 0: at a score of -60 the
    probability is [1 / (1 + exp(60))], about [8.7565e-27]. *)
Lemma probability_at_minus_sixty (exp : float → float) :
  exp 60 = 0x1.79dbc9dc53c66p+86 →
  Binary64._predict_probability exp [1] 0 [-60] = 0x1.5ae191a99585ap-87.
Proof.
  intros Hexp. unfold Binary64._predict_probability.
  replace (Binary64.py_max
             (Binary64.py_min
                (Binary64.py_sum (zip_with (λ weight value, weight * value)
                                    [1] [-60]) + 0) 60) (-60))
    with (-60) by reflexivity.
  change (opp (-60)) with 60. rewrite Hexp. reflexivity.
Qed.

(** C10 as stated fails on binary64 numbers: with the weight 1, the bias 0
    and the vector [60] the score is 60, [1.0 + exp(-60.0)] rounds to [1.0],
    and the probability returned is exactly 1. *)
Lemma probability_exactly_one :
  ¬ (∀ (exp : float → float) (weights : list float) (bias : float)
       (vector : list float),
       exp (-60) = Binary64.exp_minus_60 →
       Binary64._predict_probability exp weights bias vector ≠ 1).
Proof.
  intros Hclaim.
  apply (Hclaim (λ _, Binary64.exp_minus_60) [1] 0 [60] eq_refl).
  apply probability_at_sixty. reflexivity.
Qed.

End Binary64Facts.

(** ** The predictor: the rest of [predict] *)

Module PredictorCoverage.
Import Config Store Schemas Predictor Spec Notions.

(** Every field of the result of [predict]. *)
Lemma predict_fields (self : HeartAttackPredictor)
    (payload : HealthPredictionRequest) (r : HealthPredictionResponse) :
  predict self payload = Ok r →
  weights self ≠ [] ∧
  ∃ vector chart,
    _request_vector self payload = Ok vector ∧
    _chart_data self payload = Ok chart ∧
    r = {| resp_name := name payload;
           risk_category :=
             _categorize_risk (_predict_probability self vector);
           risk_score := py_round2 (_predict_probability self vector * 100);
           probability := _predict_probability self vector;
           classification :=
             (if decide (_predict_probability self vector >= 1 / 2)
              then 1%Z else 0%Z);
           advisory_message :=
             (if decide (_categorize_risk (_predict_probability self vector)
                         = "High")
              then advisory_high else advisory_manageable);
           Schemas.chart := chart;
           key_insights := _insights self payload;
           feature_importance := _feature_importance self;
           recommended_actions :=
             _recommendations
               (_categorize_risk (_predict_probability self vector))
               payload |}.
Proof.
  unfold predict. destruct (weights self) as [|w ws] eqn:Hw; [intros [=] |].
  intros H. apply bind_Ok in H as (vector & Hv & H).
  apply bind_Ok in H as (ch & Hch & [= <-]).
  split; [discriminate |]. exists vector, ch. auto.
Qed.

(** *** The row and the vector *)

Lemma request_row_keys (payload : HealthPredictionRequest)
    (row : gmap string R) (feature : string) :
  request_row payload = Ok row →
  is_Some (row !! feature) ↔ feature ∈ TrainModel.FEATURE_ORDER.
Proof.
  intros Hrow. split.
  - unfold request_row in Hrow.
    apply bind_Ok in Hrow as (cp & _ & Hrow).
    apply bind_Ok in Hrow as (ecg & _ & Hrow).
    apply bind_Ok in Hrow as (sl & _ & Hrow).
    apply bind_Ok in Hrow as (th & _ & [= <-]).
    unfold TrainModel.FEATURE_ORDER.
    repeat (rewrite lookup_insert; case_decide;
            [subst; intros _; set_solver |]).
    rewrite lookup_singleton. case_decide; [subst; intros _; set_solver |].
    intros [x Hx]. discriminate.
  - intros Hin.
    destruct (PredictorFacts.request_row_Ok payload) as (row' & Hrow' & Hall & _).
    rewrite Hrow in Hrow'. injection Hrow' as <-. apply Hall, Hin.
Qed.


Lemma vector_loop_length (sc : gmap string (gmap string R))
    (row : gmap string R) (features : list string) (vector : list R) :
  vector_loop sc row features = Ok vector → length vector = length features.
Proof.
  revert vector. induction features as [|f rest IH]; intros vector Hloop.
  - injection Hloop as <-. reflexivity.
  - simpl in Hloop. apply bind_Ok in Hloop as (v & _ & Hloop).
    apply bind_Ok in Hloop as (vs & Hvs & [= <-]).
    simpl. f_equal. apply IH, Hvs.
Qed.

(** X2. When [_request_vector] returns, the vector has one entry per name in
    the artifact's feature order, and the entry at a position is the row's
    value for the feature named there: as it is when the scaling has no
    entry (or an empty one) for it, and its z-score (value - mean) / std
    otherwise. *)
Theorem request_vector_entries (self : HeartAttackPredictor)
    (payload : HealthPredictionRequest) (vector : list R) :
  _request_vector self payload = Ok vector →
  length vector = length (feature_order self) ∧
  ∃ row,
    request_row payload = Ok row ∧
    ∀ i feature,
      feature_order self !! i = Some feature →
      ∃ value,
        row !! feature = Some value ∧
        (scaling self !! feature = None ∨ scaling self !! feature = Some ∅ →
         vector !! i = Some value) ∧
        (∀ params mean std,
           scaling self !! feature = Some params →
           params !! "mean" = Some mean → params !! "std" = Some std →
           std ≠ 0 ∧ vector !! i = Some ((value - mean) / std)).
Proof.
  intros Hvec. unfold _request_vector in Hvec.
  apply bind_Ok in Hvec as (row & Hrow & Hloop).
  split; [apply (vector_loop_length _ _ _ _ Hloop) |].
  exists row. split; [exact Hrow |].
  intros i feature Hi.
  destruct (PredictorFacts.vector_loop_lookup _ _ _ _ _ _ Hloop Hi)
    as (entry & Hentry & Hlk).
  unfold vector_entry in Hentry.
  apply bind_Ok in Hentry as (value & Hvalue & Hentry).
  apply getitem_Ok in Hvalue. exists value. split; [exact Hvalue |]. split.
  - intros [Hnone | Hempty].
    + rewrite Hnone in Hentry. injection Hentry as <-. exact Hlk.
    + rewrite Hempty in Hentry. simpl in Hentry.
      injection Hentry as <-. exact Hlk.
  - intros params mean std Hsc Hmean Hstd. rewrite Hsc in Hentry.
    assert (Hne : dict_truthy params = true).
    { apply dict_truthy_true. intros ->. rewrite lookup_empty in Hmean.
      discriminate. }
    unfold getitem in Hentry.
    rewrite Hne, Hmean, Hstd in Hentry. simpl in Hentry.
    apply truediv_Ok in Hentry as [Hnz ->]. split; [exact Hnz | exact Hlk].
Qed.

Lemma request_vector_entries_witness :
  ∃ vector,
    _request_vector Scenarios.fbs_predictor Scenarios.diabetic_request
    = Ok vector ∧
    length vector = 1%nat.
Proof.
  exists [1 / 2]. split; [apply PredictorFacts.fbs_predictor_vector |].
  apply (request_vector_entries Scenarios.fbs_predictor
           Scenarios.diabetic_request [1 / 2]
           PredictorFacts.fbs_predictor_vector).
Defined.

Lemma vector_loop_raise (sc : gmap string (gmap string R))
    (row : gmap string R) (good : list string) (feature : string)
    (rest : list string) (e : exn) :
  (∀ f, f ∈ good → ∃ v, vector_entry sc row f = Ok v) →
  vector_entry sc row feature = Raise e →
  vector_loop sc row (good ++ feature :: rest) = Raise e.
Proof.
  intros Hgood Hbad. induction good as [|g good IH]; simpl.
  - rewrite Hbad. reflexivity.
  - destruct (Hgood g) as [v ->]; [left |]. rewrite bind_ret.
    rewrite IH; [reflexivity |]. intros f Hf. apply Hgood. right. exact Hf.
Qed.

(** X3. The first name in the feature order that cannot be served decides
    how [_request_vector] fails: a name that is none of the thirteen
    features raises [KeyError] with that name; a non-empty scaling entry
    without a mean raises [KeyError "mean"], one without a std
    [KeyError "std"], and one with std 0 [ZeroDivisionError]. *)
Theorem request_vector_failure (self : HeartAttackPredictor)
    (payload : HealthPredictionRequest) (good : list string)
    (feature : string) (rest : list string) :
  feature_order self = good ++ feature :: rest →
  Forall (servable (scaling self)) good →
  (feature ∉ TrainModel.FEATURE_ORDER →
   _request_vector self payload = Raise (KeyError feature)) ∧
  (∀ params,
     feature ∈ TrainModel.FEATURE_ORDER →
     scaling self !! feature = Some params → params ≠ ∅ →
     (params !! "mean" = None →
      _request_vector self payload = Raise (KeyError "mean")) ∧
     (is_Some (params !! "mean") → params !! "std" = None →
      _request_vector self payload = Raise (KeyError "std")) ∧
     (is_Some (params !! "mean") → params !! "std" = Some 0 →
      _request_vector self payload = Raise ZeroDivisionError)).
Proof.
  intros Hfo Hgood. unfold _request_vector.
  destruct (PredictorFacts.request_row_Ok payload) as (row & Hrow & Hall & _).
  rewrite Hrow, bind_ret, Hfo.
  assert (Hserved : ∀ f, f ∈ good → ∃ v, vector_entry (scaling self) row f = Ok v).
  { intros f Hf. rewrite Forall_forall in Hgood.
    destruct (Hgood f Hf) as [Hin Hsc].
    apply PredictorFacts.vector_entry_Ok; [apply Hall, Hin | exact Hsc]. }
  split.
  - intros Hnot. apply vector_loop_raise; [exact Hserved |].
    unfold vector_entry, getitem.
    destruct (row !! feature) as [v|] eqn:Hv; [| reflexivity].
    exfalso. apply Hnot.
    apply (request_row_keys payload row feature Hrow). eauto.
  - intros params Hin Hsc Hne.
    destruct (Hall feature Hin) as [v Hv].
    apply dict_truthy_true in Hne.
    repeat split.
    + intros Hmean. apply vector_loop_raise; [exact Hserved |].
      unfold vector_entry, getitem. rewrite Hv, bind_ret, Hsc, Hne, Hmean.
      reflexivity.
    + intros [m Hmean] Hstd. apply vector_loop_raise; [exact Hserved |].
      unfold vector_entry, getitem.
      rewrite Hv, bind_ret, Hsc, Hne, Hmean, bind_ret, Hstd. reflexivity.
    + intros [m Hmean] Hstd. apply vector_loop_raise; [exact Hserved |].
      unfold vector_entry, getitem.
      rewrite Hv, bind_ret, Hsc, Hne, Hmean, bind_ret, Hstd, bind_ret.
      unfold truediv. rewrite decide_True by reflexivity. reflexivity.
Qed.

Lemma request_vector_failure_witness :
  _request_vector Scenarios.unknown_feature_predictor Scenarios.sample_request
  = Raise (KeyError "bmi").
Proof.
  apply (request_vector_failure Scenarios.unknown_feature_predictor
           Scenarios.sample_request ["age"] "bmi" ["sex"]).
  - reflexivity.
  - constructor; [| constructor]. split.
    + unfold TrainModel.FEATURE_ORDER. left.
    + intros params Hlk. simpl in Hlk. rewrite lookup_empty in Hlk.
      discriminate.
  - unfold TrainModel.FEATURE_ORDER. intros Hin.
    repeat (apply elem_of_cons in Hin as [Hin | Hin]; [discriminate Hin |]).
    apply elem_of_nil in Hin. exact Hin.
Defined.

(** *** The logistic function and the classification *)

Lemma capped_id (x : R) :
  -60 <= x <= 60 → py_max (py_min x 60) (-60) = x.
Proof. intros H. unfold py_max, py_min. repeat case_decide; lra. Qed.

Lemma capped_mono (x y : R) :
  x <= y → py_max (py_min x 60) (-60) <= py_max (py_min y 60) (-60).
Proof. intros H. unfold py_max, py_min. repeat case_decide; lra. Qed.

Lemma capped_opp (x : R) :
  py_max (py_min (- x) 60) (-60) = - py_max (py_min x 60) (-60).
Proof. unfold py_max, py_min. repeat case_decide; lra. Qed.

Lemma capped_sign (x : R) : 0 <= py_max (py_min x 60) (-60) ↔ 0 <= x.
Proof. unfold py_max, py_min. repeat case_decide; lra. Qed.

Lemma logistic_mono (c d : R) :
  c <= d → 1 / (1 + exp (- c)) <= 1 / (1 + exp (- d)).
Proof.
  intros H. assert (He : exp (- d) <= exp (- c)) by (apply exp_le; lra).
  pose proof (exp_pos (- c)). pose proof (exp_pos (- d)).
  unfold Rdiv. rewrite !Rmult_1_l. apply Rinv_le_contravar; lra.
Qed.

Lemma logistic_half (c : R) : 1 / (1 + exp (- c)) >= 1 / 2 ↔ 0 <= c.
Proof.
  pose proof (exp_pos (- c)) as Hpos.
  assert (Hiff : exp (- c) <= 1 ↔ 0 <= c).
  { split.
    - intros Hle. destruct (Rle_lt_dec 0 c) as [Hc | Hc]; [exact Hc |].
      exfalso. assert (Hlt : exp 0 < exp (- c)) by (apply exp_increasing; lra).
      rewrite exp_0 in Hlt. lra.
    - intros Hc. rewrite <- exp_0. apply exp_le. lra. }
  rewrite <- Hiff. unfold Rdiv. rewrite !Rmult_1_l. split.
  - intros Hge. destruct (Rle_lt_dec (exp (- c)) 1) as [Hle | Hgt];
      [exact Hle |].
    exfalso. assert (Hlt : / (1 + exp (- c)) < / 2).
    { apply Rinv_lt_contravar; nra. }
    lra.
  - intros Hle. apply Rle_ge. apply Rinv_le_contravar; lra.
Qed.

(** X4. [sigmoid] is non-decreasing, is at least 0.5 exactly on the
    non-negative scores (0.5 at score 0), mirrors around 0.5
    ([sigmoid(-x) = 1 - sigmoid(x)]), and is constant beyond the clamp: every
    score of 60 or more gives [sigmoid(60)], every score of -60 or less
    [sigmoid(-60)]. *)
Theorem sigmoid_shape :
  (∀ x y : R, x <= y → TrainModel.sigmoid x <= TrainModel.sigmoid y) ∧
  (∀ x : R, TrainModel.sigmoid x >= 1 / 2 ↔ 0 <= x) ∧
  TrainModel.sigmoid 0 = 1 / 2 ∧
  (∀ x : R, TrainModel.sigmoid (- x) = 1 - TrainModel.sigmoid x) ∧
  (∀ x : R, 60 <= x → TrainModel.sigmoid x = TrainModel.sigmoid 60) ∧
  (∀ x : R, x <= -60 → TrainModel.sigmoid x = TrainModel.sigmoid (-60)).
Proof.
  unfold TrainModel.sigmoid. repeat split.
  - intros x y H. apply logistic_mono, capped_mono, H.
  - intros H. apply logistic_half in H. apply capped_sign, H.
  - intros H. apply logistic_half, capped_sign, H.
  - rewrite capped_id by lra. rewrite Ropp_0, exp_0. lra.
  - intros x. rewrite capped_opp, Ropp_involutive.
    set (c := py_max (py_min x 60) (-60)).
    rewrite (exp_Ropp c). pose proof (exp_pos c) as Hc.
    field. split; [lra |]. apply Rgt_not_eq. lra.
  - intros x Hx. f_equal. f_equal. f_equal. f_equal.
    unfold py_max, py_min. repeat case_decide; lra.
  - intros x Hx. f_equal. f_equal. f_equal. f_equal.
    unfold py_max, py_min. repeat case_decide; lra.
Qed.

Lemma sigmoid_shape_witness :
  TrainModel.sigmoid (-3) <= TrainModel.sigmoid 2 ∧
  TrainModel.sigmoid 75 = TrainModel.sigmoid 60.
Proof.
  destruct sigmoid_shape as (Hmono & _ & _ & _ & Hhigh & _).
  split; [apply Hmono; lra | apply Hhigh; lra].
Defined.



Lemma zip_with_app_l_surplus {A B C} (f : A → B → C) (l extra : list A)
    (k : list B) :
  length k ≤ length l → zip_with f (l ++ extra) k = zip_with f l k.
Proof.
  revert k. induction l as [|a l IH]; intros [|b k] Hlen; simpl in *;
    try reflexivity; try lia.
  - destruct extra; reflexivity.
  - f_equal. apply IH. lia.
Qed.

Lemma zip_with_app_r_surplus {A B C} (f : A → B → C) (l : list A)
    (k extra : list B) :
  length l ≤ length k → zip_with f l (k ++ extra) = zip_with f l k.
Proof.
  revert k. induction l as [|a l IH]; intros [|b k] Hlen; simpl in *;
    try reflexivity; try lia.
  - f_equal. apply IH. lia.
Qed.

(** X6. [_predict_probability] pairs weights and vector entries by position
    and stops at the shorter of the two: weights beyond the length of the
    vector, and vector entries beyond the number of weights, do not reach
    the probability; no length mismatch is reported. *)
Theorem predict_probability_truncates (self other : HeartAttackPredictor)
    (vector extra_values : list R) (extra_weights : list R) :
  bias other = bias self →
  (length vector ≤ length (weights self) →
   weights other = weights self ++ extra_weights →
   _predict_probability other vector = _predict_probability self vector) ∧
  (length (weights self) ≤ length vector →
   _predict_probability self (vector ++ extra_values)
   = _predict_probability self vector).
Proof.
  intros Hbias. unfold _predict_probability. split.
  - intros Hlen ->. rewrite Hbias, zip_with_app_l_surplus by exact Hlen.
    reflexivity.
  - intros Hlen. rewrite zip_with_app_r_surplus by exact Hlen. reflexivity.
Qed.

Lemma predict_probability_truncates_witness :
  _predict_probability Scenarios.toy_predictor ([0] ++ [7; 9])
  = _predict_probability Scenarios.toy_predictor [0].
Proof.
  apply (predict_probability_truncates Scenarios.toy_predictor
           Scenarios.toy_predictor [0] [7; 9] [] eq_refl).
  simpl. lia.
Defined.

(** *** Category, classification and advisory *)



(** *** The risk score *)

Lemma round_half_even_cases (y : R) :
  (round_half_even y = Int_part y ∧ frac_part y <= 1 / 2) ∨
  (round_half_even y = (Int_part y + 1)%Z ∧ 1 / 2 <= frac_part y).
Proof.
  unfold round_half_even. repeat case_decide.
  - left. split; [reflexivity | lra].
  - right. split; [reflexivity | lra].
  - destruct (Z.even (Int_part y)); [left | right]; split;
      try reflexivity; lra.
Qed.

Lemma round_half_even_near (y : R) :
  - (1 / 2) <= IZR (round_half_even y) - y <= 1 / 2.
Proof.
  destruct (base_fp y) as [Hge Hlt]. unfold frac_part in *.
  destruct (round_half_even_cases y) as [[-> Hd] | [-> Hd]];
    unfold frac_part in Hd; [| rewrite plus_IZR]; lra.
Qed.

Lemma round_half_even_range (y : R) (n : Z) :
  0 <= y <= IZR n → (0 <= round_half_even y <= n)%Z.
Proof.
  intros [Hlo Hhi]. destruct (base_fp y) as [Hge Hlt]. unfold frac_part in *.
  assert (Hf0 : (0 <= Int_part y)%Z).
  { assert (H : (-1 < Int_part y)%Z) by (apply lt_IZR; lra). lia. }
  destruct (round_half_even_cases y) as [[-> Hd] | [-> Hd]];
    unfold frac_part in Hd.
  - split; [exact Hf0 |]. apply le_IZR. lra.
  - split; [lia |].
    assert (H : (Int_part y < n)%Z) by (apply lt_IZR; lra). lia.
Qed.

(** X8. The risk score of a prediction result lies between 0 and 100, is a
    whole number of hundredths, and differs from 100 times the probability
    by at most 0.005. *)
Theorem risk_score_range (self : HeartAttackPredictor)
    (payload : HealthPredictionRequest) (r : HealthPredictionResponse) :
  predict self payload = Ok r →
  0 <= risk_score r <= 100 ∧
  - (1 / 200) <= risk_score r - 100 * probability r <= 1 / 200 ∧
  ∃ hundredths : Z,
    (0 <= hundredths <= 10000)%Z ∧ risk_score r = IZR hundredths / 100.
Proof.
  intros Hr. destruct (predict_fields self payload r Hr)
    as (_ & vector & chart & _ & _ & ->).
  clear Hr. cbn [risk_score probability].
  set (p := _predict_probability self vector).
  assert (Hp : 0 < p < 1).
  { subst p. unfold _predict_probability. apply logistic_open. }
  unfold py_round2. set (y := p * 100 * 100).
  pose proof (round_half_even_near y) as Hnear.
  assert (Hrange : (0 <= round_half_even y <= 10000)%Z).
  { apply round_half_even_range. subst y. lra. }
  destruct Hrange as [Hlo Hhi]. apply IZR_le in Hlo, Hhi.
  subst y. repeat split; try lra.
  exists (round_half_even (p * 100 * 100)).
  split; [split; apply le_IZR; lra | reflexivity].
Qed.

Lemma risk_score_range_witness :
  ∃ r, predict Scenarios.toy_predictor Scenarios.sample_request = Ok r ∧
       0 <= risk_score r <= 100.
Proof.
  destruct (PredictorFacts.predict_total Scenarios.toy_predictor
              Scenarios.sample_request
              PredictorFacts.toy_predictor_well_formed) as [r Hr].
  exists r. split; [exact Hr |].
  apply (risk_score_range _ _ r Hr).
Defined.

(** *** Insights *)

Lemma percentile_rule (stats_map : gmap string (gmap string R))
    (field : string) (value : R) :
  dict_truthy (dict_get stats_map field ∅)
  && bool_decide (value > dict_get (dict_get stats_map field ∅) "p90"
                            (value + 1)) = true
  ↔ above_p90 stats_map field value.
Proof.
  rewrite andb_true_iff, dict_truthy_true, bool_decide_eq_true.
  unfold above_p90, dict_get. split.
  - intros [Hne Hgt]. destruct (stats_map !! field) as [stats|] eqn:Hf;
      simpl in *; [| contradiction].
    destruct (stats !! "p90") as [p90|] eqn:Hp; simpl in *; [| lra].
    exists stats, p90. auto.
  - intros (stats & p90 & -> & Hp & Hgt). simpl. rewrite Hp. simpl.
    split; [| exact Hgt]. intros ->. rewrite lookup_empty in Hp.
    discriminate.
Qed.

Lemma append_if_sublist {A} (c : bool) (l k : list A) (x : A) :
  l `sublist_of` k → append_if c l x `sublist_of` k ++ [x].
Proof.
  intros H. unfold append_if. destruct c.
  - apply sublist_app; [exact H | reflexivity].
  - apply sublist_inserts_r, H.
Qed.

Lemma append_if_nil {A} (c : bool) (l : list A) (x : A) :
  append_if c l x = [] ↔ l = [] ∧ c = false.
Proof.
  unfold append_if. destruct c; split.
  - intros H. apply app_eq_nil in H as [_ H]. discriminate.
  - intros [_ H]. discriminate.
  - auto.
  - intros [H _]. exact H.
Qed.

Lemma fired_sublist (c1 c2 c3 c4 c5 : bool) :
  fired c1 c2 c3 c4 c5 `sublist_of` rule_messages.
Proof.
  unfold fired, rule_messages.
  apply (append_if_sublist c5 _ [_; _; _; _]).
  apply (append_if_sublist c4 _ [_; _; _]).
  apply (append_if_sublist c3 _ [_; _]).
  apply (append_if_sublist c2 _ [_]).
  apply (append_if_sublist c1 [] []). reflexivity.
Qed.

Lemma fired_nil (c1 c2 c3 c4 c5 : bool) :
  fired c1 c2 c3 c4 c5 = []
  ↔ c1 = false ∧ c2 = false ∧ c3 = false ∧ c4 = false ∧ c5 = false.
Proof. unfold fired. rewrite !append_if_nil. tauto. Qed.

Lemma insights_fired (self : HeartAttackPredictor)
    (payload : HealthPredictionRequest) :
  ∃ c1 c2 c3 c4 c5,
    (c1 = true
     ↔ above_p90 (_stats self) "bp_systolic" (bp_systolic payload)) ∧
    (c2 = true
     ↔ above_p90 (_stats self) "cholesterol" (cholesterol payload)) ∧
    c3 = exercise_angina payload ∧
    (c4 = true ↔ sugar_level payload >= 126) ∧
    (c5 = true ↔ calories_burned payload < calories_healthy_low self) ∧
    _insights self payload
    = match fired c1 c2 c3 c4 c5 with
      | [] => [insight_none]
      | _ => fired c1 c2 c3 c4 c5
      end.
Proof.
  eexists _, _, _, _, _.
  split; [apply percentile_rule |]. split; [apply percentile_rule |].
  split; [reflexivity |]. split; [apply bool_decide_eq_true |].
  split; [apply bool_decide_eq_true |].
  unfold _insights, fired, calories_healthy_low. cbv zeta.
  match goal with |- match ?l with _ => _ end = _ => destruct l end;
    reflexivity.
Qed.

Lemma insight_none_not_rule : insight_none ∉ rule_messages.
Proof.
  unfold rule_messages. intros Hin.
  repeat (apply elem_of_cons in Hin as [Hin | Hin]; [discriminate Hin |]).
  apply elem_of_nil in Hin. exact Hin.
Qed.

(** X9. [_insights] never returns an empty list. Either some rule fires, and
    the list holds the messages of the rules that fire, without repeats and
    in the order blood pressure, cholesterol, angina, sugar, calories; or no
    rule fires and the list is the generic message alone. *)
Theorem insights_shape (self : HeartAttackPredictor)
    (payload : HealthPredictionRequest) :
  _insights self payload ≠ [] ∧
  (length (_insights self payload) ≤ 5)%nat ∧
  NoDup (_insights self payload) ∧
  (_insights self payload = [insight_none]
   ∨ _insights self payload `sublist_of` rule_messages) ∧
  (_insights self payload = [insight_none]
   ↔ ¬ above_p90 (_stats self) "bp_systolic" (bp_systolic payload) ∧
     ¬ above_p90 (_stats self) "cholesterol" (cholesterol payload) ∧
     exercise_angina payload = false ∧
     ¬ sugar_level payload >= 126 ∧
     ¬ calories_burned payload < calories_healthy_low self).
Proof.
  destruct (insights_fired self payload)
    as (c1 & c2 & c3 & c4 & c5 & H1 & H2 & H3 & H4 & H5 & ->).
  pose proof (fired_sublist c1 c2 c3 c4 c5) as Hsub.
  pose proof (fired_nil c1 c2 c3 c4 c5) as Hnil.
  assert (Hnodup : NoDup rule_messages) by compute_done.
  assert (Hrules : (c1 = false ∧ c2 = false ∧ c3 = false ∧ c4 = false
                    ∧ c5 = false)
                   ↔ ¬ above_p90 (_stats self) "bp_systolic"
                         (bp_systolic payload) ∧
                     ¬ above_p90 (_stats self) "cholesterol"
                         (cholesterol payload) ∧
                     exercise_angina payload = false ∧
                     ¬ sugar_level payload >= 126 ∧
                     ¬ calories_burned payload < calories_healthy_low self).
  { rewrite <- H1, <- H2, <- H3, <- H4, <- H5, !not_true_iff_false. tauto. }
  destruct (fired c1 c2 c3 c4 c5) as [|m l'] eqn:Hl.
  - split; [discriminate |]. split; [simpl; lia |].
    split; [apply NoDup_singleton |]. split; [left; reflexivity |].
    rewrite <- Hrules, <- Hnil. tauto.
  - split; [discriminate |].
    split; [apply sublist_length in Hsub; exact Hsub |].
    split; [eapply sublist_NoDup; [exact Hnodup | exact Hsub] |].
    split; [right; exact Hsub |].
    rewrite <- Hrules, <- Hnil. split; [| intros [=]].
    intros Heq. exfalso. apply insight_none_not_rule.
    eapply elem_of_sublist; [| exact Hsub]. rewrite Heq. left.
Qed.

Lemma insights_shape_witness :
  _insights Scenarios.toy_predictor Scenarios.sample_request
  = [insight_none].
Proof.
  destruct (insights_shape Scenarios.toy_predictor Scenarios.sample_request)
    as (_ & _ & _ & _ & Hgeneric).
  apply Hgeneric. unfold above_p90, calories_healthy_low, dict_get. simpl.
  repeat split.
  - intros (stats & p90 & Hlk & _). rewrite lookup_empty in Hlk.
    discriminate.
  - intros (stats & p90 & Hlk & _). rewrite lookup_empty in Hlk.
    discriminate.
  - lra.
  - rewrite lookup_empty. simpl. rewrite lookup_empty. simpl. lra.
Defined.

(** X10. Which rule puts its message into the insights: blood pressure and
    cholesterol when the value is above the p90 of a summary that is there
    (an absent or empty summary, or one without p90, never fires); angina
    when the request reports it; sugar when [sugar_level >= 126]; and the
    generic message only when none of the messages of the rules is
    present. *)
Theorem insights_rules (self : HeartAttackPredictor)
    (payload : HealthPredictionRequest) :
  (insight_blood_pressure ∈ _insights self payload
   ↔ above_p90 (_stats self) "bp_systolic" (bp_systolic payload)) ∧
  (insight_cholesterol ∈ _insights self payload
   ↔ above_p90 (_stats self) "cholesterol" (cholesterol payload)) ∧
  (insight_angina ∈ _insights self payload
   ↔ exercise_angina payload = true) ∧
  (insight_sugar ∈ _insights self payload ↔ sugar_level payload >= 126) ∧
  (insight_none ∈ _insights self payload
   → ∀ m, m ∈ rule_messages → m ∉ _insights self payload).
Proof.
  split; [| split; [| split; [| split]]].
  - rewrite <- percentile_rule. unfold _insights. cbv zeta.
    rewrite PredictorFacts.elem_of_or_fallback,
      !PredictorFacts.elem_of_append_if.
    split.
    + intros [[[[[[H | [H _]] | [_ H]] | [_ H]] | [_ H]] | [_ H]] | [_ H]];
        try discriminate H; try exact H.
      apply elem_of_nil in H. contradiction.
    + intros H. left. do 4 left. right. split; [exact H | reflexivity].
  - rewrite <- percentile_rule. unfold _insights. cbv zeta.
    rewrite PredictorFacts.elem_of_or_fallback,
      !PredictorFacts.elem_of_append_if.
    split.
    + intros [[[[[[H | [_ H]] | [H _]] | [_ H]] | [_ H]] | [_ H]] | [_ H]];
        try discriminate H; try exact H.
      apply elem_of_nil in H. contradiction.
    + intros H. left. do 3 left. right. split; [exact H | reflexivity].
  - unfold _insights. cbv zeta.
    rewrite PredictorFacts.elem_of_or_fallback,
      !PredictorFacts.elem_of_append_if.
    split.
    + intros [[[[[[H | [_ H]] | [_ H]] | [H _]] | [_ H]] | [_ H]] | [_ H]];
        try discriminate H; try exact H.
      apply elem_of_nil in H. contradiction.
    + intros H. left. do 2 left. right. split; [exact H | reflexivity].
  - unfold _insights. cbv zeta.
    rewrite PredictorFacts.elem_of_or_fallback,
      !PredictorFacts.elem_of_append_if.
    split.
    + intros [[[[[[H | [_ H]] | [_ H]] | [_ H]] | [H _]] | [_ H]] | [_ H]];
        try discriminate H.
      * apply elem_of_nil in H. contradiction.
      * apply bool_decide_eq_true in H. exact H.
    + intros H. left. left. right.
      split; [apply bool_decide_eq_true_2, H | reflexivity].
  - intros Hnone m Hm Hin.
    destruct (insights_fired self payload)
      as (c1 & c2 & c3 & c4 & c5 & _ & _ & _ & _ & _ & Heq).
    rewrite Heq in Hnone, Hin.
    pose proof (fired_sublist c1 c2 c3 c4 c5) as Hsub.
    destruct (fired c1 c2 c3 c4 c5) as [|m' l'].
    + apply list_elem_of_singleton in Hin. subst m.
      apply insight_none_not_rule, Hm.
    + apply insight_none_not_rule.
      eapply elem_of_sublist; [exact Hnone | exact Hsub].
Qed.

Lemma insights_rules_witness :
  insight_sugar
  ∈ _insights Scenarios.toy_predictor Scenarios.diabetic_request.
Proof.
  destruct (insights_rules Scenarios.toy_predictor Scenarios.diabetic_request)
    as (_ & _ & _ & Hsugar & _).
  apply Hsugar. simpl. lra.
Defined.

(** *** Recommendations *)




(** *** Chart data *)

Lemma has_summary_true (stats_map : gmap string (gmap string R))
    (field : string) :
  has_summary stats_map field = true
  ↔ ∃ stats, stats_map !! field = Some stats ∧ stats ≠ ∅.
Proof.
  unfold has_summary, dict_get. rewrite dict_truthy_true.
  destruct (stats_map !! field) as [stats|]; simpl; split.
  - intros H. eauto.
  - intros (st & [= <-] & H). exact H.
  - intros H. contradiction.
  - intros (st & [=] & _).
Qed.

Lemma chart_loop_step (stats_map : gmap string (gmap string R))
    (field : string) (value : R) (rest : list (string * R)) :
  chart_loop stats_map ((field, value) :: rest)
  = if has_summary stats_map field then
      match stats_map !! field with
      | Some stats =>
          lo ← getitem stats "healthy_low";
          hi ← getitem stats "healthy_high";
          avg ← getitem stats "mean";
          chart ← chart_loop stats_map rest;
          Ok ({| label := title (replace_underscore field);
                 user_value := value;
                 recommended := {| low := lo; high := hi |};
                 population_avg := avg |} :: chart)
      | None => chart_loop stats_map rest
      end
    else chart_loop stats_map rest.
Proof.
  simpl. unfold has_summary, dict_get.
  destruct (stats_map !! field) as [stats|]; simpl.
  - destruct (dict_truthy stats); reflexivity.
  - destruct (dict_truthy (∅ : gmap string R)); reflexivity.
Qed.

Lemma chart_loop_points (stats_map : gmap string (gmap string R))
    (fields : list (string * R)) (chart : list ChartDatum) :
  chart_loop stats_map fields = Ok chart →
  Forall2 (λ fv datum, chart_point stats_map fv.1 fv.2 datum)
    (filter (λ fv, has_summary stats_map fv.1 = true) fields) chart.
Proof.
  revert chart. induction fields as [|[field value] rest IH]; intros chart.
  - intros [= <-]. constructor.
  - rewrite chart_loop_step, filter_cons. simpl.
    destruct (has_summary stats_map field) eqn:Hs.
    + rewrite decide_True by reflexivity.
      apply has_summary_true in Hs as (stats & Hf & Hne). rewrite Hf.
      intros H. apply bind_Ok in H as (lo & Hlo & H).
      apply bind_Ok in H as (hi & Hhi & H).
      apply bind_Ok in H as (avg & Havg & H).
      apply bind_Ok in H as (ch & Hch & [= <-]).
      apply getitem_Ok in Hlo, Hhi, Havg.
      constructor; [| apply IH, Hch].
      exists stats, lo, hi, avg. auto.
    + rewrite decide_False by discriminate. apply IH.
Qed.

(** X12. When [_chart_data] returns, the chart has one comparison point for
    each of the display fields bp_systolic, cholesterol, max_heart_rate and
    sugar_level whose summary is present and not empty, in that order and
    for no other field; the point carries the title-cased label, the
    request's value, and the healthy range and mean of the summary. *)
Theorem chart_data_points (self : HeartAttackPredictor)
    (payload : HealthPredictionRequest) (chart : list ChartDatum) :
  _chart_data self payload = Ok chart →
  Forall2 (λ fv datum, chart_point (_stats self) fv.1 fv.2 datum)
    (filter (λ fv, has_summary (_stats self) fv.1 = true)
       [("bp_systolic", bp_systolic payload);
        ("cholesterol", cholesterol payload);
        ("max_heart_rate", max_heart_rate payload);
        ("sugar_level", sugar_level payload)])
    chart ∧
  (length chart ≤ 4)%nat ∧
  map label chart
    `sublist_of` ["Bp Systolic"; "Cholesterol"; "Max Heart Rate";
                  "Sugar Level"].
Proof.
  intros Hchart. unfold _chart_data in Hchart.
  pose proof (chart_loop_points _ _ _ Hchart) as Hpoints.
  split; [exact Hpoints |].
  unfold chart_fields in Hpoints.
  set (fields := [("bp_systolic", bp_systolic payload);
                  ("cholesterol", cholesterol payload);
                  ("max_heart_rate", max_heart_rate payload);
                  ("sugar_level", sugar_level payload)]) in *.
  assert (Hlabels : map label chart
            = map (λ fv, title (replace_underscore fv.1))
                (filter (λ fv, has_summary (_stats self) fv.1 = true) fields)).
  { clear Hchart. induction Hpoints as [|fv datum fs ds Hp _ IH];
      [reflexivity |].
    simpl. rewrite IH. f_equal.
    destruct Hp as (stats & lo & hi & avg & _ & _ & _ & _ & ->). reflexivity. }
  split.
  - apply Forall2_length in Hpoints. rewrite <- Hpoints.
    etransitivity; [apply length_filter |]. reflexivity.
  - rewrite Hlabels.
    change ["Bp Systolic"; "Cholesterol"; "Max Heart Rate"; "Sugar Level"]
      with (map (λ fv : string * R, title (replace_underscore fv.1)) fields).
    apply fmap_sublist, sublist_filter.
Qed.

Lemma chart_data_points_witness :
  ∃ chart,
    _chart_data Scenarios.active_norm_predictor Scenarios.sample_request
    = Ok chart ∧
    (length chart ≤ 4)%nat.
Proof.
  exists []. assert (H : _chart_data Scenarios.active_norm_predictor
                           Scenarios.sample_request = Ok []) by reflexivity.
  split; [exact H |].
  apply (chart_data_points _ _ [] H).
Defined.

Lemma chart_loop_ready (stats_map : gmap string (gmap string R))
    (fields : list (string * R)) :
  Forall (λ fv, chart_ready stats_map fv.1) fields →
  ∃ chart, chart_loop stats_map fields = Ok chart.
Proof.
  intros Hready. apply PredictorFacts.chart_loop_Ok.
  intros field stats Hin Hlk Hne.
  apply list_elem_of_fmap in Hin as ([f v] & -> & Hin).
  rewrite Forall_forall in Hready. apply (Hready (f, v) Hin stats Hlk Hne).
Qed.

Lemma chart_loop_raise (stats_map : gmap string (gmap string R))
    (before : list (string * R)) (field : string) (value : R)
    (after : list (string * R)) (stats : gmap string R) (key : string) :
  Forall (λ fv, chart_ready stats_map fv.1) before →
  stats_map !! field = Some stats → stats ≠ ∅ →
  (lo ← getitem stats "healthy_low";
   hi ← getitem stats "healthy_high";
   getitem stats "mean") = Raise (KeyError key) →
  chart_loop stats_map (before ++ (field, value) :: after)
  = Raise (KeyError key).
Proof.
  intros Hbefore Hlk Hne Hkeys.
  induction before as [|[f v] before IH].
  - simpl. rewrite Hlk. apply dict_truthy_true in Hne. rewrite Hne.
    destruct (getitem stats "healthy_low") as [lo|e]; simpl in *;
      [| injection Hkeys as ->; reflexivity].
    destruct (getitem stats "healthy_high") as [hi|e]; simpl in *;
      [| injection Hkeys as ->; reflexivity].
    rewrite Hkeys. reflexivity.
  - apply Forall_cons in Hbefore as [Hf Hbefore]. specialize (IH Hbefore).
    rewrite <- app_comm_cons, chart_loop_step, IH.
    destruct (has_summary stats_map f) eqn:Hs; [| reflexivity].
    apply has_summary_true in Hs as (st & Hst & Hstne). rewrite Hst.
    destruct (Hf st Hst Hstne) as ([lo Hlo] & [hi Hhi] & [avg Havg]).
    unfold getitem. simpl in *. rewrite Hlo, Hhi, Havg. reflexivity.
Qed.

(** X13. A display field is skipped only when its summary is absent or
    empty. A summary that is there but lacks one of the keys healthy_low,
    healthy_high, mean makes [_chart_data], and with it [predict], raise
    [KeyError] for the first key that is missing, once the fields before
    it are served. *)
Theorem chart_data_missing_key (self : HeartAttackPredictor)
    (payload : HealthPredictionRequest) (before : list (string * R))
    (field : string) (value : R) (after : list (string * R))
    (stats : gmap string R) :
  chart_fields payload = before ++ (field, value) :: after →
  Forall (λ fv, chart_ready (_stats self) fv.1) before →
  _stats self !! field = Some stats → stats ≠ ∅ →
  (stats !! "healthy_low" = None →
   _chart_data self payload = Raise (KeyError "healthy_low")) ∧
  (is_Some (stats !! "healthy_low") → stats !! "healthy_high" = None →
   _chart_data self payload = Raise (KeyError "healthy_high")) ∧
  (is_Some (stats !! "healthy_low") → is_Some (stats !! "healthy_high") →
   stats !! "mean" = None →
   _chart_data self payload = Raise (KeyError "mean")) ∧
  (∀ key vector,
     _chart_data self payload = Raise (KeyError key) →
     weights self ≠ [] → _request_vector self payload = Ok vector →
     predict self payload = Raise (KeyError key)).
Proof.
  intros Hfields Hbefore Hlk Hne. unfold _chart_data. rewrite Hfields.
  split; [| split; [| split]].
  - intros Hlo. apply (chart_loop_raise _ _ _ _ _ stats); try assumption.
    unfold getitem. rewrite Hlo. reflexivity.
  - intros [lo Hlo] Hhi.
    apply (chart_loop_raise _ _ _ _ _ stats); try assumption.
    unfold getitem. rewrite Hlo, Hhi. reflexivity.
  - intros [lo Hlo] [hi Hhi] Hmean.
    apply (chart_loop_raise _ _ _ _ _ stats); try assumption.
    unfold getitem. rewrite Hlo, Hhi, Hmean. reflexivity.
  - intros key vector Hchart Hw Hvec. unfold predict.
    destruct (weights self); [contradiction |].
    rewrite Hvec, bind_ret. unfold _chart_data. rewrite Hfields, Hchart.
    reflexivity.
Qed.

Lemma chart_data_missing_key_witness :
  _chart_data Scenarios.partial_stats_predictor Scenarios.sample_request
  = Raise (KeyError "healthy_high").
Proof.
  apply (chart_data_missing_key Scenarios.partial_stats_predictor
           Scenarios.sample_request
           [("bp_systolic", 118)] "cholesterol" 180
           [("max_heart_rate", 150); ("sugar_level", 92)]
           {[ "healthy_low" := 125; "mean" := 240 ]}).
  - reflexivity.
  - constructor; [| constructor]. intros stats Hlk. simpl in Hlk.
    discriminate Hlk.
  - reflexivity.
  - apply insert_non_empty.
  - eexists. reflexivity.
  - reflexivity.
Defined.

End PredictorCoverage.

(** ** The artifact files: the rest of loading and persisting *)

Module ArtifactCoverage.
Import Config Store Schemas TrainModel Predictor Spec Notions.

(** X14. [load_artifacts] checks the two required files before it reads
    anything: without the model file it raises [FileNotFoundError] for the
    model, whatever else is there; with the model file but without the
    stats file it raises [FileNotFoundError] for the stats, also when the
    model file lacks its keys.  With both files and a complete model, it
    returns: the stats are the value under "feature_stats" when the stats
    file has that key and the whole file otherwise, and the report is
    optional (no file, or no "feature_importance" in it, gives an empty
    importance map). *)
Theorem load_artifacts_files (self : HeartAttackPredictor) (st : store) :
  (st !! self_model_path self = None →
   load_artifacts self st
   = Raise (FileNotFoundError
              ("Model artifact missing at " +:+ self_model_path self))) ∧
  (is_Some (st !! self_model_path self) →
   st !! self_stats_path self = None →
   load_artifacts self st
   = Raise (FileNotFoundError
              ("Feature stats missing at " +:+ self_stats_path self))) ∧
  (∀ fo w b sc wrapped top,
     st !! self_model_path self
       = Some (ModelDoc (model_payload fo w b sc)) →
     st !! self_stats_path self
       = Some (StatsDoc {| doc_feature_stats := wrapped;
                           doc_top_level := top |}) →
     ∃ self',
       load_artifacts self st = Ok self' ∧
       _stats self' = default top wrapped ∧
       (st !! self_report_path self = None → _feature_importance self' = ∅) ∧
       (∀ report,
          st !! self_report_path self = Some (ReportDoc report) →
          _feature_importance self'
          = default ∅ (doc_feature_importance report))).
Proof.
  split; [| split].
  - intros Hm. unfold load_artifacts. rewrite Hm. reflexivity.
  - intros [model_file Hm] Hs. unfold load_artifacts. rewrite Hm, Hs.
    reflexivity.
  - intros fo w b sc wrapped top Hm Hs. unfold load_artifacts.
    rewrite Hm, Hs. simpl. eexists. split; [reflexivity |].
    split; [reflexivity |]. split.
    + intros ->. reflexivity.
    + intros report ->. reflexivity.
Qed.

Lemma load_artifacts_files_witness :
  load_artifacts Scenarios.toy_predictor ∅
  = Raise (FileNotFoundError
             ("Model artifact missing at "
              +:+ self_model_path Scenarios.toy_predictor)).
Proof.
  apply (load_artifacts_files Scenarios.toy_predictor ∅). reflexivity.
Defined.



(** X16. [persist_artifacts] writes the three configured paths and nothing
    else: every other file is left as it was, the three paths exist
    afterwards, and persisting again replaces what was persisted before (the
    result is the same as persisting the later artifact alone). *)
Theorem persist_artifacts_frame (settings : Settings)
    (payload payload' : ModelDocument)
    (feature_stats feature_stats' : gmap string (gmap string R))
    (report report' : ReportDocument) (st : store) :
  (∀ path,
     path ≠ model_path settings → path ≠ stats_path settings →
     path ≠ report_path settings →
     persist_artifacts settings payload feature_stats report st !! path
     = st !! path) ∧
  (∀ path,
     path = model_path settings ∨ path = stats_path settings
     ∨ path = report_path settings →
     is_Some
       (persist_artifacts settings payload feature_stats report st !! path)) ∧
  persist_artifacts settings payload' feature_stats' report'
    (persist_artifacts settings payload feature_stats report st)
  = persist_artifacts settings payload' feature_stats' report' st.
Proof.
  unfold persist_artifacts. split; [| split].
  - intros path Hm Hs Hr. rewrite !lookup_insert_ne by congruence.
    reflexivity.
  - intros path Hpath. rewrite !lookup_insert.
    repeat case_decide; eauto. destruct Hpath as [-> | [-> | ->]];
      contradiction.
  - apply map_eq. intros path. rewrite !lookup_insert.
    repeat case_decide; reflexivity.
Qed.

Lemma persist_artifacts_frame_witness :
  persist_artifacts default_settings
    (model_payload ["age"] [1] 0 ∅) ∅ Scenarios.sample_report
    Scenarios.mismatched_store !! "notes.txt"
  = Scenarios.mismatched_store !! "notes.txt".
Proof.
  apply (persist_artifacts_frame default_settings
           (model_payload ["age"] [1] 0 ∅) (model_payload ["age"] [1] 0 ∅)
           ∅ ∅ Scenarios.sample_report Scenarios.sample_report
           Scenarios.mismatched_store); discriminate.
Defined.

End ArtifactCoverage.

(** ** The trainer: dataset, summaries, training loop, evaluation, [main] *)

Module DatasetFacts.
Import Config Store TrainModel Spec Training.

Lemma target_not_feature : "target" ∉ FEATURE_ORDER.
Proof.
  intros Hin. unfold FEATURE_ORDER in Hin.
  repeat (apply elem_of_cons in Hin as [Hin | Hin]; [discriminate |]).
  apply elem_of_nil in Hin. contradiction.
Qed.

Lemma parse_feature_Ok (c : cell) (value : option R) :
  parse_feature c = Ok value →
  (c = Unknown ∧ value = None) ∨ ∃ x, c = Number x ∧ value = Some x.
Proof.
  destruct c; simpl; intros [= <-]; [left | right]; eauto.
Qed.

(** The reading loop stores, for every feature, the number of its cell, or
    [None] for ["?"]; the other keys of the record are left alone. *)
Lemma read_features_Ok (row : gmap string cell) (features : list string)
    (record record' : gmap string (option R)) :
  read_features row features record = Ok record' →
  (∀ feature, feature ∈ features →
     (row !! feature = Some Unknown ∧ record' !! feature = Some None) ∨
     ∃ x, row !! feature = Some (Number x)
          ∧ record' !! feature = Some (Some x)) ∧
  (∀ key, key ∉ features → record' !! key = record !! key).
Proof.
  revert record. induction features as [|feature rest IH]; intros record Hrun.
  - injection Hrun as <-. split; [| reflexivity].
    intros f Hf. apply elem_of_nil in Hf. contradiction.
  - simpl in Hrun. apply bind_Ok in Hrun as (c & Hc & Hrun).
    apply bind_Ok in Hrun as (value & Hvalue & Hrun).
    apply getitem_Ok in Hc.
    destruct (IH _ Hrun) as [Hrest Hframe]. split.
    + intros f Hf. destruct (decide (f ∈ rest)) as [Hin | Hnot].
      * apply Hrest, Hin.
      * apply elem_of_cons in Hf as [-> | Hf]; [| contradiction].
        rewrite (Hframe feature Hnot), lookup_insert_eq.
        apply parse_feature_Ok in Hvalue as [[-> ->] | (x & -> & ->)];
          [left | right]; eauto.
    + intros key Hkey. apply not_elem_of_cons in Hkey as [Hne Hkey].
      rewrite (Hframe key Hkey), lookup_insert_ne by congruence.
      reflexivity.
Qed.

Lemma read_features_total (row : gmap string cell) (features : list string)
    (record : gmap string (option R)) :
  (∀ feature, feature ∈ features →
     row !! feature = Some Unknown ∨ ∃ x, row !! feature = Some (Number x)) →
  ∃ record', read_features row features record = Ok record'.
Proof.
  revert record. induction features as [|feature rest IH]; intros record Hrow.
  - simpl. eauto.
  - simpl. unfold getitem.
    destruct (Hrow feature) as [-> | [x ->]]; [left | |]; simpl;
      apply IH; intros f Hf; apply Hrow; right; exact Hf.
Qed.


(** The value a record holds for a feature of a row. *)
Lemma read_record_Ok (row : gmap string cell)
    (record : gmap string (option R)) :
  read_record row = Ok record →
  readable row ∧
  (∀ feature, feature ∈ FEATURE_ORDER →
     record !! feature = Some (cell_number row feature)) ∧
  (∃ t, row !! "target" = Some (Number t) ∧
        record !! "target" = Some (Some (if decide (t >= 1) then 1 else 0))).
Proof.
  unfold read_record. intros Hrun.
  apply bind_Ok in Hrun as (features & Hfeatures & Hrun).
  apply bind_Ok in Hrun as (c & Hc & Hrun).
  apply bind_Ok in Hrun as (t & Ht & [= <-]).
  apply getitem_Ok in Hc.
  apply read_features_Ok in Hfeatures as [Hcells _].
  destruct c as [|x|]; try discriminate. injection Ht as <-.
  split; [split |]; [| eauto | split].
  - intros feature Hin.
    destruct (Hcells feature Hin) as [[-> _] | (y & -> & _)]; eauto.
  - intros feature Hin.
    rewrite lookup_insert_ne.
    2:{ intros <-. apply target_not_feature, Hin. }
    unfold cell_number.
    destruct (Hcells feature Hin) as [[-> ->] | (y & -> & ->)]; reflexivity.
  - exists x. rewrite lookup_insert_eq. auto.
Qed.

Lemma read_record_total (row : gmap string cell) :
  readable row → ∃ record, read_record row = Ok record.
Proof.
  intros [Hcells [t Ht]]. unfold read_record.
  destruct (read_features_total row FEATURE_ORDER ∅ Hcells) as [record ->].
  rewrite bind_ret. unfold getitem. rewrite Ht. simpl. eauto.
Qed.


Lemma read_rows_Ok (csv : list (gmap string cell))
    (raw_rows : list (gmap string (option R))) :
  read_rows csv = Ok raw_rows →
  Forall2 (λ row record, read_record row = Ok record) csv raw_rows.
Proof.
  revert raw_rows. induction csv as [|row rest IH]; intros raw_rows Hrun.
  - injection Hrun as <-. constructor.
  - simpl in Hrun. apply bind_Ok in Hrun as (record & Hrecord & Hrun).
    apply bind_Ok in Hrun as (records & Hrecords & [= <-]).
    constructor; [exact Hrecord | apply IH, Hrecords].
Qed.

Lemma read_rows_total (csv : list (gmap string cell)) :
  Forall readable csv → ∃ raw_rows, read_rows csv = Ok raw_rows.
Proof.
  induction 1 as [|row rest Hrow _ [records IH]]; simpl; [eauto |].
  destruct (read_record_total row Hrow) as [record ->].
  rewrite bind_ret, IH. simpl. eauto.
Qed.



(** The known values of a column are the numbers of its cells. *)
Lemma known_values_Ok (csv : list (gmap string cell))
    (raw_rows : list (gmap string (option R))) (feature : string) :
  Forall2 (λ row record, read_record row = Ok record) csv raw_rows →
  feature ∈ FEATURE_ORDER →
  known_values raw_rows feature = Ok (known_cells csv feature).
Proof.
  intros Hrows Hin.
  induction Hrows as [|row record csv raw_rows Hrecord _ IH]; [reflexivity |].
  apply read_record_Ok in Hrecord as (_ & Hcells & _).
  simpl. unfold getitem. rewrite (Hcells feature Hin). simpl. rewrite IH.
  simpl. unfold known_cells. simpl. fold (cell_number row feature).
  destruct (cell_number row feature); reflexivity.
Qed.

(** The loop over the features writes, for every feature, the mean of the
    known values of its column; the other keys are left alone. *)
Lemma feature_means_loop_Ok (raw_rows : list (gmap string (option R)))
    (features : list string) (feature_means feature_means' : gmap string R) :
  feature_means_loop raw_rows features feature_means = Ok feature_means' →
  (∀ feature, feature ∈ features →
     ∃ values,
       known_values raw_rows feature = Ok values ∧ values ≠ [] ∧
       feature_means' !! feature = Some (population_mean values)) ∧
  (∀ key, key ∉ features → feature_means' !! key = feature_means !! key).
Proof.
  revert feature_means.
  induction features as [|feature rest IH]; intros feature_means Hrun.
  - injection Hrun as <-. split; [| reflexivity].
    intros f Hf. apply elem_of_nil in Hf. contradiction.
  - simpl in Hrun. apply bind_Ok in Hrun as (values & Hvalues & Hrun).
    apply bind_Ok in Hrun as (mean & Hmean & Hrun).
    apply truediv_Ok in Hmean as [Hlen ->].
    destruct (IH _ Hrun) as [Hrest Hframe]. split.
    + intros f Hf. destruct (decide (f ∈ rest)) as [Hin | Hnot].
      * apply Hrest, Hin.
      * apply elem_of_cons in Hf as [-> | Hf]; [| contradiction].
        exists values. split; [exact Hvalues |]. split.
        -- intros ->. apply Hlen. reflexivity.
        -- rewrite (Hframe feature Hnot), lookup_insert_eq. reflexivity.
    + intros key Hkey. apply not_elem_of_cons in Hkey as [Hne Hkey].
      rewrite (Hframe key Hkey), lookup_insert_ne by congruence.
      reflexivity.
Qed.

Lemma feature_means_loop_total (raw_rows : list (gmap string (option R)))
    (features : list string) (feature_means : gmap string R) :
  (∀ feature, feature ∈ features →
     ∃ values, known_values raw_rows feature = Ok values ∧ values ≠ []) →
  ∃ feature_means',
    feature_means_loop raw_rows features feature_means = Ok feature_means'.
Proof.
  revert feature_means.
  induction features as [|feature rest IH]; intros feature_means Hknown.
  - simpl. eauto.
  - simpl. destruct (Hknown feature) as (values & -> & Hne); [left |].
    rewrite bind_ret, truediv_nonzero.
    2:{ apply not_0_INR. destruct values; [contradiction | discriminate]. }
    rewrite bind_ret. apply IH. intros f Hf. apply Hknown. right. exact Hf.
Qed.

(** A column without any known value stops the loop with a division by
    zero. *)
Lemma feature_means_loop_raise (raw_rows : list (gmap string (option R)))
    (features : list string) (feature_means : gmap string R) :
  (∀ feature, feature ∈ features →
     ∃ values, known_values raw_rows feature = Ok values) →
  (∃ feature, feature ∈ features ∧ known_values raw_rows feature = Ok []) →
  feature_means_loop raw_rows features feature_means = Raise ZeroDivisionError.
Proof.
  revert feature_means.
  induction features as [|feature rest IH];
    intros feature_means Hknown (bad & Hbad & Hempty).
  - apply elem_of_nil in Hbad. contradiction.
  - simpl. destruct (Hknown feature) as (values & Hvalues); [left |].
    rewrite Hvalues, bind_ret. destruct values as [|v values].
    + unfold truediv. simpl. rewrite decide_True by reflexivity. reflexivity.
    + rewrite truediv_nonzero by (apply not_0_INR; discriminate).
      rewrite bind_ret. apply IH.
      * intros f Hf. apply Hknown. right. exact Hf.
      * exists bad. split; [| exact Hempty].
        apply elem_of_cons in Hbad as [-> | Hbad]; [| exact Hbad].
        rewrite Hvalues in Hempty. discriminate.
Qed.

(** The cleaning loop keeps a known value and fills an unknown one with the
    mean of the feature. *)
Lemma clean_features_Ok (entry : gmap string (option R))
    (feature_means : gmap string R) (features : list string)
    (cleaned cleaned' : gmap string R) :
  clean_features entry feature_means features cleaned = Ok cleaned' →
  (∀ feature, feature ∈ features →
     (∃ x, entry !! feature = Some (Some x) ∧ cleaned' !! feature = Some x) ∨
     (∃ mean, entry !! feature = Some None ∧
              feature_means !! feature = Some mean ∧
              cleaned' !! feature = Some mean)) ∧
  (∀ key, key ∉ features → cleaned' !! key = cleaned !! key).
Proof.
  revert cleaned.
  induction features as [|feature rest IH]; intros cleaned Hrun.
  - injection Hrun as <-. split; [| reflexivity].
    intros f Hf. apply elem_of_nil in Hf. contradiction.
  - simpl in Hrun. apply bind_Ok in Hrun as (value & Hvalue & Hrun).
    apply bind_Ok in Hrun as (filled & Hfilled & Hrun).
    apply getitem_Ok in Hvalue.
    destruct (IH _ Hrun) as [Hrest Hframe]. split.
    + intros f Hf. destruct (decide (f ∈ rest)) as [Hin | Hnot].
      * apply Hrest, Hin.
      * apply elem_of_cons in Hf as [-> | Hf]; [| contradiction].
        rewrite (Hframe feature Hnot), lookup_insert_eq.
        destruct value as [x|].
        -- injection Hfilled as <-. left. eauto.
        -- apply getitem_Ok in Hfilled. right. eauto.
    + intros key Hkey. apply not_elem_of_cons in Hkey as [Hne Hkey].
      rewrite (Hframe key Hkey), lookup_insert_ne by congruence.
      reflexivity.
Qed.

Lemma clean_features_total (entry : gmap string (option R))
    (feature_means : gmap string R) (features : list string)
    (cleaned : gmap string R) :
  (∀ feature, feature ∈ features →
     is_Some (entry !! feature) ∧ is_Some (feature_means !! feature)) →
  ∃ cleaned', clean_features entry feature_means features cleaned = Ok cleaned'.
Proof.
  revert cleaned.
  induction features as [|feature rest IH]; intros cleaned Hkeys.
  - simpl. eauto.
  - simpl. destruct (Hkeys feature) as [[value Hvalue] [mean Hmean]]; [left |].
    unfold getitem. rewrite Hvalue. simpl.
    destruct value as [x|]; [| rewrite Hmean]; simpl;
      apply IH; intros f Hf; apply Hkeys; right; exact Hf.
Qed.

Lemma clean_rows_Ok (raw_rows : list (gmap string (option R)))
    (feature_means : gmap string R) (rows : list (gmap string R)) :
  clean_rows raw_rows feature_means = Ok rows →
  Forall2 (λ entry row, clean_entry entry feature_means = Ok row)
          raw_rows rows.
Proof.
  revert rows. induction raw_rows as [|entry rest IH]; intros rows Hrun.
  - injection Hrun as <-. constructor.
  - simpl in Hrun. apply bind_Ok in Hrun as (row & Hrow & Hrun).
    apply bind_Ok in Hrun as (others & Hothers & [= <-]).
    constructor; [exact Hrow | apply IH, Hothers].
Qed.

Lemma clean_rows_total (raw_rows : list (gmap string (option R)))
    (feature_means : gmap string R) :
  Forall (λ entry, ∃ row, clean_entry entry feature_means = Ok row)
         raw_rows →
  ∃ rows, clean_rows raw_rows feature_means = Ok rows.
Proof.
  induction 1 as [|entry rest [row Hrow] _ [rows IH]]; simpl; [eauto |].
  rewrite Hrow, bind_ret, IH. simpl. eauto.
Qed.


Lemma Forall2_compose {A B C} (P : A → B → Prop) (Q : B → C → Prop)
    (l1 : list A) (l2 : list B) (l3 : list C) :
  Forall2 P l1 l2 → Forall2 Q l2 l3 →
  Forall2 (λ a c, ∃ b, P a b ∧ Q b c) l1 l3.
Proof.
  intros H12. revert l3. induction H12 as [|a b l1 l2 Hab _ IH]; intros l3 H23.
  - apply Forall2_nil_inv_l in H23 as ->. constructor.
  - apply Forall2_cons_inv_l in H23 as (c & l3' & Hbc & H23 & ->).
    constructor; [eauto | apply IH, H23].
Qed.

(** One row through reading and cleaning. *)
Lemma clean_entry_Ok (csv : list (gmap string cell)) (raw : gmap string cell)
    (record : gmap string (option R)) (feature_means : gmap string R)
    (row : gmap string R) :
  (∀ feature, feature ∈ FEATURE_ORDER →
     known_cells csv feature ≠ [] ∧
     feature_means !! feature
     = Some (population_mean (known_cells csv feature))) →
  read_record raw = Ok record →
  clean_entry record feature_means = Ok row →
  cleaned_from csv raw row.
Proof.
  intros Hmeans Hread Hclean.
  apply read_record_Ok in Hread
    as ([Hreadable _] & Hcells & t & Hraw & Htarget).
  unfold clean_entry in Hclean.
  apply bind_Ok in Hclean as (cleaned & Hcleaned & Hclean).
  unfold getitem in Hclean. rewrite Htarget in Hclean. simpl in Hclean.
  injection Hclean as <-.
  apply clean_features_Ok in Hcleaned as [Hfilled Hframe].
  assert (Hfeature : ∀ feature, feature ∈ FEATURE_ORDER →
            (∃ x, raw !! feature = Some (Number x)
                  ∧ cleaned !! feature = Some x) ∨
            (raw !! feature = Some Unknown ∧ known_cells csv feature ≠ [] ∧
             cleaned !! feature
             = Some (population_mean (known_cells csv feature)))).
  { intros feature Hin. specialize (Hcells feature Hin).
    destruct (Hmeans feature Hin) as [Hknown Hmean].
    unfold cell_number in Hcells.
    destruct (Hreadable feature Hin) as [Hcell | [y Hcell]];
      rewrite Hcell in Hcells;
      destruct (Hfilled feature Hin)
        as [(x & Hx & Hlk) | (mean & Hx & Hm & Hlk)];
      rewrite Hcells in Hx; try discriminate.
    - right. rewrite Hmean in Hm. injection Hm as <-. auto.
    - left. injection Hx as <-. eauto. }
  assert (Hne : ∀ feature, feature ∈ FEATURE_ORDER → feature ≠ "target").
  { intros feature Hin ->. apply target_not_feature, Hin. }
  split; [| split].
  - intros key. destruct (decide (key = "target")) as [-> | Hkey].
    + rewrite lookup_insert_eq. split; [auto | eauto].
    + rewrite lookup_insert_ne by congruence.
      destruct (decide (key ∈ FEATURE_ORDER)) as [Hin | Hnot].
      * split; [auto |]. intros _.
        destruct (Hfeature key Hin) as [(x & _ & ->) | (_ & _ & ->)]; eauto.
      * rewrite (Hframe key Hnot), lookup_empty. split.
        -- intros Hsome. apply is_Some_None in Hsome. contradiction.
        -- intros [Hin | Heq]; contradiction.
  - exists t. rewrite lookup_insert_eq. auto.
  - intros feature Hin. rewrite lookup_insert_ne
      by (intros Heq; apply (Hne feature Hin); symmetry; exact Heq).
    apply Hfeature, Hin.
Qed.

Lemma load_dataset_rows (csv : list (gmap string cell))
    (rows : list (gmap string R)) :
  load_dataset csv = Ok rows → Forall2 (cleaned_from csv) csv rows.
Proof.
  unfold load_dataset. intros Hrun.
  apply bind_Ok in Hrun as (raw_rows & Hread & Hrun).
  apply bind_Ok in Hrun as (feature_means & Hmeans & Hclean).
  apply read_rows_Ok in Hread. apply clean_rows_Ok in Hclean.
  apply feature_means_loop_Ok in Hmeans as [Hmeans _].
  eapply Forall2_impl; [exact (Forall2_compose _ _ _ _ _ Hread Hclean) |].
  intros raw row (record & Hrecord & Hrow).
  eapply clean_entry_Ok; [| exact Hrecord | exact Hrow].
  intros feature Hin.
  destruct (Hmeans feature Hin) as (values & Hvalues & Hne & Hlk).
  rewrite (known_values_Ok csv raw_rows feature Hread Hin) in Hvalues.
  injection Hvalues as <-. auto.
Qed.

Lemma load_dataset_total (csv : list (gmap string cell)) :
  Forall readable csv →
  (∀ feature, feature ∈ FEATURE_ORDER → known_cells csv feature ≠ []) →
  ∃ rows, load_dataset csv = Ok rows.
Proof.
  intros Hreadable Hknown. unfold load_dataset.
  destruct (read_rows_total csv Hreadable) as [raw_rows Hread].
  rewrite Hread, bind_ret. apply read_rows_Ok in Hread.
  destruct (feature_means_loop_total raw_rows FEATURE_ORDER ∅)
    as [feature_means Hmeans].
  { intros feature Hin. exists (known_cells csv feature).
    split; [apply (known_values_Ok csv); assumption | apply Hknown, Hin]. }
  rewrite Hmeans, bind_ret.
  apply feature_means_loop_Ok in Hmeans as [Hmeans _].
  assert (Hkeys : ∀ feature, feature ∈ FEATURE_ORDER →
            is_Some (feature_means !! feature)).
  { intros feature Hin.
    destruct (Hmeans feature Hin) as (values & _ & _ & ->). eauto. }
  apply clean_rows_total.
  clear Hreadable Hknown Hmeans.
  induction Hread as [|raw record csv' raw_rows' Hrecord _ IH];
    constructor; [| exact IH].
  apply read_record_Ok in Hrecord as (_ & Hcells & t & _ & Htarget).
  unfold clean_entry.
  destruct (clean_features_total record feature_means FEATURE_ORDER ∅)
    as [cleaned ->].
  { intros feature Hin. split; [rewrite (Hcells feature Hin); eauto |].
    apply Hkeys, Hin. }
  rewrite bind_ret. unfold getitem. rewrite Htarget. simpl. eauto.
Qed.

Lemma load_dataset_no_known (csv : list (gmap string cell)) :
  Forall readable csv →
  (∃ feature, feature ∈ FEATURE_ORDER ∧ known_cells csv feature = []) →
  load_dataset csv = Raise ZeroDivisionError.
Proof.
  intros Hreadable (bad & Hbad & Hempty). unfold load_dataset.
  destruct (read_rows_total csv Hreadable) as [raw_rows Hread].
  rewrite Hread, bind_ret. apply read_rows_Ok in Hread.
  rewrite feature_means_loop_raise; [reflexivity | |].
  - intros feature Hin. exists (known_cells csv feature).
    apply (known_values_Ok csv); assumption.
  - exists bad. split; [exact Hbad |]. rewrite <- Hempty.
    apply (known_values_Ok csv); assumption.
Qed.

Lemma csv_row_readable (age_cell : cell) (target : R) :
  age_cell ≠ Malformed → readable (csv_row age_cell target).
Proof.
  intros Hage. split; [| exists target; reflexivity].
  intros feature Hin. unfold FEATURE_ORDER in Hin.
  apply elem_of_cons in Hin as [-> | Hin].
  { replace (csv_row age_cell target !! "age") with (Some age_cell)
      by reflexivity.
    destruct age_cell; [left | right | contradiction]; eauto. }
  repeat (apply elem_of_cons in Hin as [-> | Hin];
          [right; eexists; reflexivity |]).
  apply elem_of_nil in Hin. contradiction.
Qed.

Lemma sample_csv_loads : ∃ rows, load_dataset sample_csv = Ok rows.
Proof.
  apply load_dataset_total.
  - unfold sample_csv.
    repeat (apply Forall_cons_2; [apply csv_row_readable; discriminate |]).
    apply Forall_nil_2.
  - intros feature Hin. unfold FEATURE_ORDER in Hin.
    repeat (apply elem_of_cons in Hin as [-> | Hin]; [discriminate |]).
    apply elem_of_nil in Hin. contradiction.
Qed.

(** X17. The rows that [load_dataset] returns are the rows of the file, in
    the same order and number; each has exactly the thirteen features and
    the target; a number in the file is kept, an unknown cell ["?"] is
    replaced by the mean of the numbers of its column, and the target is 1
    when the file's target is at least 1 and 0 otherwise.  So every
    returned row is complete, as [compute_scaling] needs. *)
Theorem load_dataset_imputes (csv : list (gmap string cell))
    (rows : list (gmap string R)) :
  load_dataset csv = Ok rows →
  length rows = length csv ∧
  Forall2 (cleaned_from csv) csv rows ∧
  Forall complete_row rows.
Proof.
  intros Hrun. apply load_dataset_rows in Hrun.
  split; [symmetry; eapply Forall2_length, Hrun |].
  split; [exact Hrun |].
  induction Hrun as [|raw row csv' rows' [Hkeys _] _ IH]; constructor.
  - intros feature Hin. apply Hkeys. left. exact Hin.
  - exact IH.
Qed.

Lemma load_dataset_imputes_witness :
  ∃ rows, load_dataset sample_csv = Ok rows ∧ length rows = 2%nat.
Proof.
  destruct sample_csv_loads as [rows Hrun]. exists rows.
  split; [exact Hrun |].
  apply (load_dataset_imputes sample_csv rows Hrun).
Defined.



End DatasetFacts.

(** ** The summaries of [compute_feature_stats] *)

Module SummaryFacts.
Import Config Store Schemas TrainModel Predictor Spec Notions Training.

Lemma insert_sorted_Permutation (x : R) (l : list R) :
  insert_sorted x l ≡ₚ x :: l.
Proof.
  induction l as [|y l IH]; simpl; [reflexivity |].
  case_decide; [reflexivity |].
  rewrite IH. apply Permutation_swap.
Qed.

Lemma sorted_Permutation (xs : list R) : sorted xs ≡ₚ xs.
Proof.
  induction xs as [|x xs IH]; simpl; [reflexivity |].
  rewrite insert_sorted_Permutation, IH. reflexivity.
Qed.

Lemma insert_sorted_ascending (x : R) (l : list R) :
  StronglySorted Rle l → StronglySorted Rle (insert_sorted x l).
Proof.
  induction 1 as [|y l Hl IH Hy]; simpl.
  - constructor; constructor.
  - case_decide.
    + constructor; [constructor; assumption |].
      constructor; [lra |].
      eapply Forall_impl; [exact Hy |]. simpl. intros z Hz. lra.
    + constructor; [exact IH |].
      rewrite insert_sorted_Permutation. constructor; [lra | exact Hy].
Qed.

Lemma sorted_ascending (xs : list R) : StronglySorted Rle (sorted xs).
Proof.
  induction xs as [|x xs IH]; simpl; [constructor |].
  apply insert_sorted_ascending, IH.
Qed.

Lemma ascending_lookup (l : list R) (i j : nat) (a b : R) :
  StronglySorted Rle l →
  l !! i = Some a → l !! j = Some b → (i <= j)%nat → a <= b.
Proof.
  intros Hl. revert i j.
  induction Hl as [|y l Hl IH Hy]; intros i j Hi Hj Hij.
  - rewrite lookup_nil in Hi. discriminate.
  - destruct i as [|i], j as [|j]; simpl in *; try lia.
    + injection Hi as <-. injection Hj as <-. lra.
    + injection Hi as <-. rewrite Forall_forall in Hy.
      apply Hy. eapply list_elem_of_lookup_2, Hj.
    + eapply IH; [exact Hi | exact Hj | lia].
Qed.

Lemma py_sum_Permutation (xs ys : list R) :
  xs ≡ₚ ys → py_sum xs = py_sum ys.
Proof.
  induction 1 as [|x xs ys _ IH|x y xs|xs ys zs _ IH1 _ IH2].
  - reflexivity.
  - rewrite !TrainModelFacts.py_sum_cons, IH. reflexivity.
  - rewrite !TrainModelFacts.py_sum_cons. lra.
  - rewrite IH1. exact IH2.
Qed.

Lemma py_sum_bounds (lo hi : R) (xs : list R) :
  Forall (λ v, lo <= v <= hi) xs →
  INR (length xs) * lo <= py_sum xs <= INR (length xs) * hi.
Proof.
  induction 1 as [|x xs Hx _ IH].
  - unfold py_sum. simpl. lra.
  - rewrite TrainModelFacts.py_sum_cons.
    change (length (x :: xs)) with (S (length xs)). rewrite S_INR. lra.
Qed.

Lemma index_nat (l : list R) (i : Z) :
  (0 <= i < Z.of_nat (length l))%Z →
  ∃ x, index l i = Ok x ∧ l !! Z.to_nat i = Some x.
Proof.
  intros Hi. unfold index.
  assert (Hlt : (i <? 0)%Z = false) by (apply Z.ltb_ge; lia).
  rewrite Hlt. simpl. rewrite Hlt.
  destruct (lookup_lt_is_Some_2 l (Z.to_nat i)) as [x Hx]; [lia |].
  rewrite Hx. eauto.
Qed.

Lemma index_last (l : list R) :
  l ≠ [] →
  ∃ x, index l (-1) = Ok x ∧ l !! (length l - 1)%nat = Some x.
Proof.
  intros Hne. unfold index.
  assert (Hlen : (0 < length l)%nat)
    by (destruct l; [contradiction | simpl; lia]).
  change (-1 <? 0)%Z with true. simpl.
  assert (Hlt : (Z.of_nat (length l) + -1 <? 0)%Z = false)
    by (apply Z.ltb_ge; lia).
  rewrite Hlt.
  replace (Z.to_nat (Z.of_nat (length l) + -1)) with (length l - 1)%nat
    by lia.
  destruct (lookup_lt_is_Some_2 l (length l - 1)) as [x Hx]; [lia |].
  rewrite Hx. eauto.
Qed.

(** The two percentile positions lie in the list, the lower one first. *)
Lemma percentile_positions (n : Z) :
  (1 <= n)%Z →
  let idx10 := Z.max (py_int (10 / 100 * IZR n) - 1) 0 in
  let idx90 := Z.min (py_int (90 / 100 * IZR n)) (n - 1) in
  (0 <= idx10 <= idx90)%Z ∧ (idx90 <= n - 1)%Z.
Proof.
  intros Hn idx10 idx90. subst idx10 idx90.
  assert (Hr : 1 <= IZR n) by (apply IZR_le; exact Hn).
  unfold py_int. rewrite !decide_False by lra.
  destruct (base_Int_part (10 / 100 * IZR n)) as [Hlo10 Hhi10].
  destruct (base_Int_part (90 / 100 * IZR n)) as [Hlo90 Hhi90].
  assert (H10n : (Int_part (10 / 100 * IZR n) <= n)%Z).
  { apply le_IZR. lra. }
  assert (H1090 : (Int_part (10 / 100 * IZR n)
                   < Int_part (90 / 100 * IZR n) + 1)%Z).
  { apply lt_IZR. rewrite plus_IZR. lra. }
  assert (H90 : (-1 < Int_part (90 / 100 * IZR n))%Z).
  { apply lt_IZR. lra. }
  lia.
Qed.

(** [summarize] on a non-empty column. *)
Lemma summarize_Ok (rows : list (gmap string R)) (field : string)
    (values : list R) :
  column rows field = Ok values → values ≠ [] →
  ∃ summary,
    summarize rows field = Ok summary ∧ summary_of values summary ∧
    summary !! "healthy_low" = None ∧ summary !! "healthy_high" = None.
Proof.
  intros Hcol Hne. unfold summarize. rewrite Hcol, bind_ret. cbv zeta.
  pose proof (sorted_Permutation values) as Hperm.
  pose proof (sorted_ascending values) as Hasc.
  assert (Hlen : length (sorted values) = length values)
    by (apply Permutation_length, Hperm).
  assert (Hpos : (1 <= length values)%nat)
    by (destruct values; [contradiction | simpl; lia]).
  assert (Hne' : sorted values ≠ []).
  { intros Hnil. rewrite Hnil in Hlen. simpl in Hlen. lia. }
  set (n := Z.of_nat (length (sorted values))).
  assert (Hn : (1 <= n)%Z) by (subst n; lia).
  destruct (percentile_positions n Hn) as [Hidx10 Hidx90].
  rewrite truediv_nonzero, bind_ret.
  2:{ apply not_0_IZR. lia. }
  destruct (index_nat (sorted values)
              (Z.max (py_int (10 / 100 * IZR n) - 1) 0))
    as (p10 & -> & Hp10); [fold n; lia |].
  rewrite bind_ret.
  destruct (index_nat (sorted values)
              (Z.min (py_int (90 / 100 * IZR n)) (n - 1)))
    as (p90 & -> & Hp90); [fold n; lia |].
  rewrite bind_ret.
  destruct (index_nat (sorted values) 0) as (lo & -> & Hlo); [fold n; lia |].
  rewrite bind_ret.
  destruct (index_last (sorted values) Hne') as (hi & -> & Hhi).
  rewrite bind_ret.
  eexists. split; [reflexivity |].
  assert (Hmean : py_sum (sorted values) / IZR n = population_mean values).
  { unfold population_mean. subst n.
    rewrite (py_sum_Permutation _ _ Hperm), Hlen, INR_IZR_INZ. reflexivity. }
  assert (Hin : ∀ i v, sorted values !! i = Some v → v ∈ values).
  { intros i v Hv. rewrite <- Hperm. eapply list_elem_of_lookup_2, Hv. }
  assert (Hbounds : ∀ v, v ∈ values → lo <= v <= hi).
  { intros v Hv. rewrite <- Hperm in Hv.
    apply list_elem_of_lookup_1 in Hv as [i Hi].
    pose proof (lookup_lt_Some _ _ _ Hi) as Hlt. split.
    - eapply (ascending_lookup _ (Z.to_nat 0) i); eauto. simpl. lia.
    - eapply (ascending_lookup _ i (length (sorted values) - 1)); eauto.
      lia. }
  split; [| split; reflexivity].
  exists lo, p10, p90, hi.
  rewrite Hmean.
  repeat (split; [reflexivity |]).
  split; [eapply Hin, Hlo |]. split; [eapply Hin, Hp10 |].
  split; [eapply Hin, Hp90 |]. split; [eapply Hin, Hhi |].
  split; [exact Hbounds |].
  split; [split |]; [apply Hbounds; eapply Hin, Hp10 | |].
  - eapply ascending_lookup; [exact Hasc | exact Hp10 | exact Hp90 | lia].
  - split; [apply Hbounds; eapply Hin, Hp90 |].
    assert (Hall : Forall (λ v, lo <= v <= hi) values)
      by (apply Forall_forall; exact Hbounds).
    apply py_sum_bounds in Hall. unfold population_mean.
    assert (Hlenpos : 0 < INR (length values)) by (apply lt_0_INR; lia).
    assert (Hprod : py_sum values
                    = INR (length values)
                      * (py_sum values / INR (length values)))
      by (field; lra).
    split; apply Rmult_le_reg_l with (INR (length values)); lra.
Qed.


Lemma summarize_inv (rows : list (gmap string R)) (field : string)
    (summary : gmap string R) :
  summarize rows field = Ok summary →
  rows ≠ [] ∧
  ∃ values,
    column rows field = Ok values ∧ summary_of values summary ∧
    summary !! "healthy_low" = None ∧ summary !! "healthy_high" = None.
Proof.
  intros Hrun.
  destruct (column rows field) as [values | e] eqn:Hcol.
  2:{ unfold summarize in Hrun. rewrite Hcol in Hrun. discriminate. }
  assert (Hne : values ≠ []).
  { intros ->. unfold summarize in Hrun. rewrite Hcol, bind_ret in Hrun.
    simpl in Hrun. unfold truediv in Hrun.
    rewrite decide_True in Hrun by reflexivity. discriminate. }
  split.
  - intros ->. simpl in Hcol. injection Hcol as <-. contradiction.
  - destruct (summarize_Ok rows field values Hcol Hne)
      as (summary' & Hrun' & Hsummary).
    rewrite Hrun in Hrun'. injection Hrun' as <-.
    exists values. split; [reflexivity | exact Hsummary].
Qed.


(** The stats that [compute_feature_stats] builds from its four
    summaries. *)
Lemma compute_feature_stats_inv (rows : list (gmap string R))
    (stats : gmap string (gmap string R)) :
  compute_feature_stats rows = Ok stats →
  rows ≠ [] ∧
  ∃ bp chol hr st,
    summarize rows "trestbps" = Ok bp ∧ summarize rows "chol" = Ok chol ∧
    summarize rows "thalach" = Ok hr ∧ summarize rows "oldpeak" = Ok st ∧
    stats
    = <["calories_burned" := calories_burned_stats]>
        (<["sugar_level" := sugar_level_stats]>
           {[ "bp_systolic" :=
                <["healthy_high" := 120]> (<["healthy_low" := 90]> bp);
              "cholesterol" :=
                <["healthy_high" := 200]> (<["healthy_low" := 125]> chol);
              "max_heart_rate" :=
                <["healthy_high" := 170]> (<["healthy_low" := 90]> hr);
              "st_depression" :=
                <["healthy_high" := 2]> (<["healthy_low" := 0]> st) ]}).
Proof.
  unfold compute_feature_stats. intros Hrun.
  apply bind_Ok in Hrun as (bp & Hbp & Hrun).
  apply bind_Ok in Hrun as (chol & Hchol & Hrun).
  apply bind_Ok in Hrun as (hr & Hhr & Hrun).
  apply bind_Ok in Hrun as (st & Hst & [= <-]).
  split; [apply (summarize_inv _ _ _ Hbp) |].
  exists bp, chol, hr, st. auto.
Qed.

Lemma compute_feature_stats_total (rows : list (gmap string R)) :
  rows ≠ [] →
  Forall (λ row, ∀ col, col ∈ ["trestbps"; "chol"; "thalach"; "oldpeak"] →
                        is_Some (row !! col)) rows →
  ∃ stats, compute_feature_stats rows = Ok stats.
Proof.
  intros Hne Hrows.
  assert (Hcol : ∀ col, col ∈ ["trestbps"; "chol"; "thalach"; "oldpeak"] →
            ∃ summary, summarize rows col = Ok summary).
  { intros col Hin.
    destruct (TrainModelFacts.column_Ok rows col) as (values & Hvalues & Hlen).
    { eapply Forall_impl; [exact Hrows |]. simpl. intros row Hrow.
      apply Hrow, Hin. }
    destruct (summarize_Ok rows col values Hvalues) as (summary & Hs & _).
    { intros ->. destruct rows; [contradiction | discriminate]. }
    eauto. }
  unfold compute_feature_stats.
  destruct (Hcol "trestbps") as [bp ->]; [repeat constructor |].
  destruct (Hcol "chol") as [chol ->]; [repeat constructor |].
  destruct (Hcol "thalach") as [hr ->]; [repeat constructor |].
  destruct (Hcol "oldpeak") as [st ->]; [repeat constructor |].
  simpl. eauto.
Qed.


Lemma clinical_row_columns :
  ∀ col, col ∈ ["trestbps"; "chol"; "thalach"; "oldpeak"] →
         is_Some (Scenarios.clinical_row !! col).
Proof.
  intros col Hin.
  repeat (apply elem_of_cons in Hin as [-> | Hin]; [eexists; reflexivity |]).
  apply elem_of_nil in Hin. contradiction.
Qed.


(** One turn of the loop of [_chart_data] on a summary that has the three
    keys. *)
Lemma chart_loop_keys (stats_map : gmap string (gmap string R))
    (field : string) (value : R) (rest : list (string * R))
    (stats : gmap string R) (lo hi avg : R) :
  stats_map !! field = Some stats →
  stats !! "healthy_low" = Some lo → stats !! "healthy_high" = Some hi →
  stats !! "mean" = Some avg →
  chart_loop stats_map ((field, value) :: rest)
  = chart ← chart_loop stats_map rest;
    Ok ({| label := title (replace_underscore field);
           user_value := value;
           recommended := {| low := lo; high := hi |};
           population_avg := avg |} :: chart).
Proof.
  intros Hstats Hlo Hhi Havg. cbn [chart_loop]. rewrite Hstats.
  assert (Htruthy : dict_truthy stats = true).
  { apply dict_truthy_true. intros ->. rewrite lookup_empty in Hlo.
    discriminate. }
  rewrite Htruthy. unfold getitem. rewrite Hlo, Hhi, Havg. reflexivity.
Qed.

Lemma chart_loop_absent (stats_map : gmap string (gmap string R))
    (field : string) (value : R) (rest : list (string * R)) :
  stats_map !! field = None →
  chart_loop stats_map ((field, value) :: rest) = chart_loop stats_map rest.
Proof. intros Hstats. cbn [chart_loop]. rewrite Hstats. reflexivity. Qed.

Lemma healthy_range_lookup (summary : gmap string R) (lo hi : R) :
  let stats := <["healthy_high" := hi]> (<["healthy_low" := lo]> summary) in
  stats !! "healthy_low" = Some lo ∧ stats !! "healthy_high" = Some hi ∧
  stats !! "mean" = summary !! "mean".
Proof.
  cbv zeta. split; [| split].
  - rewrite lookup_insert_ne by discriminate. apply lookup_insert_eq.
  - apply lookup_insert_eq.
  - rewrite !lookup_insert_ne by discriminate. reflexivity.
Qed.

(** X20. A predictor that serves the stats that [compute_feature_stats]
    has returned charts every request with four points, in the order blood
    pressure, cholesterol, heart rate, sugar level: the healthy ranges are
    90-120, 125-200, 90-170 and 70-99, the population averages are the
    means of the dataset's columns, and 99 for the sugar level.  The ST
    depression and calories summaries are not charted. *)
Theorem chart_data_of_trained_stats (self : HeartAttackPredictor)
    (rows : list (gmap string R)) (payload : HealthPredictionRequest) :
  compute_feature_stats rows = Ok (_stats self) →
  ∃ bp chol hr,
    column rows "trestbps" = Ok bp ∧ column rows "chol" = Ok chol ∧
    column rows "thalach" = Ok hr ∧
    _chart_data self payload
    = Ok [ {| label := "Bp Systolic";
              user_value := bp_systolic payload;
              recommended := {| low := 90; high := 120 |};
              population_avg := population_mean bp |};
           {| label := "Cholesterol";
              user_value := cholesterol payload;
              recommended := {| low := 125; high := 200 |};
              population_avg := population_mean chol |};
           {| label := "Max Heart Rate";
              user_value := max_heart_rate payload;
              recommended := {| low := 90; high := 170 |};
              population_avg := population_mean hr |};
           {| label := "Sugar Level";
              user_value := sugar_level payload;
              recommended := {| low := 70; high := 99 |};
              population_avg := 99 |} ].
Proof.
  intros Hrun.
  apply compute_feature_stats_inv in Hrun
    as (_ & bp & chol & hr & st & Hbp & Hchol & Hhr & Hst & Hstats).
  apply summarize_inv in Hbp as (_ & vbp & Hvbp & Sbp & _).
  apply summarize_inv in Hchol as (_ & vchol & Hvchol & Schol & _).
  apply summarize_inv in Hhr as (_ & vhr & Hvhr & Shr & _).
  exists vbp, vchol, vhr. repeat (split; [assumption |]).
  destruct Sbp as (? & ? & ? & ? & _ & _ & _ & _ & Mbp & _).
  destruct Schol as (? & ? & ? & ? & _ & _ & _ & _ & Mchol & _).
  destruct Shr as (? & ? & ? & ? & _ & _ & _ & _ & Mhr & _).
  unfold _chart_data, chart_fields.
  destruct (healthy_range_lookup bp 90 120) as (Lbp & Ubp & Abp).
  destruct (healthy_range_lookup chol 125 200) as (Lchol & Uchol & Achol).
  destruct (healthy_range_lookup hr 90 170) as (Lhr & Uhr & Ahr).
  rewrite Mbp in Abp. rewrite Mchol in Achol. rewrite Mhr in Ahr.
  rewrite (chart_loop_keys _ "bp_systolic" _ _ _ 90 120 (population_mean vbp))
    by first [rewrite Hstats; reflexivity | assumption].
  rewrite (chart_loop_keys _ "cholesterol" _ _ _ 125 200
             (population_mean vchol))
    by first [rewrite Hstats; reflexivity | assumption].
  rewrite (chart_loop_keys _ "max_heart_rate" _ _ _ 90 170
             (population_mean vhr))
    by first [rewrite Hstats; reflexivity | assumption].
  rewrite (chart_loop_keys _ "sugar_level" _ _ sugar_level_stats 70 99 99)
    by first [rewrite Hstats; reflexivity | reflexivity].
  reflexivity.
Qed.

Lemma chart_data_of_trained_stats_witness :
  ∃ stats chart,
    compute_feature_stats [Scenarios.clinical_row] = Ok stats ∧
    _chart_data (with_stats Scenarios.toy_predictor stats)
      Scenarios.sample_request = Ok chart ∧
    length chart = 4%nat.
Proof.
  destruct (compute_feature_stats_total [Scenarios.clinical_row])
    as [stats Hrun].
  - discriminate.
  - apply Forall_cons_2; [apply clinical_row_columns | apply Forall_nil_2].
  - destruct (chart_data_of_trained_stats
                (with_stats Scenarios.toy_predictor stats)
                [Scenarios.clinical_row] Scenarios.sample_request Hrun)
      as (bp & chol & hr & _ & _ & _ & Hchart).
    exists stats. eexists. split; [exact Hrun |].
    split; [exact Hchart | reflexivity].
Defined.

End SummaryFacts.

(** ** The training loop *)

Module TrainerFacts.
Import Config Store TrainModel Spec Training.

Lemma list_getitem_Ok (l : list R) (idx : nat) (x : R) :
  list_getitem l idx = Ok x ↔ l !! idx = Some x.
Proof.
  unfold list_getitem. destruct (l !! idx); split; congruence.
Qed.

(** An index loop that updates position [idx] of [target] from the values
    at [idx] of [target] and of [source]: the two inner loops of the
    trainer. *)
Section index_loop.

Variable update : R → R → R.
Variable loop : list R → list R → list nat → res (list R).
Hypothesis loop_nil : ∀ source target, loop source target [] = Ok target.
Hypothesis loop_cons : ∀ source target idx rest,
  loop source target (idx :: rest)
  = match target !! idx, source !! idx with
    | Some t, Some s => loop source (<[idx := update t s]> target) rest
    | _, _ => Raise IndexError
    end.

Lemma index_loop_Ok (source target result : list R) (idxs : list nat) :
  loop source target idxs = Ok result → NoDup idxs →
  length result = length target ∧
  ∀ j,
    (j ∈ idxs →
     ∃ t s, target !! j = Some t ∧ source !! j = Some s ∧
            result !! j = Some (update t s)) ∧
    (j ∉ idxs → result !! j = target !! j).
Proof.
  revert target. induction idxs as [|idx rest IH]; intros target Hrun Hnodup.
  - rewrite loop_nil in Hrun. injection Hrun as <-.
    split; [reflexivity |]. intros j. split; [| reflexivity].
    intros Hj. apply elem_of_nil in Hj. contradiction.
  - rewrite loop_cons in Hrun. apply NoDup_cons in Hnodup as [Hfresh Hnodup].
    destruct (target !! idx) as [t|] eqn:Ht; [| discriminate].
    destruct (source !! idx) as [s|] eqn:Hs; [| discriminate].
    destruct (IH _ Hrun Hnodup) as [Hlen Hlookup].
    rewrite length_insert in Hlen. split; [exact Hlen |].
    intros j. destruct (Hlookup j) as [Hin Hout]. split.
    + intros Hj. apply elem_of_cons in Hj as [-> | Hj].
      * exists t, s. split; [exact Ht |]. split; [exact Hs |].
        rewrite (Hout Hfresh). apply list_lookup_insert_eq.
        eapply lookup_lt_Some, Ht.
      * destruct (Hin Hj) as (t' & s' & Ht' & Hs' & Hr).
        exists t', s'. split; [| auto].
        rewrite list_lookup_insert_ne in Ht'; [exact Ht' |].
        intros ->. contradiction.
    + intros Hj. apply not_elem_of_cons in Hj as [Hne Hj].
      rewrite (Hout Hj). apply list_lookup_insert_ne. congruence.
Qed.

Lemma index_loop_total (source target : list R) (idxs : list nat) :
  (∀ idx, idx ∈ idxs →
     (idx < length target)%nat ∧ (idx < length source)%nat) →
  ∃ result, loop source target idxs = Ok result.
Proof.
  revert target. induction idxs as [|idx rest IH]; intros target Hidx.
  - rewrite loop_nil. eauto.
  - rewrite loop_cons. destruct (Hidx idx) as [Ht Hs]; [left |].
    apply lookup_lt_is_Some_2 in Ht as [t ->].
    apply lookup_lt_is_Some_2 in Hs as [s ->].
    apply IH. intros j Hj. rewrite length_insert. apply Hidx. right. exact Hj.
Qed.

Lemma index_loop_raise (source target : list R) (idxs : list nat) :
  (∃ idx, idx ∈ idxs ∧ (length source <= idx)%nat) →
  ∃ e, loop source target idxs = Raise e ∧ e = IndexError.
Proof.
  revert target.
  induction idxs as [|idx rest IH]; intros target (bad & Hbad & Hshort).
  - apply elem_of_nil in Hbad. contradiction.
  - rewrite loop_cons.
    destruct (target !! idx) as [t|]; [| eauto].
    destruct (source !! idx) as [s|] eqn:Hs; [| eauto].
    apply IH. exists bad. split; [| exact Hshort].
    apply elem_of_cons in Hbad as [-> | Hbad]; [| exact Hbad].
    apply lookup_lt_Some in Hs. lia.
Qed.

End index_loop.

Lemma accumulate_cons (diff : R) (features grad_w : list R) (idx : nat)
    (rest : list nat) :
  accumulate diff features grad_w (idx :: rest)
  = match grad_w !! idx, features !! idx with
    | Some g, Some f =>
        accumulate diff features (<[idx := g + diff * f]> grad_w) rest
    | _, _ => Raise IndexError
    end.
Proof.
  simpl. unfold list_getitem.
  destruct (grad_w !! idx); [| reflexivity].
  destruct (features !! idx); reflexivity.
Qed.

Lemma descend_cons (step : R) (grad_w weights : list R) (idx : nat)
    (rest : list nat) :
  descend step grad_w weights (idx :: rest)
  = match weights !! idx, grad_w !! idx with
    | Some w, Some g =>
        descend step grad_w (<[idx := w - step * g]> weights) rest
    | _, _ => Raise IndexError
    end.
Proof.
  simpl. unfold list_getitem.
  destruct (weights !! idx); [| reflexivity].
  destruct (grad_w !! idx); reflexivity.
Qed.

Lemma range_NoDup (n : nat) : NoDup (seq 0 n).
Proof. apply NoDup_seq. Qed.

Lemma range_elem (n j : nat) : j ∈ seq 0 n ↔ (j < n)%nat.
Proof. rewrite elem_of_seq. lia. Qed.

(** The accumulation of one sample into the gradient. *)
Lemma accumulate_Ok (diff : R) (features grad_w grad_w' : list R) :
  accumulate diff features grad_w (seq 0 feature_count) = Ok grad_w' →
  length grad_w' = length grad_w ∧
  ∀ j, (j < feature_count)%nat →
    ∃ g f, grad_w !! j = Some g ∧ features !! j = Some f ∧
           grad_w' !! j = Some (g + diff * f).
Proof.
  intros Hrun.
  destruct (index_loop_Ok (λ g f, g + diff * f) (accumulate diff)
              (λ _ _, eq_refl) (accumulate_cons diff)
              features grad_w grad_w' (seq 0 feature_count) Hrun
              (range_NoDup _)) as [Hlen Hlookup].
  split; [exact Hlen |]. intros j Hj.
  apply (Hlookup j). apply range_elem, Hj.
Qed.

Lemma accumulate_total (diff : R) (features grad_w : list R) :
  length grad_w = feature_count → (feature_count <= length features)%nat →
  ∃ grad_w', accumulate diff features grad_w (seq 0 feature_count)
             = Ok grad_w'.
Proof.
  intros Hg Hf.
  apply (index_loop_total (λ g f, g + diff * f) (accumulate diff)
           (λ _ _, eq_refl) (accumulate_cons diff)).
  intros idx Hidx. apply range_elem in Hidx. lia.
Qed.

Lemma accumulate_short (diff : R) (features grad_w : list R) :
  (length features < feature_count)%nat →
  accumulate diff features grad_w (seq 0 feature_count) = Raise IndexError.
Proof.
  intros Hshort.
  destruct (index_loop_raise (λ g f, g + diff * f) (accumulate diff)
              (accumulate_cons diff) features grad_w (seq 0 feature_count))
    as (e & -> & ->); [| reflexivity].
  exists (length features). split; [apply range_elem; exact Hshort | lia].
Qed.

(** The loop over the samples adds up the residuals, for the bias, and the
    residuals times the feature, for every weight. *)
Lemma gradients_Ok (weights : list R) (bias : R)
    (samples : list (list R * R)) (grad_w grad_w' : list R)
    (grad_b grad_b' : R) :
  gradients weights bias samples grad_w grad_b = Ok (grad_w', grad_b') →
  length grad_w' = length grad_w ∧
  grad_b' = grad_b + gradient_b weights bias samples ∧
  ∀ j g, (j < feature_count)%nat → grad_w !! j = Some g →
    grad_w' !! j = Some (g + gradient_w weights bias samples j).
Proof.
  revert grad_w grad_b.
  induction samples as [|[features label] rest IH]; intros grad_w grad_b.
  - intros [= <- <-]. split; [reflexivity |].
    unfold gradient_b, gradient_w, py_sum. simpl.
    split; [lra |]. intros j g _ ->. f_equal. lra.
  - cbn [gradients]. intros Hrun.
    apply bind_Ok in Hrun as (grad_w1 & Hacc & Hrun).
    apply accumulate_Ok in Hacc as [Hlen1 Hacc].
    destruct (IH _ _ Hrun) as (Hlen & Hb & Hw).
    split; [congruence |]. split.
    + rewrite Hb. unfold gradient_b. cbn [map].
      rewrite TrainModelFacts.py_sum_cons. unfold residual at 2. simpl. lra.
    + intros j g Hj Hg. destruct (Hacc j Hj) as (g0 & f & Hg0 & Hf & Hg1).
      rewrite Hg in Hg0. injection Hg0 as <-.
      rewrite (Hw j _ Hj Hg1). f_equal. unfold gradient_w. cbn [map].
      rewrite TrainModelFacts.py_sum_cons. unfold residual at 2. simpl.
      rewrite Hf. simpl. lra.
Qed.

Lemma gradients_total (weights : list R) (bias : R)
    (samples : list (list R * R)) (grad_w : list R) (grad_b : R) :
  length grad_w = feature_count →
  Forall (λ sample, (feature_count <= length sample.1)%nat) samples →
  ∃ grad_w' grad_b',
    gradients weights bias samples grad_w grad_b = Ok (grad_w', grad_b').
Proof.
  intros Hlen Hsamples. revert grad_w grad_b Hlen.
  induction Hsamples as [|[features label] rest Hf _ IH];
    intros grad_w grad_b Hlen.
  - simpl. eauto.
  - cbn [gradients]. simpl in Hf.
    destruct (accumulate_total
                (sigmoid (score weights features bias) - label)
                features grad_w Hlen Hf) as [grad_w1 Hacc].
    rewrite Hacc, bind_ret. apply IH.
    apply accumulate_Ok in Hacc as [Hlen1 _]. congruence.
Qed.

Lemma gradients_short (weights : list R) (bias : R)
    (samples : list (list R * R)) (grad_w : list R) (grad_b : R) :
  length grad_w = feature_count →
  Exists (λ sample, (length sample.1 < feature_count)%nat) samples →
  gradients weights bias samples grad_w grad_b = Raise IndexError.
Proof.
  intros Hlen Hsamples. revert grad_w grad_b Hlen.
  induction samples as [|[features label] rest IH];
    intros grad_w grad_b Hlen.
  - apply Exists_nil in Hsamples. contradiction.
  - cbn [gradients].
    destruct (decide (length features < feature_count)%nat) as [Hshort | Hok].
    + rewrite accumulate_short by exact Hshort. reflexivity.
    + destruct (accumulate_total
                  (sigmoid (score weights features bias) - label)
                  features grad_w Hlen ltac:(lia)) as [grad_w1 Hacc].
      rewrite Hacc, bind_ret. apply IH.
      * apply Exists_cons in Hsamples as [Hhd | Htl]; [| exact Htl].
        simpl in Hhd. lia.
      * apply accumulate_Ok in Hacc as [Hlen1 _]. congruence.
Qed.

(** The update of the weights. *)
Lemma descend_Ok (step : R) (grad_w weights weights' : list R) :
  descend step grad_w weights (seq 0 feature_count) = Ok weights' →
  length weights' = length weights ∧
  ∀ j, (j < feature_count)%nat →
    ∃ w g, weights !! j = Some w ∧ grad_w !! j = Some g ∧
           weights' !! j = Some (w - step * g).
Proof.
  intros Hrun.
  destruct (index_loop_Ok (λ w g, w - step * g)
              (λ source target, descend step source target)
              (λ _ _, eq_refl) (descend_cons step)
              grad_w weights weights' (seq 0 feature_count) Hrun
              (range_NoDup _)) as [Hlen Hlookup].
  split; [exact Hlen |]. intros j Hj.
  apply (Hlookup j). apply range_elem, Hj.
Qed.

Lemma descend_total (step : R) (grad_w weights : list R) :
  length weights = feature_count → length grad_w = feature_count →
  ∃ weights', descend step grad_w weights (seq 0 feature_count) = Ok weights'.
Proof.
  intros Hw Hg.
  apply (index_loop_total (λ w g, w - step * g)
           (λ source target, descend step source target)
           (λ _ _, eq_refl) (descend_cons step)).
  intros idx Hidx. apply range_elem in Hidx. lia.
Qed.

Lemma replicate_zero_lookup (j : nat) :
  (j < feature_count)%nat → replicate feature_count 0 !! j = Some 0.
Proof. intros Hj. apply lookup_replicate_2, Hj. Qed.

(** One epoch is one step of gradient descent. *)
Lemma epoch_body_Ok (X : list (list R)) (y : list R) (s s' : training_state)
    (epoch : nat) :
  epoch_body X y s epoch = Ok s' →
  length (st_weights s) = feature_count →
  X ≠ [] ∧
  length (st_weights s') = feature_count ∧
  st_lr s' = decay epoch (st_lr s) ∧
  st_bias s'
  = st_bias s
    - st_lr s / INR (length X)
      * gradient_b (st_weights s) (st_bias s) (zip X y) ∧
  ∀ j w, (j < feature_count)%nat → st_weights s !! j = Some w →
    st_weights s' !! j
    = Some (w - st_lr s / INR (length X)
                * gradient_w (st_weights s) (st_bias s) (zip X y) j).
Proof.
  unfold epoch_body. intros Hrun Hlen.
  apply bind_Ok in Hrun as ([grad_w grad_b] & Hgrad & Hrun).
  apply bind_Ok in Hrun as (step & Hstep & Hrun).
  apply bind_Ok in Hrun as (weights' & Hdesc & [= <-]).
  apply truediv_Ok in Hstep as [Hn ->].
  apply gradients_Ok in Hgrad as (Hglen & Hb & Hw).
  apply descend_Ok in Hdesc as [Hwlen Hdesc].
  rewrite length_replicate in Hglen. cbn [st_weights st_bias st_lr].
  split.
  { intros ->. apply Hn. reflexivity. }
  split; [congruence |]. split; [reflexivity |]. split.
  - rewrite Hb. f_equal. f_equal. lra.
  - intros j w Hj Hwj.
    destruct (Hdesc j Hj) as (w0 & g & Hw0 & Hg & ->).
    rewrite Hwj in Hw0. injection Hw0 as <-.
    rewrite (Hw j 0 Hj (replicate_zero_lookup j Hj)) in Hg.
    injection Hg as <-. f_equal. f_equal. f_equal. lra.
Qed.

Lemma epoch_body_total (X : list (list R)) (y : list R) (s : training_state)
    (epoch : nat) :
  X ≠ [] →
  Forall (λ sample, (feature_count <= length sample.1)%nat) (zip X y) →
  length (st_weights s) = feature_count →
  ∃ s', epoch_body X y s epoch = Ok s'.
Proof.
  intros HX Hsamples Hlen. unfold epoch_body.
  destruct (gradients_total (st_weights s) (st_bias s) (zip X y)
              (replicate feature_count 0) 0 (length_replicate _ _) Hsamples)
    as (grad_w & grad_b & Hgrad).
  rewrite Hgrad, bind_ret.
  rewrite truediv_nonzero, bind_ret.
  2:{ apply not_0_INR. destruct X; [contradiction | discriminate]. }
  apply gradients_Ok in Hgrad as (Hglen & _).
  rewrite length_replicate in Hglen.
  destruct (descend_total (st_lr s / INR (length X)) grad_w (st_weights s)
              Hlen Hglen) as [weights' ->].
  rewrite bind_ret. eauto.
Qed.

Lemma epochs_loop_app (X : list (list R)) (y : list R) (s : training_state)
    (first second : list nat) :
  epochs_loop X y s (first ++ second)
  = s' ← epochs_loop X y s first; epochs_loop X y s' second.
Proof.
  revert s. induction first as [|epoch rest IH]; intros s; [reflexivity |].
  simpl. destruct (epoch_body X y s epoch) as [s1|]; simpl; [apply IH |].
  reflexivity.
Qed.

Lemma epochs_loop_total (X : list (list R)) (y : list R) (s : training_state)
    (epochs : list nat) :
  X ≠ [] →
  Forall (λ sample, (feature_count <= length sample.1)%nat) (zip X y) →
  length (st_weights s) = feature_count →
  ∃ s', epochs_loop X y s epochs = Ok s'.
Proof.
  intros HX Hsamples. revert s.
  induction epochs as [|epoch rest IH]; intros s Hlen; simpl; [eauto |].
  destruct (epoch_body_total X y s epoch HX Hsamples Hlen) as [s1 Hs1].
  rewrite Hs1, bind_ret. apply IH.
  apply epoch_body_Ok in Hs1 as (_ & Hlen1 & _); assumption.
Qed.

(** What every run of the loop keeps. *)
Lemma epochs_loop_invariant (P : training_state → Prop) (X : list (list R))
    (y : list R) (epochs : list nat) :
  (∀ s s' epoch,
     length (st_weights s) = feature_count → P s →
     epoch_body X y s epoch = Ok s' → P s') →
  ∀ s s',
    length (st_weights s) = feature_count → P s →
    epochs_loop X y s epochs = Ok s' →
    length (st_weights s') = feature_count ∧ P s'.
Proof.
  intros Hstep. induction epochs as [|epoch rest IH]; intros s s' Hlen HP.
  - intros [= <-]. auto.
  - simpl. intros Hrun. apply bind_Ok in Hrun as (s1 & Hs1 & Hrun).
    apply (IH s1 s'); [| eapply Hstep; eassumption | exact Hrun].
    apply epoch_body_Ok in Hs1 as (_ & Hlen1 & _); assumption.
Qed.

Lemma decay_schedule (lr : R) (n : nat) :
  decay n (lr_after lr n) = lr_after lr (S n).
Proof.
  unfold decay, lr_after. replace (S n - 1)%nat with n by lia.
  destruct (n mod 750 =? 0)%nat eqn:Hmod; cbn [andb].
  - apply Nat.eqb_eq in Hmod. destruct (n =? 0)%nat eqn:Hzero; cbn [negb].
    + apply Nat.eqb_eq in Hzero. subst n. reflexivity.
    + apply Nat.eqb_neq in Hzero.
      assert (Hdiv : (n / 750 = S ((n - 1) / 750))%nat).
      { pose proof (Nat.div_mod_eq n 750) as Hn.
        pose proof (Nat.div_mod_eq (n - 1) 750) as Hp.
        pose proof (Nat.mod_upper_bound (n - 1) 750 ltac:(lia)) as Hb.
        nia. }
      rewrite Hdiv. rewrite <- tech_pow_Rmult. lra.
  - apply Nat.eqb_neq in Hmod.
    assert (Hdiv : (n / 750 = (n - 1) / 750)%nat).
    { pose proof (Nat.div_mod_eq n 750) as Hn.
      pose proof (Nat.div_mod_eq (n - 1) 750) as Hp.
      pose proof (Nat.mod_upper_bound (n - 1) 750 ltac:(lia)) as Hb.
      pose proof (Nat.mod_upper_bound n 750 ltac:(lia)) as Hb'.
      nia. }
    rewrite Hdiv. reflexivity.
Qed.

Lemma epochs_loop_lr (X : list (list R)) (y : list R) (lr : R) (n : nat)
    (s : training_state) :
  epochs_loop X y (initial_state lr) (seq 0 n) = Ok s →
  length (st_weights s) = feature_count ∧ st_lr s = lr_after lr n.
Proof.
  revert s. induction n as [|n IH]; intros s.
  - intros [= <-]. split; [apply length_replicate |].
    unfold lr_after. simpl. lra.
  - rewrite seq_S, epochs_loop_app. simpl. intros Hrun.
    apply bind_Ok in Hrun as (s1 & Hs1 & Hrun).
    apply bind_Ok in Hrun as (s2 & Hs2 & [= <-]).
    destruct (IH s1 Hs1) as [Hlen Hlr].
    apply epoch_body_Ok in Hs2 as (_ & Hlen2 & Hlr2 & _); [| exact Hlen].
    split; [exact Hlen2 |]. rewrite Hlr2, Hlr. apply decay_schedule.
Qed.

Lemma py_sum_all_zero (xs : list R) :
  Forall (λ x, x = 0) xs → py_sum xs = 0.
Proof.
  induction 1 as [|x xs -> _ IH]; [reflexivity |].
  rewrite TrainModelFacts.py_sum_cons, IH. lra.
Qed.

Lemma train_total (X : list (list R)) (y : list R) (epochs : Z) (lr : R) :
  X ≠ [] →
  Forall (λ sample, (feature_count <= length sample.1)%nat) (zip X y) →
  ∃ weights bias,
    train_logistic_regression X y epochs lr = Ok (weights, bias) ∧
    length weights = feature_count.
Proof.
  intros HX Hsamples. unfold train_logistic_regression.
  destruct (epochs_loop_total X y (initial_state lr)
              (seq 0 (Z.to_nat epochs)) HX Hsamples (length_replicate _ _))
    as [s Hs].
  rewrite Hs, bind_ret. exists (st_weights s), (st_bias s).
  split; [reflexivity |]. apply epochs_loop_lr in Hs as [Hlen _]. exact Hlen.
Qed.

Lemma one_row_samples :
  Forall (λ sample : list R * R, (feature_count <= length sample.1)%nat)
         (zip one_row_matrix one_row_labels).
Proof. repeat constructor. Qed.

Lemma one_row_trains (epochs : Z) (lr : R) :
  ∃ weights bias,
    train_logistic_regression one_row_matrix one_row_labels epochs lr
    = Ok (weights, bias) ∧
    length weights = feature_count.
Proof. apply train_total; [discriminate | apply one_row_samples]. Qed.

(** X21. The outcome of [train_logistic_regression].  Without an epoch to
    run it returns thirteen zero weights and a zero bias, whatever the
    data.  With at least one epoch, an empty design matrix raises
    [ZeroDivisionError] and a labelled row with fewer than thirteen
    features raises [IndexError]; when the matrix is not empty and every
    labelled row has at least thirteen features, it returns thirteen
    weights and a bias (rows without a label are never read). *)
Theorem train_logistic_regression_outcome (X : list (list R)) (y : list R)
    (epochs : Z) (lr : R) :
  ((epochs <= 0)%Z →
   train_logistic_regression X y epochs lr = Ok (replicate 13 0, 0)) ∧
  ((0 < epochs)%Z → X = [] →
   train_logistic_regression X y epochs lr = Raise ZeroDivisionError) ∧
  ((0 < epochs)%Z →
   Exists (λ sample, (length sample.1 < 13)%nat) (zip X y) →
   train_logistic_regression X y epochs lr = Raise IndexError) ∧
  (X ≠ [] →
   Forall (λ sample, (13 <= length sample.1)%nat) (zip X y) →
   ∃ weights bias,
     train_logistic_regression X y epochs lr = Ok (weights, bias) ∧
     length weights = 13%nat).
Proof.
  split; [| split; [| split]].
  - intros Hepochs. unfold train_logistic_regression.
    replace (Z.to_nat epochs) with 0%nat by lia. reflexivity.
  - intros Hepochs ->. unfold train_logistic_regression.
    destruct (Z.to_nat epochs) as [|n] eqn:Hn; [lia |].
    cbn [seq epochs_loop]. unfold epoch_body. cbn [zip zip_with gradients].
    rewrite bind_ret. unfold truediv. simpl.
    rewrite decide_True by reflexivity. reflexivity.
  - intros Hepochs Hshort. unfold train_logistic_regression.
    destruct (Z.to_nat epochs) as [|n] eqn:Hn; [lia |].
    cbn [seq epochs_loop]. unfold epoch_body.
    rewrite gradients_short;
      [reflexivity | apply length_replicate | exact Hshort].
  - apply train_total.
Qed.

Lemma train_logistic_regression_outcome_witness :
  ∃ weights bias,
    train_logistic_regression one_row_matrix one_row_labels 2 default_lr
    = Ok (weights, bias) ∧
    length weights = 13%nat.
Proof.
  apply (train_logistic_regression_outcome one_row_matrix one_row_labels 2
           default_lr).
  - discriminate.
  - apply one_row_samples.
Defined.

Lemma sigmoid_zero : sigmoid 0 = 1 / 2.
Proof.
  unfold sigmoid. rewrite PredictorCoverage.capped_id by lra.
  rewrite Ropp_0, exp_0. lra.
Qed.

Lemma score_zero_weights (features : list R) :
  score (replicate feature_count 0) features 0 = 0.
Proof.
  unfold score.
  rewrite py_sum_all_zero; [lra |].
  generalize feature_count. intros n. revert features.
  induction n as [|n IH]; intros features; simpl; [constructor |].
  destruct features as [|f features]; simpl; [constructor |].
  constructor; [lra | apply IH].
Qed.

(** X22. Every epoch of the training loop is one step of gradient descent
    on the log-loss: the bias moves by minus the step times the sum of the
    residuals [sigmoid(score) - label], every weight by minus the step
    times the sum of the residuals times its feature, with the step
    [lr / len(X)]; the learning rate is multiplied by 0.9 after the epochs
    750, 1500, ... and left alone after the others.  For the first epoch,
    which starts from zero weights, every residual is [1/2 - label]. *)
Theorem epoch_is_gradient_step (X : list (list R)) (y : list R)
    (s s' : training_state) (epoch : nat) :
  epoch_body X y s epoch = Ok s' →
  length (st_weights s) = 13%nat →
  let step := st_lr s / INR (length X) in
  length (st_weights s') = 13%nat ∧
  st_bias s'
  = st_bias s - step * gradient_b (st_weights s) (st_bias s) (zip X y) ∧
  (∀ j w, (j < 13)%nat → st_weights s !! j = Some w →
     st_weights s' !! j
     = Some (w - step * gradient_w (st_weights s) (st_bias s) (zip X y) j)) ∧
  st_lr s'
  = (if decide ((750 | epoch)%nat ∧ epoch ≠ 0%nat) then st_lr s * (9 / 10)
     else st_lr s) ∧
  (s = initial_state (st_lr s) →
   ∀ sample, residual (st_weights s) (st_bias s) sample = 1 / 2 - sample.2).
Proof.
  intros Hrun Hlen step.
  apply epoch_body_Ok in Hrun as (_ & Hlen' & Hlr & Hb & Hw); [| exact Hlen].
  split; [exact Hlen' |]. split; [exact Hb |]. split; [exact Hw |]. split.
  - rewrite Hlr. unfold decay.
    destruct (Nat.eqb_spec (epoch mod 750) 0) as [Hmod | Hmod];
      destruct (Nat.eqb_spec epoch 0) as [Hzero | Hzero]; cbn [andb negb].
    + rewrite decide_False; [reflexivity |]. intros [_ Hne]. contradiction.
    + rewrite decide_True; [reflexivity |]. split; [| exact Hzero].
      apply Nat.Lcm0.mod_divide. exact Hmod.
    + rewrite decide_False; [reflexivity |]. intros [_ Hne]. contradiction.
    + rewrite decide_False; [reflexivity |]. intros [Hdiv _].
      apply Hmod. apply Nat.Lcm0.mod_divide. exact Hdiv.
  - intros Hinit sample. rewrite Hinit. unfold residual, initial_state.
    cbn [st_weights st_bias]. rewrite score_zero_weights, sigmoid_zero.
    reflexivity.
Qed.

Lemma one_row_epoch (s : training_state) (epoch : nat) :
  length (st_weights s) = feature_count →
  ∃ s', epoch_body one_row_matrix one_row_labels s epoch = Ok s'.
Proof.
  intros Hlen. apply epoch_body_total;
    [discriminate | apply one_row_samples | exact Hlen].
Qed.

Lemma epoch_is_gradient_step_witness :
  ∃ s',
    epoch_body one_row_matrix one_row_labels (initial_state default_lr) 0
    = Ok s' ∧
    length (st_weights s') = 13%nat.
Proof.
  destruct (one_row_epoch (initial_state default_lr) 0) as [s' Hrun];
    [apply length_replicate |].
  exists s'. split; [exact Hrun |].
  apply (epoch_is_gradient_step one_row_matrix one_row_labels
           (initial_state default_lr) s' 0 Hrun).
  apply length_replicate.
Defined.

(** X23. A feature that is 0 in every labelled row of the design matrix
    never gets a weight: after any number of epochs its weight is still
    0. *)
Theorem constant_zero_feature_weight (X : list (list R)) (y : list R)
    (epochs : Z) (lr : R) (weights : list R) (bias : R) (j : nat) :
  train_logistic_regression X y epochs lr = Ok (weights, bias) →
  (j < 13)%nat →
  (∀ sample, sample ∈ zip X y → sample.1 !! j = Some 0) →
  weights !! j = Some 0.
Proof.
  unfold train_logistic_regression. intros Hrun Hj Hzero.
  apply bind_Ok in Hrun as (s & Hloop & [= <- <-]).
  apply (epochs_loop_invariant (λ s, st_weights s !! j = Some 0) X y
           (seq 0 (Z.to_nat epochs))) in Hloop as [_ Hw].
  - exact Hw.
  - intros s0 s1 epoch Hlen HP Hstep.
    apply epoch_body_Ok in Hstep as (_ & _ & _ & _ & Hw); [| exact Hlen].
    rewrite (Hw j 0 Hj HP). f_equal.
    unfold gradient_w. rewrite py_sum_all_zero; [lra |].
    apply Forall_forall. intros x Hx.
    apply list_elem_of_fmap in Hx as (sample & -> & Hsample).
    rewrite (Hzero sample Hsample). simpl. lra.
  - apply length_replicate.
  - apply lookup_replicate_2. exact Hj.
Qed.

Lemma constant_zero_feature_weight_witness :
  ∃ weights bias,
    train_logistic_regression one_row_matrix one_row_labels 3 default_lr
    = Ok (weights, bias) ∧
    weights !! 0%nat = Some 0.
Proof.
  destruct (one_row_trains 3 default_lr) as (weights & bias & Hrun & _).
  exists weights, bias. split; [exact Hrun |].
  apply (constant_zero_feature_weight one_row_matrix one_row_labels 3
           default_lr weights bias 0 Hrun).
  - lia.
  - intros sample Hsample. apply list_elem_of_singleton in Hsample as ->.
    reflexivity.
Defined.

(** X24. The learning-rate schedule of a whole run: after [n] epochs the
    learning rate is the initial one times 0.9 to the power
    [(n - 1) // 750], the number of the epochs 750, 1500, ... that have
    been run; so the default run of 4500 epochs decays five times, and the
    decay that epoch 4500 would bring is never applied.  The number of
    weights stays thirteen. *)
Theorem learning_rate_schedule (X : list (list R)) (y : list R) (lr : R)
    (n : nat) (s : training_state) :
  epochs_loop X y (initial_state lr) (seq 0 n) = Ok s →
  length (st_weights s) = 13%nat ∧
  st_lr s = lr * (9 / 10) ^ ((n - 1) / 750) ∧
  (n = Z.to_nat default_epochs → st_lr s = lr * (9 / 10) ^ 5).
Proof.
  intros Hrun. apply epochs_loop_lr in Hrun as [Hlen Hlr].
  split; [exact Hlen |]. split; [exact Hlr |].
  intros ->. rewrite Hlr. unfold lr_after. f_equal.
Qed.

Lemma learning_rate_schedule_witness :
  ∃ s,
    epochs_loop one_row_matrix one_row_labels (initial_state default_lr)
      (seq 0 2) = Ok s ∧
    length (st_weights s) = 13%nat.
Proof.
  destruct (epochs_loop_total one_row_matrix one_row_labels
              (initial_state default_lr) (seq 0 2)) as [s Hrun].
  - discriminate.
  - apply one_row_samples.
  - apply length_replicate.
  - exists s. split; [exact Hrun |].
    apply (learning_rate_schedule one_row_matrix one_row_labels default_lr 2
             s Hrun).
Defined.

End TrainerFacts.

(** ** Evaluation, and the pipeline of [main] *)

Module PipelineCoverage.
Import Config Store Schemas TrainModel Predictor Spec Notions Training.

















(** *** [main] *)

Lemma compute_scaling_Ok (rows : list (gmap string R)) :
  rows ≠ [] → Forall complete_row rows →
  ∃ scaling,
    compute_scaling rows = Ok scaling ∧
    (∀ feature, feature ∈ FEATURE_ORDER → is_Some (scaling !! feature)) ∧
    (∀ feature params, scaling !! feature = Some params →
       ∃ values,
         params
         = {[ "mean" := population_mean values;
              "std" := floored_std values ]}).
Proof.
  intros Hne Hrows.
  destruct (TrainModelFacts.compute_scaling_loop_Ok rows FEATURE_ORDER ∅ Hne)
    as (scaling & Hrun & Hinv & Hkeys).
  - intros feature Hin. eapply Forall_impl; [exact Hrows |].
    intros row Hrow. apply Hrow, Hin.
  - intros feature params Hlk. rewrite lookup_empty in Hlk. discriminate.
  - exists scaling. split; [exact Hrun |]. split.
    + intros feature Hin. apply Hkeys. left. exact Hin.
    + intros feature params Hlk.
      destruct (Hinv feature params Hlk) as (values & _ & ->). eauto.
Qed.

Lemma scale_features_length (row : gmap string R)
    (scaling : gmap string (gmap string R)) (features : list string)
    (vector : list R) :
  scale_features row scaling features = Ok vector →
  length vector = length features.
Proof.
  revert vector. induction features as [|feature rest IH]; intros vector.
  - intros [= <-]. reflexivity.
  - simpl. intros Hrun. apply bind_Ok in Hrun as (v & _ & Hrun).
    apply bind_Ok in Hrun as (vs & Hvs & [= <-]).
    simpl. f_equal. apply IH, Hvs.
Qed.

Lemma scale_rows_Ok (rows : list (gmap string R))
    (scaling : gmap string (gmap string R)) :
  Forall complete_row rows →
  (∀ feature, feature ∈ FEATURE_ORDER →
     ∃ mean std,
       scaling !! feature = Some {[ "mean" := mean; "std" := std ]}
       ∧ std ≠ 0) →
  ∃ X,
    scale_rows rows scaling = Ok X ∧ length X = length rows ∧
    Forall (λ x, length x = feature_count) X.
Proof.
  intros Hrows Hscaling.
  induction Hrows as [|row rows Hrow _ (X & IH & Hlen & Hall)]; simpl.
  - exists []. auto.
  - unfold scale_row.
    destruct (TrainModelFacts.scale_features_Ok row scaling FEATURE_ORDER
                Hrow Hscaling) as [vector Hvector].
    rewrite Hvector, bind_ret, IH, bind_ret.
    exists (vector :: X). split; [reflexivity |].
    split; [simpl; congruence |].
    constructor; [| exact Hall]. eapply scale_features_length, Hvector.
Qed.


(** [int(0.8 * n)] for a count [n]. *)
Lemma split_index (n : nat) :
  let split_idx := Z.to_nat (py_int (8 / 10 * INR n)) in
  (split_idx <= n)%nat ∧
  ((2 <= n)%nat → (1 <= split_idx < n)%nat) ∧
  (n = 1%nat → split_idx = 0%nat).
Proof.
  cbv zeta. pose proof (pos_INR n) as Hn.
  unfold py_int. rewrite decide_False by lra.
  destruct (base_Int_part (8 / 10 * INR n)) as [Hlo Hhi].
  set (k := Int_part (8 / 10 * INR n)) in *.
  assert (Hk : (0 <= k)%Z).
  { apply Z.lt_succ_r. apply lt_IZR. rewrite succ_IZR. lra. }
  assert (Hkn : (k <= Z.of_nat n)%Z).
  { apply le_IZR. rewrite <- INR_IZR_INZ. lra. }
  split; [lia |]. split.
  - intros H2. assert (H2r : 2 <= INR n).
    { replace 2 with (INR 2) by (simpl; lra). apply le_INR. exact H2. }
    assert (Hk1 : (0 < k)%Z).
    { apply lt_IZR. lra. }
    assert (Hkn' : (k < Z.of_nat n)%Z).
    { apply lt_IZR. rewrite <- INR_IZR_INZ. lra. }
    lia.
  - intros ->. simpl in Hlo.
    assert (Hk0 : (k < 1)%Z) by (apply lt_IZR; lra).
    lia.
Qed.

Lemma train_empty (y : list R) (epochs : Z) (lr : R) :
  (0 < epochs)%Z →
  train_logistic_regression [] y epochs lr = Raise ZeroDivisionError.
Proof.
  intros Hepochs. unfold train_logistic_regression.
  destruct (Z.to_nat epochs) as [|n] eqn:Hn; [lia |].
  cbn [seq epochs_loop]. unfold epoch_body. cbn [zip zip_with gradients].
  rewrite bind_ret. unfold truediv. simpl.
  rewrite decide_True by reflexivity. reflexivity.
Qed.

(** The rows that [main] works on: the loaded rows, shuffled. *)
Lemma shuffled_rows (csv : list (gmap string cell))
    (shuffle : list (gmap string R) → list (gmap string R)) :
  (∀ rows, shuffle rows ≡ₚ rows) →
  Forall readable csv →
  (∀ feature, feature ∈ FEATURE_ORDER → known_cells csv feature ≠ []) →
  ∃ loaded,
    load_dataset csv = Ok loaded ∧
    length (shuffle loaded) = length csv ∧
    Forall complete_row (shuffle loaded) ∧
    Forall (λ row, is_Some (row !! "target")) (shuffle loaded).
Proof.
  intros Hshuffle Hreadable Hknown.
  destruct (DatasetFacts.load_dataset_total csv Hreadable Hknown)
    as [loaded Hload].
  exists loaded. split; [exact Hload |].
  apply DatasetFacts.load_dataset_rows in Hload.
  split; [rewrite (Hshuffle loaded); symmetry; eapply Forall2_length, Hload |].
  assert (Hkeys : Forall (λ row : gmap string R,
                    ∀ key, key ∈ FEATURE_ORDER ∨ key = "target" →
                           is_Some (row !! key)) loaded).
  { clear -Hload.
    induction Hload as [|raw row csv' rows' [Hkeys _] _ IH]; constructor.
    - intros key Hkey. apply Hkeys, Hkey.
    - exact IH. }
  rewrite <- (Hshuffle loaded) in Hkeys.
  split; (eapply Forall_impl; [exact Hkeys |]); simpl; intros row Hrow.
  - intros feature Hin. apply Hrow. left. exact Hin.
  - apply Hrow. right. reflexivity.
Qed.

(** The scaling, the design matrix and the stats of complete rows. *)
Lemma pipeline_inputs (rows : list (gmap string R)) :
  rows ≠ [] → Forall complete_row rows →
  Forall (λ row, is_Some (row !! "target")) rows →
  ∃ scaling X y stats,
    compute_scaling rows = Ok scaling ∧
    build_design_matrix rows scaling = Ok (X, y) ∧
    compute_feature_stats rows = Ok stats ∧
    length X = length rows ∧ length y = length rows ∧
    Forall (λ x, length x = feature_count) X ∧
    (∀ feature params, scaling !! feature = Some params →
       ∃ values,
         params
         = {[ "mean" := population_mean values;
              "std" := floored_std values ]}).
Proof.
  intros Hne Hrows Htarget.
  destruct (compute_scaling_Ok rows Hne Hrows)
    as (scaling & Hscaling & Hkeys & Hentries).
  destruct (scale_rows_Ok rows scaling Hrows) as (X & HX & HlenX & Hall).
  { intros feature Hin. destruct (Hkeys feature Hin) as [params Hparams].
    destruct (Hentries feature params Hparams) as (values & ->).
    exists (population_mean values), (floored_std values).
    split; [exact Hparams |].
    pose proof (TrainModelFacts.floored_std_pos values). lra. }
  destruct (TrainModelFacts.column_Ok rows "target" Htarget)
    as (y & Hy & Hleny).
  destruct (SummaryFacts.compute_feature_stats_total rows Hne)
    as [stats Hstats].
  { eapply Forall_impl; [exact Hrows |]. simpl. intros row Hrow col Hcol.
    apply Hrow. unfold FEATURE_ORDER.
    repeat (apply elem_of_cons in Hcol as [-> | Hcol];
            [repeat constructor |]).
    apply elem_of_nil in Hcol. contradiction. }
  exists scaling, X, y, stats.
  split; [exact Hscaling |]. split.
  { unfold build_design_matrix. rewrite HX, bind_ret, Hy. reflexivity. }
  auto 10.
Qed.







(** X27. Three ways in which [main] fails before it writes anything: without
    the dataset file it raises [FileNotFoundError]; on a file without rows
    it raises [ZeroDivisionError]; and so it does on a file with a single
    row, however good, because the training part of the 80/20 split is then
    empty. *)
Theorem main_failures (settings : Settings)
    (shuffle : list (gmap string R) → list (gmap string R)) (now : string)
    (st : store) :
  main settings shuffle now None st
  = Raise (FileNotFoundError
             ("Dataset not found at " +:+ dataset_path settings)) ∧
  main settings shuffle now (Some []) st = Raise ZeroDivisionError ∧
  (∀ row,
     (∀ rows, shuffle rows ≡ₚ rows) →
     readable row →
     (∀ feature, feature ∈ FEATURE_ORDER → known_cells [row] feature ≠ []) →
     main settings shuffle now (Some [row]) st = Raise ZeroDivisionError).
Proof.
  split; [reflexivity |]. split.
  { unfold main.
    rewrite (DatasetFacts.load_dataset_no_known []); [reflexivity | |].
    - constructor.
    - exists "age". split; [left | reflexivity]. }
  intros row Hshuffle Hreadable Hknown.
  destruct (shuffled_rows [row] shuffle Hshuffle) as
    (loaded & Hload & Hlen & Hcomplete & Htarget);
    [apply Forall_cons_2; [exact Hreadable | apply Forall_nil_2]
    | exact Hknown |].
  set (rows := shuffle loaded) in *.
  assert (Hne : rows ≠ []).
  { intros Hnil. rewrite Hnil in Hlen. simpl in Hlen. lia. }
  destruct (pipeline_inputs rows Hne Hcomplete Htarget)
    as (scaling & X & y & stats & Hscaling & Hdesign & _).
  destruct (split_index (length rows)) as (_ & _ & Hsplit).
  specialize (Hsplit Hlen).
  unfold main. rewrite Hload, bind_ret. fold rows.
  rewrite Hscaling, bind_ret, Hdesign, bind_ret, Hsplit.
  cbn [take]. rewrite train_empty by reflexivity. reflexivity.
Qed.

Lemma main_failures_witness :
  main default_settings (λ rows, rows) "now" (Some [csv_row (Number 63) 1]) ∅
  = Raise ZeroDivisionError.
Proof.
  destruct (main_failures default_settings (λ rows, rows) "now" ∅) as (_ & _ & Hone).
  apply Hone.
  - reflexivity.
  - apply DatasetFacts.csv_row_readable. discriminate.
  - intros feature Hin. unfold FEATURE_ORDER in Hin.
    repeat (apply elem_of_cons in Hin as [-> | Hin]; [discriminate |]).
    apply elem_of_nil in Hin. contradiction.
Defined.

End PipelineCoverage.

(** ** Contact lists: [_read_list] and [_list] *)

Module ContactFacts.
Import Contacts.

(** *** [strip] *)

Lemma lstrip_chars_length (cs : list Ascii.ascii) :
  (length (lstrip_chars cs) <= length cs)%nat.
Proof.
  induction cs as [|c cs IH]; simpl; [lia |].
  destruct (is_space c); simpl; lia.
Qed.

Lemma lstrip_chars_fixed (c : Ascii.ascii) (cs : list Ascii.ascii) :
  lstrip_chars (c :: cs) = c :: cs ↔ is_space c = false.
Proof.
  simpl. destruct (is_space c); [| tauto].
  split; [| discriminate]. intros Heq.
  pose proof (lstrip_chars_length cs) as Hlen. rewrite Heq in Hlen.
  simpl in Hlen. lia.
Qed.

Lemma lstrip_chars_idem (cs : list Ascii.ascii) :
  lstrip_chars (lstrip_chars cs) = lstrip_chars cs.
Proof.
  induction cs as [|c cs IH]; [reflexivity |].
  simpl. destruct (is_space c) eqn:Hc; [exact IH |].
  apply lstrip_chars_fixed. exact Hc.
Qed.

Lemma rstrip_chars_cons (c : Ascii.ascii) (cs : list Ascii.ascii) :
  rstrip_chars (c :: cs)
  = if decide (rstrip_chars cs = [])
    then (if is_space c then [] else [c])
    else c :: rstrip_chars cs.
Proof. simpl. destruct (rstrip_chars cs); reflexivity. Qed.

Lemma rstrip_chars_idem (cs : list Ascii.ascii) :
  rstrip_chars (rstrip_chars cs) = rstrip_chars cs.
Proof.
  induction cs as [|c cs IH]; [reflexivity |].
  rewrite rstrip_chars_cons. case_decide as Hrest.
  - destruct (is_space c) eqn:Hc; [reflexivity |].
    simpl. rewrite Hc. reflexivity.
  - rewrite rstrip_chars_cons, IH, decide_False by exact Hrest. reflexivity.
Qed.

Lemma lstrip_rstrip_fixed (cs : list Ascii.ascii) :
  lstrip_chars cs = cs → lstrip_chars (rstrip_chars cs) = rstrip_chars cs.
Proof.
  destruct cs as [|c cs]; [reflexivity |]. intros Hc.
  apply lstrip_chars_fixed in Hc. rewrite rstrip_chars_cons.
  case_decide; [rewrite Hc |]; apply lstrip_chars_fixed; exact Hc.
Qed.

Lemma strip_chars_idem (cs : list Ascii.ascii) :
  strip_chars (strip_chars cs) = strip_chars cs.
Proof.
  unfold strip_chars.
  rewrite lstrip_rstrip_fixed by apply lstrip_chars_idem.
  apply rstrip_chars_idem.
Qed.

Lemma lstrip_chars_sublist (cs : list Ascii.ascii) :
  lstrip_chars cs `sublist_of` cs.
Proof.
  induction cs as [|c cs IH]; [reflexivity |].
  simpl. destruct (is_space c); [apply sublist_cons; exact IH | reflexivity].
Qed.

Lemma rstrip_chars_sublist (cs : list Ascii.ascii) :
  rstrip_chars cs `sublist_of` cs.
Proof.
  induction cs as [|c cs IH]; [reflexivity |].
  rewrite rstrip_chars_cons. case_decide.
  - destruct (is_space c); [apply sublist_nil_l |].
    apply sublist_skip, sublist_nil_l.
  - apply sublist_skip. exact IH.
Qed.

Lemma strip_chars_sublist (cs : list Ascii.ascii) :
  strip_chars cs `sublist_of` cs.
Proof.
  unfold strip_chars. etransitivity;
    [apply rstrip_chars_sublist | apply lstrip_chars_sublist].
Qed.

Lemma chars_of_string (cs : list Ascii.ascii) :
  String.list_ascii_of_string (String.string_of_list_ascii cs) = cs.
Proof. apply String.list_ascii_of_string_of_list_ascii. Qed.

Lemma string_of_chars (s : string) :
  String.string_of_list_ascii (String.list_ascii_of_string s) = s.
Proof. apply String.string_of_list_ascii_of_string. Qed.

Lemma strip_idem (s : string) : strip (strip s) = strip s.
Proof. unfold strip. rewrite chars_of_string, strip_chars_idem. reflexivity. Qed.

Lemma strip_clean (s : string) : strip s ≠ "" → clean (strip s).
Proof. intros Hs. split; [exact Hs | apply strip_idem]. Qed.

Lemma strip_comma_free (s : string) : comma_free s → comma_free (strip s).
Proof.
  unfold comma_free, strip. rewrite chars_of_string. intros Hs Hin.
  apply Hs. eapply elem_of_sublist; [exact Hin |]. apply strip_chars_sublist.
Qed.

(** *** [split] and [join] *)

Lemma split_on_free (sep : Ascii.ascii) (cs : list Ascii.ascii) :
  Forall (λ piece, sep ∉ piece) (split_on sep cs).
Proof.
  induction cs as [|c cs IH]; simpl.
  - constructor; [apply not_elem_of_nil | constructor].
  - destruct (Ascii.eqb_spec c sep) as [-> | Hc].
    + constructor; [apply not_elem_of_nil | exact IH].
    + destruct (split_on sep cs) as [|piece pieces].
      * constructor; [| constructor]. intros Hin.
        apply list_elem_of_singleton in Hin. congruence.
      * apply Forall_cons in IH as [Hpiece Hpieces].
        constructor; [| exact Hpieces]. intros Hin.
        apply elem_of_cons in Hin as [Hin | Hin]; [congruence | tauto].
Qed.

Lemma join_chars_cons (sep : Ascii.ascii) (piece : list Ascii.ascii)
    (pieces : list (list Ascii.ascii)) :
  pieces ≠ [] →
  join_chars sep (piece :: pieces) = piece ++ sep :: join_chars sep pieces.
Proof. destruct pieces; [contradiction | reflexivity]. Qed.

Lemma split_on_free_piece (sep : Ascii.ascii) (piece : list Ascii.ascii) :
  sep ∉ piece → split_on sep piece = [piece].
Proof.
  induction piece as [|c piece IH]; [reflexivity |]. intros Hfree.
  apply not_elem_of_cons in Hfree as [Hc Hpiece]. simpl.
  destruct (Ascii.eqb_spec c sep) as [-> | _]; [contradiction |].
  rewrite IH by exact Hpiece. reflexivity.
Qed.

Lemma split_on_app (sep : Ascii.ascii) (piece rest : list Ascii.ascii) :
  sep ∉ piece →
  split_on sep (piece ++ sep :: rest) = piece :: split_on sep rest.
Proof.
  induction piece as [|c piece IH]; intros Hfree.
  - simpl. rewrite Ascii.eqb_refl. reflexivity.
  - apply not_elem_of_cons in Hfree as [Hc Hpiece]. simpl.
    destruct (Ascii.eqb_spec c sep) as [-> | _]; [contradiction |].
    rewrite IH by exact Hpiece. reflexivity.
Qed.

(** Splitting is the inverse of joining pieces without the separator. *)
Lemma split_on_join (sep : Ascii.ascii) (pieces : list (list Ascii.ascii)) :
  pieces ≠ [] → Forall (λ piece, sep ∉ piece) pieces →
  split_on sep (join_chars sep pieces) = pieces.
Proof.
  intros Hne Hfree. induction Hfree as [|piece pieces Hpiece _ IH];
    [contradiction |].
  destruct pieces as [|next pieces].
  - simpl. apply split_on_free_piece. exact Hpiece.
  - rewrite join_chars_cons by discriminate.
    rewrite split_on_app by exact Hpiece. rewrite IH by discriminate.
    reflexivity.
Qed.

Lemma fmap_fixed {A : Type} (f : A → A) (l : list A) :
  (∀ x, f x = x) → f <$> l = l.
Proof.
  intros Hf. induction l as [|x l IH]; [reflexivity |].
  simpl. rewrite Hf. f_equal. exact IH.
Qed.

Lemma split_commas_free (raw : string) :
  Forall comma_free (split_commas raw).
Proof.
  unfold split_commas. apply Forall_fmap.
  eapply Forall_impl; [apply split_on_free |].
  intros piece Hpiece. unfold comma_free. simpl.
  rewrite chars_of_string. exact Hpiece.
Qed.

Lemma split_join_commas (items : list string) :
  items ≠ [] → Forall comma_free items →
  split_commas (join_commas items) = items.
Proof.
  intros Hne Hfree. unfold split_commas, join_commas.
  rewrite chars_of_string, split_on_join.
  - rewrite <- list_fmap_compose. apply fmap_fixed. intros item.
    apply string_of_chars.
  - destruct items; [contradiction | discriminate].
  - apply Forall_fmap. exact Hfree.
Qed.

(** *** The items of a comma-separated text *)

Lemma comma_items_clean (raw : string) :
  Forall (λ item, clean item ∧ comma_free item) (comma_items raw).
Proof.
  unfold comma_items. apply Forall_fmap, Forall_forall. intros item Hin.
  apply list_elem_of_filter in Hin as [Hitem Hin]. split.
  - apply strip_clean. exact Hitem.
  - apply strip_comma_free.
    pose proof (split_commas_free raw) as Hfree.
    rewrite Forall_forall in Hfree. apply Hfree. exact Hin.
Qed.

Lemma filter_clean (items : list string) :
  Forall clean items → filter (λ item, strip item ≠ "") items = items.
Proof.
  induction 1 as [|item items [Hne Hfix] _ IH]; [reflexivity |].
  rewrite filter_cons_True by (rewrite Hfix; exact Hne).
  rewrite IH. reflexivity.
Qed.

Lemma fmap_strip_clean (items : list string) :
  Forall clean items → strip <$> items = items.
Proof.
  induction 1 as [|item items [_ Hfix] _ IH]; [reflexivity |].
  simpl. rewrite Hfix. f_equal. exact IH.
Qed.

Lemma comma_items_join (items : list string) :
  Forall comma_free items →
  comma_items (join_commas items)
  = strip <$> filter (λ item, strip item ≠ "") items.
Proof.
  intros Hfree. destruct items as [|item items]; [reflexivity |].
  unfold comma_items. rewrite split_join_commas by (exact Hfree || discriminate).
  reflexivity.
Qed.

Lemma read_list_comma_items (raw : string) (fallback : option string) :
  _read_list (Some raw) fallback = comma_items raw.
Proof.
  unfold _read_list. case_decide as Hraw; [| reflexivity].
  rewrite Hraw. reflexivity.
Qed.

Lemma read_list_fallback (fallback : option string) :
  _read_list None fallback = comma_items (default "" fallback).
Proof.
  unfold _read_list. destruct fallback as [text|]; [| reflexivity].
  simpl. destruct (decide (text = "")) as [-> | Htext]; [reflexivity |].
  rewrite decide_False by exact Htext. reflexivity.
Qed.

(** X28. The parsing of a comma-separated list by [_read_list] (settings)
    and [_list] (requests).  Every item returned for a text is not empty,
    has no white space at either end and holds no comma.  The value of the
    environment variable hides the fallback; without it the fallback is
    parsed, and without either the list is empty.  A list given as such is
    filtered but not stripped: for items without a comma, the text that
    joins them with commas is parsed into the stripped items of what the
    list itself gives.  So a list of items that are not empty and have no
    white space at either end is returned untouched, and when they hold no
    comma either, joining them and reading the text gives the list back. *)
Theorem contact_list_parsing (items : list string) (env : option string)
    (fallback : option string) (value : string) :
  Forall (λ item, clean item ∧ comma_free item) (_read_list env fallback) ∧
  Forall (λ item, clean item ∧ comma_free item) (_list (TextValue value)) ∧
  _read_list (Some value) fallback = _list (TextValue value) ∧
  _read_list None fallback = _list (from_option TextValue NoValue fallback) ∧
  (Forall comma_free items →
   _list (TextValue (join_commas items)) = strip <$> _list (ListValue items)) ∧
  (Forall clean items → _list (ListValue items) = items) ∧
  (Forall (λ item, clean item ∧ comma_free item) items →
   _read_list (Some (join_commas items)) fallback = items).
Proof.
  split; [| split; [| split; [| split; [| split; [| split]]]]].
  - destruct env as [raw|].
    + rewrite read_list_comma_items. apply comma_items_clean.
    + rewrite read_list_fallback. apply comma_items_clean.
  - apply comma_items_clean.
  - apply read_list_comma_items.
  - rewrite read_list_fallback. destruct fallback; reflexivity.
  - apply comma_items_join.
  - apply filter_clean.
  - intros Hitems. apply Forall_and in Hitems as [Hclean Hfree].
    rewrite read_list_comma_items, comma_items_join by exact Hfree.
    rewrite filter_clean by exact Hclean. apply fmap_strip_clean.
    exact Hclean.
Qed.

Lemma sample_contacts_clean :
  Forall (λ item, clean item ∧ comma_free item) ["+15550100"; "+15550111"].
Proof.
  assert (Hitem : ∀ item,
            item ≠ "" → strip item = item →
            bool_decide (comma ∉ String.list_ascii_of_string item) = true →
            clean item ∧ comma_free item).
  { intros item Hne Hfix Hfree. split; [split; assumption |].
    apply bool_decide_eq_true_1 in Hfree. exact Hfree. }
  apply Forall_cons_2; [| apply Forall_cons_2; [| apply Forall_nil_2]];
    apply Hitem; (discriminate || reflexivity).
Qed.

Lemma contact_list_parsing_witness :
  _read_list (Some (join_commas ["+15550100"; "+15550111"])) None
  = ["+15550100"; "+15550111"].
Proof.
  apply (contact_list_parsing ["+15550100"; "+15550111"] None None "").
  apply sample_contacts_clean.
Defined.

End ContactFacts.

(** ** The emergency dispatcher *)

Module DispatcherFacts.
Import Contacts.

(** *** The recipients *)

Lemma candidates_elem (s : DispatcherSettings)
    (extra_contacts : option (list string)) (c : string) :
  c ∈ candidates s extra_contacts
  ↔ c ∈ emergency_contacts s
    ∨ (emergency_primary_number s = Some c ∧ c ≠ "")
    ∨ c ∈ default [] extra_contacts.
Proof.
  unfold candidates. rewrite !elem_of_app.
  assert (Hprimary :
    c ∈ (if truthy (emergency_primary_number s)
         then option_list (emergency_primary_number s) else [])
    ↔ emergency_primary_number s = Some c ∧ c ≠ "").
  { destruct (emergency_primary_number s) as [primary|]; simpl.
    - case_bool_decide as Hp; simpl.
      + rewrite list_elem_of_singleton. split.
        * intros ->. split; [reflexivity | exact Hp].
        * intros [[= ->] _]. reflexivity.
      + split; [intros Hin; apply elem_of_nil in Hin; contradiction |].
        intros [[= ->] Hc]. contradiction.
    - split; [intros Hin; apply elem_of_nil in Hin; contradiction |].
      intros [[=] _]. }
  assert (Hextra :
    c ∈ match extra_contacts with
        | Some (number :: rest) => number :: rest
        | _ => []
        end
    ↔ c ∈ default [] extra_contacts).
  { destruct extra_contacts as [[|number rest]|]; reflexivity. }
  rewrite Hprimary, Hextra. reflexivity.
Qed.

(** The invariant of the loop of [_resolve_recipients]: [seen] holds the
    entries of [filtered], which are distinct and clean. *)
Lemma resolve_loop_spec (cs : list string) (seen : gset string)
    (filtered : list string) :
  (∀ x, x ∈ seen ↔ x ∈ filtered) → NoDup filtered → Forall clean filtered →
  NoDup (resolve_loop cs seen filtered) ∧
  Forall clean (resolve_loop cs seen filtered) ∧
  (∀ x, x ∈ resolve_loop cs seen filtered
        ↔ x ∈ filtered ∨ (x ≠ "" ∧ ∃ c, c ∈ cs ∧ strip c = x)) ∧
  ∃ added, resolve_loop cs seen filtered = filtered ++ added ∧
           added `sublist_of` (strip <$> cs).
Proof.
  revert seen filtered.
  induction cs as [|c cs IH]; intros seen filtered Hseen Hnd Hclean.
  - simpl. split; [exact Hnd |]. split; [exact Hclean |]. split.
    + intros x. split; [auto |].
      intros [Hx | (_ & c & Hc & _)]; [exact Hx |].
      apply elem_of_nil in Hc. contradiction.
    + exists []. rewrite app_nil_r. split; reflexivity.
  - cbn [resolve_loop]. destruct (decide (c = "")) as [-> | Hc].
    + destruct (IH seen filtered Hseen Hnd Hclean)
        as (Hnd' & Hclean' & Hin' & added & Hadded & Hsub).
      split; [exact Hnd' |]. split; [exact Hclean' |]. split.
      * intros x. rewrite Hin'. split.
        -- intros [Hx | (Hx & c & Hc & Hs)]; [left; exact Hx |].
           right. split; [exact Hx |]. exists c.
           split; [apply elem_of_cons; right; exact Hc | exact Hs].
        -- intros [Hx | (Hx & c & Hc & Hs)]; [left; exact Hx |].
           apply elem_of_cons in Hc as [-> | Hc].
           ++ exfalso. apply Hx. rewrite <- Hs. reflexivity.
           ++ right. eauto.
      * exists added. split; [exact Hadded |].
        rewrite fmap_cons. apply sublist_cons. exact Hsub.
    + destruct (decide (strip c ≠ "" ∧ strip c ∉ seen)) as [[Hne Hnew] | Hold].
      * destruct (IH ({[strip c]} ∪ seen) (filtered ++ [strip c]))
          as (Hnd' & Hclean' & Hin' & added & Hadded & Hsub).
        -- intros x.
           rewrite elem_of_union, elem_of_singleton, elem_of_app,
             list_elem_of_singleton, Hseen. tauto.
        -- apply NoDup_app. split; [exact Hnd |].
           split; [| apply NoDup_singleton].
           intros x Hx Hx'. apply list_elem_of_singleton in Hx' as ->.
           apply Hnew, Hseen, Hx.
        -- apply Forall_app. split; [exact Hclean |].
           apply Forall_singleton, ContactFacts.strip_clean. exact Hne.
        -- split; [exact Hnd' |]. split; [exact Hclean' |]. split.
           ++ intros x. rewrite Hin', elem_of_app, list_elem_of_singleton.
              split.
              ** intros [[Hx | ->] | (Hx & c' & Hc' & Hs)].
                 --- left. exact Hx.
                 --- right. split; [exact Hne |]. exists c.
                     split; [apply elem_of_cons; left |]; reflexivity.
                 --- right. split; [exact Hx |]. exists c'.
                     split; [apply elem_of_cons; right; exact Hc' | exact Hs].
              ** intros [Hx | (Hx & c' & Hc' & Hs)]; [left; left; exact Hx |].
                 apply elem_of_cons in Hc' as [-> | Hc'].
                 --- left. right. symmetry. exact Hs.
                 --- right. eauto.
           ++ exists (strip c :: added). rewrite Hadded, <- app_assoc.
              split; [reflexivity |]. rewrite fmap_cons.
              apply sublist_skip. exact Hsub.
      * destruct (IH seen filtered Hseen Hnd Hclean)
          as (Hnd' & Hclean' & Hin' & added & Hadded & Hsub).
        split; [exact Hnd' |]. split; [exact Hclean' |]. split.
        -- intros x. rewrite Hin'. split.
           ++ intros [Hx | (Hx & c' & Hc' & Hs)]; [left; exact Hx |].
              right. split; [exact Hx |]. exists c'.
              split; [apply elem_of_cons; right; exact Hc' | exact Hs].
           ++ intros [Hx | (Hx & c' & Hc' & Hs)]; [left; exact Hx |].
              apply elem_of_cons in Hc' as [-> | Hc']; [| right; eauto].
              left. apply Hseen. subst x.
              destruct (decide (strip c ∈ seen)) as [Hin | Hout];
                [exact Hin | exfalso; apply Hold; split; assumption].
        -- exists added. split; [exact Hadded |].
           rewrite fmap_cons. apply sublist_cons. exact Hsub.
Qed.

(** Distinct clean numbers that were not seen are all appended, in order. *)
Lemma resolve_loop_clean (cs : list string) (seen : gset string)
    (filtered : list string) :
  Forall clean cs → NoDup cs → (∀ x, x ∈ cs → x ∉ seen) →
  resolve_loop cs seen filtered = filtered ++ cs.
Proof.
  intros Hclean. revert seen filtered.
  induction Hclean as [|c cs [Hne Hfix] _ IH]; intros seen filtered Hnd Hnew.
  - simpl. rewrite app_nil_r. reflexivity.
  - apply NoDup_cons in Hnd as [Hc Hnd]. simpl.
    rewrite decide_False by exact Hne. rewrite Hfix.
    rewrite decide_True.
    + rewrite IH, <- app_assoc; [reflexivity | exact Hnd |].
      intros x Hx Hseen. apply elem_of_union in Hseen as [Hseen | Hseen].
      * apply elem_of_singleton in Hseen as ->. contradiction.
      * apply (Hnew x); [apply elem_of_cons; right; exact Hx | exact Hseen].
    + split; [exact Hne |]. apply Hnew, elem_of_cons. left. reflexivity.
Qed.

(** X29. The recipients that [_resolve_recipients] returns are distinct, each
    is not empty and has no white space at either end; a number is among
    them exactly when it is not empty and is the stripped form of a
    configured contact, of the primary number or of one of the extra
    contacts, so a number given in several places or with different
    spacing is notified once.  They come in the order of the configured
    contacts, the primary number and the extra contacts; when these are
    already distinct and without surrounding white space, nothing is
    changed. *)
Theorem resolve_recipients_normalized (self : EmergencyDispatcher)
    (extra_contacts : option (list string)) :
  let s := settings self in
  let recipients := _resolve_recipients self extra_contacts in
  NoDup recipients ∧ Forall clean recipients ∧
  (∀ number,
     number ∈ recipients
     ↔ number ≠ "" ∧
       ∃ c, strip c = number ∧
            (c ∈ emergency_contacts s ∨ emergency_primary_number s = Some c
             ∨ c ∈ default [] extra_contacts)) ∧
  recipients `sublist_of` (strip <$> candidates s extra_contacts) ∧
  (Forall clean (candidates s extra_contacts) →
   NoDup (candidates s extra_contacts) →
   recipients = candidates s extra_contacts).
Proof.
  intros s recipients. subst recipients. unfold _resolve_recipients. fold s.
  destruct (resolve_loop_spec (candidates s extra_contacts) ∅ [])
    as (Hnd & Hclean & Hin & added & Hadded & Hsub).
  { intros x. rewrite elem_of_empty. split; [contradiction |].
    intros Hx. apply elem_of_nil in Hx. contradiction. }
  { apply NoDup_nil_2. }
  { apply Forall_nil_2. }
  split; [exact Hnd |]. split; [exact Hclean |]. split; [| split].
  - intros number. rewrite Hin. split.
    + intros [Hx | (Hne & c & Hc & Hs)];
        [apply elem_of_nil in Hx; contradiction |].
      split; [exact Hne |]. exists c. split; [exact Hs |].
      apply candidates_elem in Hc. tauto.
    + intros (Hne & c & Hs & Hc). right. split; [exact Hne |].
      exists c. split; [| exact Hs]. apply candidates_elem.
      destruct Hc as [Hc | [Hc | Hc]]; [tauto | | tauto].
      right. left. split; [exact Hc |]. intros ->. apply Hne.
      rewrite <- Hs. reflexivity.
  - rewrite Hadded. exact Hsub.
  - intros Hcs Hdistinct. apply resolve_loop_clean; [assumption .. |].
    intros x _. apply not_elem_of_empty.
Qed.

Lemma sample_candidates :
  candidates (sample_settings None None) None = ["+15550100"; "+15550111"].
Proof. reflexivity. Qed.

Lemma resolve_recipients_normalized_witness :
  _resolve_recipients
    {| settings := sample_settings None None; _client := None |} None
  = ["+15550100"; "+15550111"].
Proof.
  apply (resolve_recipients_normalized
           {| settings := sample_settings None None; _client := None |} None).
  - cbn [settings]. rewrite sample_candidates.
    eapply Forall_impl; [apply ContactFacts.sample_contacts_clean |].
    intros item [Hclean _]. exact Hclean.
  - cbn [settings]. rewrite sample_candidates.
    apply NoDup_cons_2; [| apply NoDup_singleton].
    intros Hin. apply list_elem_of_singleton in Hin. discriminate.
Defined.

(** *** Deliveries *)

Lemma dispatch_loop_report (create : request → outcome) (content : string)
    (sender : option string) (recipients served : list string)
    (requests : list request) :
  let attempt number := create (request_to content sender number) in
  let result :=
    dispatch_loop create content sender recipients served requests in
  match result.1 with
  | Ok served' =>
      served'
      = served ++ filter (λ number, created (attempt number) = true) recipients
      ∧ result.2 = requests ++ (request_to content sender <$> recipients)
      ∧ Forall (λ number, survives (attempt number)) recipients
  | Raise e =>
      ∃ before number after,
        recipients = before ++ number :: after ∧
        Forall (λ number, survives (attempt number)) before ∧
        attempt number = Crashed e ∧
        result.2
        = requests ++ (request_to content sender <$> (before ++ [number]))
  end.
Proof.
  intros attempt. revert served requests.
  induction recipients as [|number rest IH]; intros served requests result.
  - subst result. simpl. rewrite !app_nil_r. auto.
  - subst result. cbn [dispatch_loop].
    fold (attempt number). destruct (attempt number) as [| |e] eqn:Hnumber.
    + specialize (IH (served ++ [number])
                     (requests ++ [request_to content sender number])).
      cbv zeta in IH.
      destruct (dispatch_loop create content sender rest _ _) as [[served'|e] made];
        cbn [fst snd] in *.
      * destruct IH as (-> & -> & Hrest).
        rewrite filter_cons_True by (rewrite Hnumber; reflexivity).
        rewrite <- !app_assoc. split; [reflexivity |].
        split; [reflexivity |]. constructor; [| exact Hrest].
        rewrite Hnumber. intros e. discriminate.
      * destruct IH as (before & failing & after & -> & Hbefore & Hfail & ->).
        exists (number :: before), failing, after.
        split; [reflexivity |]. split; [| split; [exact Hfail |]].
        -- constructor; [| exact Hbefore].
           rewrite Hnumber. intros e'. discriminate.
        -- rewrite <- app_assoc. reflexivity.
    + specialize (IH served (requests ++ [request_to content sender number])).
      cbv zeta in IH.
      destruct (dispatch_loop create content sender rest _ _) as [[served'|e] made];
        cbn [fst snd] in *.
      * destruct IH as (-> & -> & Hrest).
        rewrite filter_cons_False by (rewrite Hnumber; discriminate).
        rewrite <- !app_assoc. split; [reflexivity |].
        split; [reflexivity |]. constructor; [| exact Hrest].
        rewrite Hnumber. intros e. discriminate.
      * destruct IH as (before & failing & after & -> & Hbefore & Hfail & ->).
        exists (number :: before), failing, after.
        split; [reflexivity |]. split; [| split; [exact Hfail |]].
        -- constructor; [| exact Hbefore].
           rewrite Hnumber. intros e'. discriminate.
        -- rewrite <- app_assoc. reflexivity.
    + cbn [fst snd]. exists [], number, rest.
      split; [reflexivity |]. split; [constructor |].
      split; [exact Hnumber | reflexivity].
Qed.

Lemma dispatch_dry_run (self : EmergencyDispatcher)
    (create : Client → request → outcome) (content : string)
    (recipients : list string) :
  _client self = None →
  dispatch self create content recipients = (Ok recipients, []).
Proof.
  intros Hclient. unfold dispatch. rewrite Hclient.
  destruct recipients; reflexivity.
Qed.

Lemma dispatch_report (self : EmergencyDispatcher) (client : Client)
    (create : Client → request → outcome) (content : string)
    (recipients : list string) :
  _client self = Some client →
  delivery_report (create client) content
    (twilio_from_number (settings self)) recipients
    (dispatch self create content recipients).
Proof.
  intros Hclient. unfold dispatch. rewrite Hclient.
  destruct recipients as [|number rest].
  - unfold delivery_report. simpl. split; [reflexivity |].
    split; [reflexivity | constructor].
  - pose proof (dispatch_loop_report (create client) content
                  (twilio_from_number (settings self)) (number :: rest) [] [])
      as Hloop.
    cbv zeta in Hloop. unfold delivery_report.
    destruct (dispatch_loop _ _ _ (number :: rest) [] []) as [[served|e] made];
      cbn [fst snd] in *; exact Hloop.
Qed.

Lemma delivery_report_served (create : request → outcome) (content : string)
    (sender : option string) (recipients served : list string)
    (result : res (list string) * list request) :
  delivery_report create content sender recipients result →
  result.1 = Ok served → served `sublist_of` recipients.
Proof.
  unfold delivery_report. intros Hreport Hserved. rewrite Hserved in Hreport.
  destruct Hreport as (-> & _). apply sublist_filter.
Qed.

Lemma is_configured_credentials (s : DispatcherSettings) (connect : Client) :
  _client (__init__ s connect)
  = if is_configured (__init__ s connect) then Some connect else None.
Proof.
  unfold is_configured, __init__, _create_client. cbn [_client].
  destruct (truthy (twilio_account_sid s) && truthy (twilio_auth_token s)
            && truthy (twilio_from_number s)); reflexivity.
Qed.

Lemma is_configured_init (s : DispatcherSettings) (connect : Client) :
  is_configured (__init__ s connect)
  = truthy (twilio_account_sid s) && truthy (twilio_auth_token s)
    && truthy (twilio_from_number s).
Proof.
  unfold is_configured, __init__, _create_client. cbn [_client].
  destruct (truthy (twilio_account_sid s) && truthy (twilio_auth_token s)
            && truthy (twilio_from_number s)); reflexivity.
Qed.

Lemma truthy_Some (o : option string) :
  truthy o = true ↔ ∃ v, o = Some v ∧ v ≠ "".
Proof.
  destruct o as [v|]; simpl.
  - rewrite bool_decide_eq_true. split; [eauto |].
    intros (v' & [= <-] & Hv). exact Hv.
  - split; [discriminate |]. intros (v & [=] & _).
Qed.

(** X30. What [send_sms_alert] and [place_phone_call] report, for the
    dispatcher that [__init__] builds.  It is configured exactly when the
    account identifier, the token and the sender number are all set and not
    empty.  When it is not (dry run), both methods return every resolved
    recipient as served although no request is made.  When it is, each
    method makes one request per resolved recipient, in order, with the
    same content and the configured sender, and returns the recipients
    whose request succeeded, a [TwilioRestException] only dropping its
    recipient; any other exception leaves the method at once, with no
    request for the recipients that follow.  What a method returns is
    always a sublist of the resolved recipients. *)
Theorem alerts_report (float_str : R → string) (s : DispatcherSettings)
    (connect : Client) (reason voice_message : string)
    (vitals : list (string * option string)) (latitude longitude : option R)
    (contacts : option (list string)) :
  let self := __init__ s connect in
  let recipients := _resolve_recipients self contacts in
  let sms :=
    send_sms_alert float_str self reason vitals latitude longitude contacts in
  let call :=
    place_phone_call float_str self voice_message latitude longitude contacts in
  (is_configured self = true
   ↔ ∃ sid token sender,
       twilio_account_sid s = Some sid ∧ sid ≠ "" ∧
       twilio_auth_token s = Some token ∧ token ≠ "" ∧
       twilio_from_number s = Some sender ∧ sender ≠ "") ∧
  (is_configured self = false →
   sms = (Ok recipients, []) ∧ call = (Ok recipients, [])) ∧
  (is_configured self = true →
   delivery_report (messages_create connect)
     (_build_sms_body float_str reason vitals latitude longitude)
     (twilio_from_number s) recipients sms ∧
   delivery_report (calls_create connect)
     (call_script float_str voice_message latitude longitude)
     (twilio_from_number s) recipients call) ∧
  (∀ served,
     sms.1 = Ok served ∨ call.1 = Ok served →
     served `sublist_of` recipients).
Proof.
  intros self recipients sms call.
  pose proof (is_configured_credentials s connect) as Hclient.
  fold self in Hclient.
  assert (Hdry : is_configured self = false →
                 sms = (Ok recipients, []) ∧ call = (Ok recipients, [])).
  { intros Hoff. rewrite Hoff in Hclient.
    split; apply dispatch_dry_run; exact Hclient. }
  assert (Hlive : is_configured self = true →
    delivery_report (messages_create connect)
      (_build_sms_body float_str reason vitals latitude longitude)
      (twilio_from_number s) recipients sms ∧
    delivery_report (calls_create connect)
      (call_script float_str voice_message latitude longitude)
      (twilio_from_number s) recipients call).
  { intros Hon. rewrite Hon in Hclient.
    split.
    - apply (dispatch_report self connect messages_create _ recipients Hclient).
    - apply (dispatch_report self connect calls_create _ recipients Hclient). }
  split; [| split; [exact Hdry | split; [exact Hlive |]]].
  - unfold self. rewrite is_configured_init, !andb_true_iff, !truthy_Some.
    split.
    + intros [[(sid & Hsid & Hs) (token & Htoken & Ht)] (sender & Hsender & Hf)].
      exists sid, token, sender. tauto.
    + intros (sid & token & sender & Hsid & Hs & Htoken & Ht & Hsender & Hf).
      eauto 10.
  - intros served Hserved.
    destruct (is_configured self) eqn:Hconf.
    + destruct (Hlive eq_refl) as [Hsms Hcall].
      destruct Hserved as [Hserved | Hserved];
        [ exact (delivery_report_served _ _ _ _ _ _ Hsms Hserved)
        | exact (delivery_report_served _ _ _ _ _ _ Hcall Hserved) ].
    + destruct (Hdry eq_refl) as [Hsms Hcall].
      rewrite Hsms, Hcall in Hserved. cbn [fst] in Hserved.
      destruct Hserved as [[= <-] | [= <-]]; reflexivity.
Qed.

Lemma alerts_report_witness :
  let self :=
    __init__ (sample_settings (Some "token") (Some " +15550100 "))
      (picky_client "+15550111") in
  delivery_report (messages_create (picky_client "+15550111"))
    (_build_sms_body (λ _, "0.0") "alarm" [] None None) (Some "token")
    (_resolve_recipients self None)
    (send_sms_alert (λ _, "0.0") self "alarm" [] None None None).
Proof.
  apply (alerts_report (λ _, "0.0")
           (sample_settings (Some "token") (Some " +15550100 "))
           (picky_client "+15550111") "alarm" "alarm" [] None None None).
  reflexivity.
Defined.

End DispatcherFacts.
